(** * analyze_diff.py: the diff-discrepancy miner, embedded and verified

    The embedding follows [analyze_diff.py] function by function: the file
    classifier ([is_test_file], [is_source_code], [is_readme],
    [is_license], [classify_file]), the diff invoker ([run],
    [git_diff_single]), the commit walker and the records
    ([analyze_repo]) and the aggregation ([build_and_save]).

    Paths and texts are byte strings ([string]); the Python program works
    on Unicode text, which coincides with this model on ASCII.  Effects
    are explicit: a computation yields the commands it ran and the files
    it wrote, in order, and either an exception or a value.

    The libraries the program calls are modelled by their documented
    behaviour, as far as the program uses them:
    - [pathlib], POSIX flavour: [name], [suffix], [stem], [with_name];
    - [re]: a backtracking matcher for the operators of the two patterns
      of [is_test_file];
    - [subprocess]: the tool's answer is a function of the command line
      and the directory ([git diff] leaves the checkout as it is);
    - [pydriller]: the history of a checkout and the order in which
      [traverse_commits] walks it;
    - [pandas]: [DataFrame], [concat], [to_csv], [groupby], [pivot],
      [fillna].

    Left out: cloning and fetching ([ensure_cloned]; [build_and_save]
    starts from the cloned repositories), the messages printed, the
    plots, and the command line. *)

From Stdlib Require Import Bool Ascii String List ZArith Lia Sorted OrderedTypeEx.
Import ListNotations.
Local Open Scope string_scope.
Local Open Scope list_scope.

(** ** Python string primitives *)

Module PyStr.

(** [c.lower()] on an ASCII character. *)
Definition lower_ascii (c : ascii) : ascii :=
  let n := nat_of_ascii c in
  if (65 <=? n)%nat && (n <=? 90)%nat then ascii_of_nat (n + 32) else c.

(** [s.lower()]. *)
Fixpoint lower (s : string) : string :=
  match s with
  | EmptyString => EmptyString
  | String c s' => String (lower_ascii c) (lower s')
  end.

(** [s.startswith(p)]. *)
Fixpoint startswith (p s : string) : bool :=
  match p, s with
  | EmptyString, _ => true
  | String a p', String b s' => Ascii.eqb a b && startswith p' s'
  | String _ _, EmptyString => false
  end.

(** [s.split(sep)] for a one-character separator: never the empty list,
    [''.split('/')] is [['']]. *)
Fixpoint split (sep : ascii) (s : string) : list string :=
  match s with
  | EmptyString => [EmptyString]
  | String c s' =>
      if Ascii.eqb c sep then EmptyString :: split sep s'
      else match split sep s' with
           | seg :: segs => String c seg :: segs
           | [] => [String c EmptyString]
           end
  end.

(** [x in xs] for a list of strings. *)
Definition mem (x : string) (xs : list string) : bool :=
  existsb (String.eqb x) xs.

(** [s.rfind(c)] for a character: index of the last occurrence. *)
Fixpoint rfind (c : ascii) (s : string) : option nat :=
  match s with
  | EmptyString => None
  | String a s' =>
      match rfind c s' with
      | Some i => Some (S i)
      | None => if Ascii.eqb a c then Some 0%nat else None
      end
  end.

(** [s[i:]]. *)
Fixpoint drop (i : nat) (s : string) : string :=
  match i, s with
  | O, _ => s
  | S i', String _ s' => drop i' s'
  | S _, EmptyString => EmptyString
  end.

(** Python truthiness of a string and of an optional string. *)
Definition truthy (s : string) : bool :=
  match s with EmptyString => false | _ => true end.

Definition truthy_opt (o : option string) : bool :=
  match o with Some s => truthy s | None => false end.

(** [a or b] on optional strings: the first truthy operand, else the
    last one. *)
Definition or_opt (a b : option string) : option string :=
  if truthy_opt a then a else b.

(** [a or ""] with a string literal on the right. *)
Definition or_str (a : option string) (b : string) : string :=
  match a with
  | Some s => if truthy s then s else b
  | None => b
  end.

(** Characters removed by [s.strip()] (ASCII white space). *)
Definition is_space (c : ascii) : bool :=
  let n := nat_of_ascii c in
  ((9 <=? n)%nat && (n <=? 13)%nat) || ((28 <=? n)%nat && (n <=? 32)%nat).

Fixpoint lstrip (s : string) : string :=
  match s with
  | EmptyString => EmptyString
  | String c s' => if is_space c then lstrip s' else s
  end.

(** Strip on the right: a suffix made of white space only is dropped. *)
Fixpoint rstrip (s : string) : string :=
  match s with
  | EmptyString => EmptyString
  | String c s' =>
      match rstrip s' with
      | EmptyString => if is_space c then EmptyString else String c EmptyString
      | r => String c r
      end
  end.

Definition strip (s : string) : string := rstrip (lstrip s).

(** [s.replace(a, b)] for single characters. *)
Fixpoint replace_char (a b : ascii) (s : string) : string :=
  match s with
  | EmptyString => EmptyString
  | String c s' =>
      String (if Ascii.eqb c a then b else c) (replace_char a b s')
  end.

(** [s.rstrip(c)] for a character: the trailing run of [c] is dropped. *)
Fixpoint rstrip_char (c : ascii) (s : string) : string :=
  match s with
  | EmptyString => EmptyString
  | String a s' =>
      match rstrip_char c s' with
      | EmptyString => if Ascii.eqb a c then EmptyString else String a EmptyString
      | r => String a r
      end
  end.

(** [s.replace(old, new)] for a non-empty [old]: the occurrences of [old]
    are replaced from left to right, without overlap.  [skip] counts the
    characters of an occurrence still to be passed over. *)
Fixpoint replace_from (old new : string) (skip : nat) (s : string) : string :=
  match s with
  | EmptyString => EmptyString
  | String c s' =>
      match skip with
      | S k => replace_from old new k s'
      | O =>
          if startswith old s
          then append new (replace_from old new (String.length old - 1) s')
          else String c (replace_from old new 0 s')
      end
  end.

Definition replace (old new s : string) : string := replace_from old new 0 s.

End PyStr.

(** ** The fragment of [re] used by [is_test_file] *)

Module Re.

Inductive regex : Type :=
| Eps                        (* the empty pattern *)
| Chr (c : ascii)            (* a literal character *)
| Seq (r1 r2 : regex)        (* r1 r2 *)
| Alt (r1 r2 : regex)        (* r1|r2 *)
| Opt (r : regex)            (* r? *)
| Bol                        (* ^ *)
| Eol                        (* $ *)
| WordB.                     (* \b *)

(** [\w] on ASCII: letters, digits and the underscore. *)
Definition is_word (c : ascii) : bool :=
  let n := nat_of_ascii c in
  ((48 <=? n)%nat && (n <=? 57)%nat)
  || ((65 <=? n)%nat && (n <=? 90)%nat)
  || ((97 <=? n)%nat && (n <=? 122)%nat)
  || (n =? 95)%nat.

Definition word_before (prev : option ascii) : bool :=
  match prev with Some c => is_word c | None => false end.

Definition word_after (s : string) : bool :=
  match s with String c _ => is_word c | EmptyString => false end.

(** Backtracking match of [r] at the current position.  [prev] is the
    character just before the position ([None] at the start of the
    subject), [s] the rest of the subject, [k] the continuation. *)
Fixpoint rmatch (r : regex) (prev : option ascii) (s : string)
         (k : option ascii -> string -> bool) : bool :=
  match r with
  | Eps => k prev s
  | Chr c =>
      match s with
      | String c' s' => if Ascii.eqb c c' then k (Some c') s' else false
      | EmptyString => false
      end
  | Seq r1 r2 => rmatch r1 prev s (fun p' s' => rmatch r2 p' s' k)
  | Alt r1 r2 => rmatch r1 prev s k || rmatch r2 prev s k
  | Opt r1 => rmatch r1 prev s k || k prev s
  | Bol => match prev with None => k prev s | Some _ => false end
  | Eol =>
      (* without MULTILINE: at the end, or before a final newline *)
      match s with
      | EmptyString => k prev s
      | String c EmptyString =>
          if Ascii.eqb c "010"%char then k prev s else false
      | _ => false
      end
  | WordB => if xorb (word_before prev) (word_after s) then k prev s else false
  end.

Definition accept (_ : option ascii) (_ : string) : bool := true.

(** Truthiness of [re.search(r, s)]: a match at some start position. *)
Fixpoint search_from (r : regex) (prev : option ascii) (s : string) : bool :=
  rmatch r prev s accept
  || match s with
     | String c s' => search_from r (Some c) s'
     | EmptyString => false
     end.

Definition search (r : regex) (s : string) : bool := search_from r None s.

(** A literal word. *)
Fixpoint lit (w : string) : regex :=
  match w with
  | EmptyString => Eps
  | String c EmptyString => Chr c
  | String c w' => Seq (Chr c) (lit w')
  end.

End Re.

(** ** pathlib, POSIX flavour *)

Module PathLib.

(** The components of a path: empty segments and [.] are dropped. *)
Definition parts (p : string) : list string :=
  filter (fun seg => negb (String.eqb seg "") && negb (String.eqb seg "."))
         (PyStr.split "/"%char p).

(** [Path(p).name]: the last component, [''] when there is none. *)
Definition name (p : string) : string := last (parts p) "".

(** [Path(p).suffix]: from the last dot of the name, when that dot is
    neither the first nor the last character of the name. *)
Definition suffix (p : string) : string :=
  let n := name p in
  match PyStr.rfind "."%char n with
  | Some i =>
      if (0 <? i)%nat && (i <? String.length n - 1)%nat
      then PyStr.drop i n else ""
  | None => ""
  end.

(** The root of a path: one slash, or two when the path starts with
    exactly two. *)
Definition root (p : string) : string :=
  match p with
  | String a (String b (String c _)) =>
      if Ascii.eqb a "/"%char
      then if Ascii.eqb b "/"%char && negb (Ascii.eqb c "/"%char) then "//" else "/"
      else ""
  | String a (String b EmptyString) =>
      if Ascii.eqb a "/"%char then if Ascii.eqb b "/"%char then "//" else "/" else ""
  | String a EmptyString => if Ascii.eqb a "/"%char then "/" else ""
  | EmptyString => ""
  end.

(** [Path(p).stem]: the name without its suffix. *)
Definition stem (p : string) : string :=
  let n := name p in
  substring 0 (String.length n - String.length (suffix p)) n.

(** [Path(p).with_name(n)]: the same directory, another last component;
    [None] stands for the ValueError of a path that has no name. *)
Definition with_name (p n : string) : option string :=
  if String.eqb (name p) "" then None
  else Some (String.append (root p)
               (String.concat "/" (removelast (parts p) ++ [n]))).

(** [str(Path(p))]: the root and the components, joined by single
    slashes; a dot for the path without root and components. *)
Definition norm (p : string) : string :=
  match root p, parts p with
  | EmptyString, [] => "."
  | r, ps => String.append r (String.concat "/" ps)
  end.

(** [str(Path(p) / n)] for a relative [n]: the components of [n] are
    added to those of [p]. *)
Definition joinpath (p n : string) : string :=
  match root p, (parts p ++ parts n)%list with
  | EmptyString, [] => "."
  | r, ps => String.append r (String.concat "/" ps)
  end.

(** [str(Path(p).parent)] *)
Definition parent (p : string) : string :=
  match root p, removelast (parts p) with
  | EmptyString, [] => "."
  | r, ps => String.append r (String.concat "/" ps)
  end.

End PathLib.

(** ** The file classifier *)

(** [(tests?|test_)\b], what follows the anchor in the first pattern. *)
Definition TEST_TAIL : Re.regex :=
  Re.Seq (Re.Alt (Re.Seq (Re.lit "test") (Re.Opt (Re.Chr "s"%char)))
                 (Re.lit "test_"))
         Re.WordB.

(** [(^|/)(tests?|test_)\b] *)
Definition TEST_RE : Re.regex :=
  Re.Seq (Re.Alt Re.Bol (Re.Chr "/"%char)) TEST_TAIL.

(** [conftest\.py$], what follows the anchor in the second pattern. *)
Definition CONFTEST_TAIL : Re.regex := Re.Seq (Re.lit "conftest.py") Re.Eol.

(** [(^|/)conftest\.py$] *)
Definition CONFTEST_RE : Re.regex :=
  Re.Seq (Re.Alt Re.Bol (Re.Chr "/"%char)) CONFTEST_TAIL.

Definition is_test_file (path : option string) : bool :=
  match path with
  | None => false
  | Some path =>
      if negb (PyStr.truthy path) then false
      else
        let p := PyStr.lower path in
        PyStr.mem "test" (PyStr.split "/"%char p)
        || Re.search TEST_RE p
        || Re.search CONFTEST_RE p
  end.

Definition SOURCE_EXTS : list string :=
  [ ".c"; ".h"; ".cpp"; ".cc"; ".cxx"; ".hpp";
    ".java"; ".py"; ".rb"; ".go"; ".rs"; ".php";
    ".cs"; ".kt"; ".m"; ".mm"; ".swift";
    ".js"; ".jsx"; ".ts"; ".tsx";
    ".scala"; ".pl"; ".r"; ".jl"; ".lua";
    ".sh"; ".bash"; ".zsh"; ".ps1" ].

Definition is_source_code (path : option string) : bool :=
  match path with
  | None => false
  | Some path =>
      if negb (PyStr.truthy path) then false
      else PyStr.mem (PyStr.lower (PathLib.suffix path)) SOURCE_EXTS
  end.

(** [path and Path(path).name.lower().startswith("readme")], as a truth
    value. *)
Definition is_readme (path : option string) : bool :=
  match path with
  | None => false
  | Some path =>
      PyStr.truthy path
      && PyStr.startswith "readme" (PyStr.lower (PathLib.name path))
  end.

Definition is_license (path : option string) : bool :=
  match path with
  | None => false
  | Some path =>
      if negb (PyStr.truthy path) then false
      else
        let name := PyStr.lower (PathLib.name path) in
        PyStr.startswith "license" name || PyStr.startswith "licence" name
  end.

Definition classify_file (old_path new_path : option string) : string :=
  let p := PyStr.lower (PyStr.or_str (PyStr.or_opt new_path old_path) "") in
  if is_readme (Some p) then "readme"
  else if is_license (Some p) then "license"
  else if is_test_file (Some p) then "test"
  else if is_source_code (Some p) then "source"
  else "other".

(** The precedence rule in the specification's words: the first of
    readme, license, test, source that applies, else other. *)
Definition first_match (p : option string) : string :=
  if is_readme p then "readme"
  else if is_license p then "license"
  else if is_test_file p then "test"
  else if is_source_code p then "source"
  else "other".

(** [c in s] for a character. *)
Fixpoint has_char (c : ascii) (s : string) : bool :=
  match s with
  | EmptyString => false
  | String a s' => Ascii.eqb a c || has_char c s'
  end.

(** The text is plain ASCII: every character has a code below 128.  On
    such text [str.lower], [\w] and [\b] of Python are what [PyStr.lower],
    [Re.is_word] and the word boundary of [Re] compute. *)
Fixpoint ascii_only (s : string) : bool :=
  match s with
  | EmptyString => true
  | String a s' => (nat_of_ascii a <? 128)%nat && ascii_only s'
  end.

(** The test heuristic in the specification's words: a segment equal to
    "test" or "tests", or a segment beginning with "test" followed by a
    character that is not a letter, or the file conftest.py; letter case
    is ignored. *)
Definition is_letter (c : ascii) : bool :=
  let n := nat_of_ascii c in
  ((65 <=? n)%nat && (n <=? 90)%nat) || ((97 <=? n)%nat && (n <=? 122)%nat).

Definition spec_test_segment (seg : string) : bool :=
  String.eqb seg "test" || String.eqb seg "tests"
  || (PyStr.startswith "test" seg
      && match PyStr.drop 4 seg with
         | String c _ => negb (is_letter c)
         | EmptyString => false
         end).

Definition spec_is_test (p : string) : bool :=
  let segs := PyStr.split "/"%char (PyStr.lower p) in
  existsb spec_test_segment segs || String.eqb (last segs "") "conftest.py".

(** *** The two patterns, read segment by segment *)

(** What [(tests?|test_)\b] accepts at the start of a segment: "test",
    "tests" or "test_", and then the end of the segment or a character
    that is no letter, digit or underscore. *)
Definition test_head (seg : string) : bool :=
  (PyStr.startswith "test" seg && negb (Re.word_after (PyStr.drop 4 seg)))
  || (PyStr.startswith "tests" seg && negb (Re.word_after (PyStr.drop 5 seg)))
  || (PyStr.startswith "test_" seg && negb (Re.word_after (PyStr.drop 5 seg))).

(** What [conftest\.py$] accepts: that name, with or without a final
    newline. *)
Definition conf_head (s : string) : bool :=
  String.eqb "conftest.py" s
  || String.eqb (String.append "conftest.py" (String "010"%char "")) s.

(** [h] holds right after some slash of [s]. *)
Fixpoint after_slash (h : string -> bool) (s : string) : bool :=
  match s with
  | EmptyString => false
  | String c s' => (Ascii.eqb c "/"%char && h s') || after_slash h s'
  end.

(** ** Effects: commands run, files written, exceptions raised *)

Record CompletedProcess : Type := {
  returncode : Z;
  stdout : string;
  stderr : string
}.

(** A cell of a row dict or of a data frame. *)
Inductive pyval : Type :=
| VNone
| VStr (s : string).

(** A row dict, in insertion order (the order pandas takes the columns
    from). *)
Definition Row : Type := list (string * pyval).

Fixpoint row_get (key : string) (r : Row) : option pyval :=
  match r with
  | [] => None
  | (k, v) :: r' => if String.eqb k key then Some v else row_get key r'
  end.

(** The text of a cell, when the row has one under that key. *)
Definition row_str (key : string) (r : Row) : option string :=
  match row_get key r with
  | Some (VStr s) => Some s
  | _ => None
  end.

Inductive PyExc : Type :=
| ValueError (msg : string)
| KeyError (key : string).

(** The summary table: row labels, column labels and the integer cells,
    one list per row label. *)
Record Stats : Type := {
  stats_index : list string;
  stats_columns : list string;
  stats_cells : list (list Z)
}.

Inductive Event : Type :=
| Exec (cmd : list string) (cwd : option string)
| WriteDataset (file : string) (header : list string) (body : list (list string))
| WriteStats (file : string) (table : Stats).

(** A computation: the events it caused, in order, and either the
    exception that stopped it or its value. *)
Definition Py (A : Type) : Type := (list Event * (PyExc + A))%type.

Definition ret {A} (a : A) : Py A := ([], inr a).
Definition raise {A} (e : PyExc) : Py A := ([], inl e).
Definition emit (e : Event) : Py unit := ([e], inr tt).

Definition bind {A B} (m : Py A) (f : A -> Py B) : Py B :=
  match m with
  | (ev, inl e) => (ev, inl e)
  | (ev, inr a) =>
      match f a with
      | (ev', r) => (ev ++ ev', r)
      end
  end.

Declare Scope py_scope.
Delimit Scope py_scope with py.
Notation "x <- m ;; k" := (bind m (fun x => k))
  (at level 61, m at next level, right associativity) : py_scope.
Notation "m ;;; k" := (bind m (fun _ => k))
  (at level 61, right associativity) : py_scope.
Local Open Scope py_scope.

Definition events {A} (m : Py A) : list Event := fst m.
Definition outcome {A} (m : Py A) : PyExc + A := snd m.

(** ** pydriller: commits and their traversal *)

Module PyDriller.

Record ModifiedFile : Type := {
  old_path : option string;
  new_path : option string
}.

Record Commit : Type := {
  hash : string;
  parents : list string;
  msg : string;
  modified_files : list ModifiedFile
}.

Definition is_merge (c : Commit) : bool := (1 <? length (parents c))%nat.

(** [git rev-list HEAD] over a history given oldest commit first: the
    listing is newest first, [--no-merges] drops the commits with more
    than one parent, [--reverse] reverses what is left. *)
Definition rev_list (history : list Commit) (no_merges reverse : bool)
  : list Commit :=
  let listing := rev history in
  let kept :=
    if no_merges then filter (fun c => negb (is_merge c)) listing
    else listing in
  if reverse then rev kept else kept.

(** [Repository(path, order=..., only_no_merge=...).traverse_commits()]:
    without an order the commits come oldest first (pydriller asks
    git for [--reverse]); [order="reverse"] turns that off, so the commits
    come newest first. *)
Definition traverse_commits (history : list Commit) (order : option string)
           (only_no_merge : bool) : list Commit :=
  let reverse :=
    match order with
    | None => true
    | Some o => negb (String.eqb o "reverse")
    end in
  rev_list history only_no_merge reverse.

End PyDriller.
Import PyDriller.

Record RepoSpec : Type := {
  url : string;
  name : string;
  path : string
}.

(** ** pandas: the operations [analyze_repo] and [build_and_save] use *)

Module Pandas.

Record DataFrame : Type := {
  columns : list string;
  records : list Row
}.

Fixpoint add_new (seen : list string) (ks : list string) : list string :=
  match ks with
  | [] => seen
  | k :: ks' =>
      if PyStr.mem k seen then add_new seen ks'
      else add_new (seen ++ [k]) ks'
  end.

(** [pd.DataFrame(rows)] for a list of dicts: the columns are the keys in
    order of first appearance; no row, no column. *)
Definition of_rows (rows : list Row) : DataFrame :=
  {| columns := fold_left (fun seen r => add_new seen (map fst r)) rows [];
     records := rows |}.

(** [pd.concat(dfs, ignore_index=True)]. *)
Definition concat (dfs : list DataFrame) : Py DataFrame :=
  match dfs with
  | [] => raise (ValueError "No objects to concatenate")
  | _ =>
      ret {| columns := fold_left (fun seen d => add_new seen (columns d)) dfs [];
             records := flat_map records dfs |}
  end.

(** The text [to_csv] writes for a cell: nothing for a missing value. *)
Definition cell_text (c : string) (r : Row) : string :=
  match row_str c r with Some s => s | None => "" end.

(** [df.to_csv(file, index=False)]: a header of the columns and one line
    per record (the quoting of the cells is left out). *)
Definition to_csv (df : DataFrame) (file : string) : Py unit :=
  emit (WriteDataset file (columns df)
          (map (fun r => map (fun c => cell_text c r) (columns df)) (records df))).

(** Sorted list of the distinct labels. *)
Fixpoint insert_sorted (x : string) (l : list string) : list string :=
  match l with
  | [] => [x]
  | y :: l' =>
      if String.eqb x y then l
      else if String.ltb x y then x :: l
      else y :: insert_sorted x l'
  end.

Definition sorted_unique (l : list string) : list string :=
  fold_right insert_sorted [] l.

(** The two group keys of a record; a record with a missing key is left
    out of every group. *)
Definition group_key (k1 k2 : string) (r : Row) : option (string * string) :=
  match row_str k1 r, row_str k2 r with
  | Some a, Some b => Some (a, b)
  | _, _ => None
  end.

Definition pair_eqb (x y : string * string) : bool :=
  String.eqb (fst x) (fst y) && String.eqb (snd x) (snd y).

Fixpoint keys_of (k1 k2 : string) (rs : list Row) : list (string * string) :=
  match rs with
  | [] => []
  | r :: rs' =>
      match group_key k1 k2 r with
      | Some k => k :: keys_of k1 k2 rs'
      | None => keys_of k1 k2 rs'
      end
  end.

Definition count_key (k : string * string) (ks : list (string * string)) : Z :=
  Z.of_nat (length (filter (pair_eqb k) ks)).

(** [df.groupby([k1, k2]).size().reset_index(name="count")]: one entry
    per pair of key values that occurs, with the number of records. *)
Definition groupby_size (df : DataFrame) (k1 k2 : string)
  : Py (list (string * string * Z)) :=
  if negb (PyStr.mem k1 (columns df)) then raise (KeyError k1)
  else if negb (PyStr.mem k2 (columns df)) then raise (KeyError k2)
  else
    let ks := keys_of k1 k2 (records df) in
    let firsts := sorted_unique (map fst ks) in
    let seconds := sorted_unique (map snd ks) in
    ret (flat_map
           (fun a =>
              flat_map
                (fun b =>
                   if existsb (pair_eqb (a, b)) ks
                   then [(a, b, count_key (a, b) ks)] else [])
                seconds)
           firsts).

Fixpoint find_count (a b : string) (g : list (string * string * Z)) : option Z :=
  match g with
  | [] => None
  | (a', b', n) :: g' =>
      if pair_eqb (a, b) (a', b') then Some n else find_count a b g'
  end.

(** [.pivot(index=k1, columns=k2, values="count")]: a row per first key,
    a column per second key, a missing cell where the pair has no
    entry. *)
Definition pivot (g : list (string * string * Z))
  : list string * list string * list (list (option Z)) :=
  let idx := sorted_unique (map (fun e => fst (fst e)) g) in
  let cols := sorted_unique (map (fun e => snd (fst e)) g) in
  (idx, cols, map (fun a => map (fun b => find_count a b g) cols) idx).

(** [.fillna(0).astype(int)]. *)
Definition fillna0 (t : list string * list string * list (list (option Z))) : Stats :=
  match t with
  | (idx, cols, cells) =>
      {| stats_index := idx;
         stats_columns := cols;
         stats_cells :=
           map (map (fun c => match c with Some n => n | None => 0%Z end)) cells |}
  end.

End Pandas.
Import Pandas.

(** ** The diff invoker *)

Section Pipeline.

(** What the external command answers; [git diff] reads the checkout and
    leaves it as it is. *)
Variable subprocess_run : list string -> option string -> CompletedProcess.

(** The commits reachable from HEAD in the checkout at a path, oldest
    first. *)
Variable checkout : string -> list Commit.

(** The order in which a set of two distinct strings is iterated (it
    follows their hashes). *)
Variable set_order : string -> string -> bool.

(** [run(cmd, cwd)], with [check=False]: a non-zero exit raises nothing. *)
Definition run (cmd : list string) (cwd : option string) : Py CompletedProcess :=
  emit (Exec cmd cwd) ;;; ret (subprocess_run cmd cwd).

Definition diff_cmd (parent_sha commit_sha : string) (paths : list string)
           (algorithm : string) : list string :=
  [ "git"; "-c"; "core.safecrlf=false"; "diff";
    "--ignore-blank-lines"; "-w";
    String.append "--diff-algorithm=" algorithm;
    parent_sha; commit_sha;
    "--find-renames"; "--" ] ++ paths.

Definition git_diff_single (repo_dir parent_sha commit_sha : string)
           (paths : list string) (algorithm : string) : Py string :=
  cp <- run (diff_cmd parent_sha commit_sha paths algorithm) (Some repo_dir) ;;
  ret (if (returncode cp =? 0)%Z then stdout cp else stderr cp).

(** ** The commit walker and the records *)

Definition EMPTY_TREE : string := "4b825dc642cb6eb9a060e54bf8d69288fbee4904".

(** [commit.parents[0] if commit.parents else "4b82..."] *)
Definition parent_sha_of (commit : Commit) : string :=
  match parents commit with
  | p :: _ => p
  | [] => EMPTY_TREE
  end.

Definition truthy_list (o : option string) : list string :=
  match o with
  | Some p => if PyStr.truthy p then [p] else []
  | None => []
  end.

(** [list({p for p in [m.old_path, m.new_path] if p})] *)
Definition paths_of (m : ModifiedFile) : list string :=
  match truthy_list (old_path m) ++ truthy_list (new_path m) with
  | [a; b] =>
      if String.eqb a b then [a]
      else if set_order a b then [a; b] else [b; a]
  | l => l
  end.

(** The body of the loop over [commit.modified_files]. *)
Definition analyze_file (spec : RepoSpec) (commit : Commit) (parent_sha : string)
           (m : ModifiedFile) (rows : list Row) : Py (list Row) :=
  let paths := paths_of m in
  match paths with
  | [] => ret rows                                   (* continue *)
  | _ =>
      diff_myers <- git_diff_single (path spec) parent_sha (hash commit) paths "myers" ;;
      diff_hist <- git_diff_single (path spec) parent_sha (hash commit) paths "histogram" ;;
      let discrep := if String.eqb diff_myers diff_hist then "No" else "Yes" in
      let ftype := classify_file (old_path m) (new_path m) in
      ret (rows ++
           [[ ("repo", VStr (name spec));
              ("old_file_path", VStr (PyStr.or_str (old_path m) ""));
              ("new_file_path", VStr (PyStr.or_str (new_path m) ""));
              ("commit_sha", VStr (hash commit));
              ("parent_commit_sha", VStr parent_sha);
              ("commit_message",
                VStr (PyStr.replace_char "010"%char " "%char (PyStr.strip (msg commit))));
              ("file_type", VStr ftype);
              ("diff_myers", VStr diff_myers);
              ("diff_hist", VStr diff_hist);
              ("Discrepancy", VStr discrep) ]])
  end.

Fixpoint analyze_files (spec : RepoSpec) (commit : Commit) (parent_sha : string)
         (ms : list ModifiedFile) (rows : list Row) : Py (list Row) :=
  match ms with
  | [] => ret rows
  | m :: ms' =>
      rows' <- analyze_file spec commit parent_sha m rows ;;
      analyze_files spec commit parent_sha ms' rows'
  end.

(** The loop over the commits, with its counter [seen] and the rows
    gathered so far. *)
Fixpoint analyze_commits (spec : RepoSpec) (max_commits seen : Z)
         (commits : list Commit) (rows : list Row) : Py (list Row) :=
  match commits with
  | [] => ret rows
  | commit :: rest =>
      if negb (max_commits =? 0)%Z && (seen >=? max_commits)%Z
      then ret rows                                  (* break *)
      else
        let seen := (seen + 1)%Z in
        let parent_sha := parent_sha_of commit in
        rows' <- analyze_files spec commit parent_sha (modified_files commit) rows ;;
        analyze_commits spec max_commits seen rest rows'
  end.

Definition analyze_repo (spec : RepoSpec) (max_commits : Z) (include_merges : bool)
  : Py DataFrame :=
  rows <- analyze_commits spec max_commits 0
            (traverse_commits (checkout (path spec)) (Some "reverse")
                              (negb include_merges))
            [] ;;
  ret (of_rows rows).

(** ** The aggregation *)

(** [out_csv.with_name(out_csv.stem + "_stats.csv")] *)
Definition stats_file (out_csv : string) : Py string :=
  match PathLib.with_name out_csv (String.append (PathLib.stem out_csv) "_stats.csv") with
  | Some file => ret file
  | None => raise (ValueError "path has an empty name")
  end.

(** The loop of [build_and_save] over the repositories, gathering their
    frames in [all_dfs]. *)
Fixpoint analyze_all (specs : list RepoSpec) (max_commits : Z) (include_merges : bool)
         (all_dfs : list DataFrame) : Py (list DataFrame) :=
  match specs with
  | [] => ret all_dfs
  | spec :: specs' =>
      df <- analyze_repo spec max_commits include_merges ;;
      analyze_all specs' max_commits include_merges (all_dfs ++ [df])
  end.

(** The expression that gives [stats] in [build_and_save]:
    [full.groupby([...]).size().reset_index(...).pivot(...).fillna(0).astype(int)]. *)
Definition summarize (full : DataFrame) : Py Stats :=
  g <- groupby_size full "file_type" "Discrepancy" ;;
  ret (fillna0 (pivot g)).

(** [build_and_save] from the cloned repositories on, without plots; the
    two writes always succeed. *)
Definition build_and_save (specs : list RepoSpec) (max_commits : Z)
           (out_csv : string) (include_merges : bool) : Py unit :=
  all_dfs <- analyze_all specs max_commits include_merges [] ;;
  full <- concat all_dfs ;;
  to_csv full out_csv ;;;
  stats <- summarize full ;;
  file <- stats_file out_csv ;;
  emit (WriteStats file stats).

(** ** What the loops did, read off a finished run *)

(** The rows a computation returned; none when it raised. *)
Definition rows_of (m : Py (list Row)) : list Row :=
  match outcome m with
  | inr rows => rows
  | inl _ => []
  end.

(** The text a computation returned; empty when it raised. *)
Definition text_of (r : PyExc + string) : string :=
  match r with
  | inr t => t
  | inl _ => ""
  end.

(** The text [git_diff_single] returns. *)
Definition diff_text (repo_dir parent_sha commit_sha : string)
           (paths : list string) (algorithm : string) : string :=
  text_of (outcome (git_diff_single repo_dir parent_sha commit_sha paths algorithm)).

(** The rows and the commands one file change contributes. *)
Definition file_rows (spec : RepoSpec) (commit : Commit) (parent_sha : string)
           (m : ModifiedFile) : list Row :=
  rows_of (analyze_file spec commit parent_sha m []).

Definition file_events (spec : RepoSpec) (commit : Commit) (parent_sha : string)
           (m : ModifiedFile) : list Event :=
  events (analyze_file spec commit parent_sha m []).

(** The rows and the commands one commit contributes. *)
Definition commit_rows (spec : RepoSpec) (commit : Commit) : list Row :=
  flat_map (file_rows spec commit (parent_sha_of commit)) (modified_files commit).

Definition commit_events (spec : RepoSpec) (commit : Commit) : list Event :=
  flat_map (file_events spec commit (parent_sha_of commit)) (modified_files commit).

(** The commits for which the body of the loop of [analyze_repo] runs:
    the same loop, keeping the commits instead of their rows. *)
Fixpoint processed (max_commits seen : Z) (commits : list Commit) : list Commit :=
  match commits with
  | [] => []
  | commit :: rest =>
      if negb (max_commits =? 0)%Z && (seen >=? max_commits)%Z
      then []
      else commit :: processed max_commits (seen + 1)%Z rest
  end.

(** The keys of a record, in the order [analyze_repo] writes them. *)
Definition ROW_KEYS : list string :=
  [ "repo"; "old_file_path"; "new_file_path"; "commit_sha"; "parent_commit_sha";
    "commit_message"; "file_type"; "diff_myers"; "diff_hist"; "Discrepancy" ].

(** The commits [analyze_repo] walks, before the cut-off. *)
Definition eligible_commits (spec : RepoSpec) (include_merges : bool) : list Commit :=
  traverse_commits (checkout (path spec)) (Some "reverse") (negb include_merges).

(** The records one repository contributes to the dataset. *)
Definition run_rows (spec : RepoSpec) (max_commits : Z) (include_merges : bool)
  : list Row :=
  rows_of (analyze_commits spec max_commits 0 (eligible_commits spec include_merges) []).

End Pipeline.

(** The walker in the specification's words: the commits that pass the
    merge policy, oldest first, cut after [max_commits] of them when
    [max_commits] is not 0. *)
Definition walk_oldest_first (history : list Commit) (max_commits : Z)
           (include_merges : bool) : list Commit :=
  let eligible := filter (fun c => include_merges || negb (is_merge c)) history in
  if (max_commits =? 0)%Z then eligible
  else firstn (Z.to_nat max_commits) eligible.

(** ** Getting the repositories: [ensure_cloned]

    The function looks at the file system and changes it through git, so
    it runs in a world that is passed along: [path_exists] reads it,
    [exec] and [mkdir] change it.  What git does to the world is not
    fixed here.  [exec] and [mkdir] always answer: the errors of starting
    git and of creating a directory have no counterpart. *)

(** [url.rstrip('/').split('/')[-1].replace('.git', '')] *)
Definition repo_name (url : string) : string :=
  PyStr.replace ".git" ""
    (last (PyStr.split "/"%char (PyStr.rstrip_char "/"%char url)) "").

Inductive Action : Type :=
| Ran (cmd : list string) (cwd : option string)
| MadeDirs (dir : string)
| Printed (text : string)
| PrintedErr (text : string).

Inductive CloneError : Type :=
| RuntimeError (msg : string).

Section Cloning.

Variable World : Type.
(** [Path(p).exists()] *)
Variable path_exists : World -> string -> bool.
(** [subprocess.run(cmd, cwd=cwd)]: the answer and the world after it. *)
Variable exec : World -> list string -> option string -> CompletedProcess * World.
(** [Path(p).mkdir(parents=True, exist_ok=True)] *)
Variable mkdir : World -> string -> World.

(** A computation in the world: what it did, the world it leaves, and
    either the error raised or the value. *)
Definition W (A : Type) : Type :=
  World -> (list Action * World * (CloneError + A))%type.

Definition wret {A} (a : A) : W A := fun w => ([], w, inr a).
Definition wraise {A} (e : CloneError) : W A := fun w => ([], w, inl e).

Definition wbind {A B} (m : W A) (f : A -> W B) : W B :=
  fun w =>
    match m w with
    | (acts, w', inl e) => (acts, w', inl e)
    | (acts, w', inr a) =>
        match f a w' with
        | (acts', w'', r) => (acts ++ acts', w'', r)
        end
    end.

Definition wprint (text : string) : W unit := fun w => ([Printed text], w, inr tt).
Definition wprint_err (text : string) : W unit :=
  fun w => ([PrintedErr text], w, inr tt).
Definition wmkdir (dir : string) : W unit :=
  fun w => ([MadeDirs dir], mkdir w dir, inr tt).
Definition wexists (p : string) : W bool := fun w => ([], w, inr (path_exists w p)).

(** [run(cmd, cwd)] in the world. *)
Definition wrun (cmd : list string) (cwd : option string) : W CompletedProcess :=
  fun w => match exec w cmd cwd with
           | (cp, w') => ([Ran cmd cwd], w', inr cp)
           end.

Definition clone_cmd (url path : string) : list string :=
  ["git"; "clone"; "--no-tags"; "--depth"; "1"; url; path].

Definition ensure_cloned (url workdir : string) : W RepoSpec :=
  let name := repo_name url in
  let path := PathLib.joinpath workdir name in
  wbind (wexists path) (fun present =>
  wbind
    (if negb present then
       wbind (wprint (String.append "[clone] "
                        (String.append url (String.append " -> " path)))) (fun _ =>
       wbind (wmkdir (PathLib.parent path)) (fun _ =>
       wbind (wrun (clone_cmd url path) None) (fun cp =>
       if negb (returncode cp =? 0)%Z then
         wbind (wprint_err (stderr cp)) (fun _ =>
         wraise (RuntimeError (String.append "git clone failed for " url)))
       else
         wbind (wrun ["git"; "fetch"; "--unshallow"] (Some path)) (fun _ =>
         wret tt))))
     else
       wbind (wexists (PathLib.joinpath path ".git")) (fun is_git =>
       if is_git then
         wbind (wrun ["git"; "remote"; "set-url"; "origin"; url] (Some path)) (fun _ =>
         wbind (wrun ["git"; "fetch"; "--all"] (Some path)) (fun _ =>
         wret tt))
       else
         wraise (RuntimeError (String.append "Not a git repository: " path))))
    (fun _ => wret {| url := url; name := name; path := path |})).

End Cloning.

(** The order of the labels of the summary table. *)
Definition label_lt (x y : string) : Prop := String.ltb x y = true.

(** ** A sample run

    Two checkouts.  The one at [repos/demo] has a root commit [a1] that
    adds three files and a commit [b2] on top of it that renames one of
    them and lists a change without paths; the one at [repos/empty] has a
    single commit that touches no file.  The diff tool fails on the
    histogram diff of [b2] and succeeds otherwise. *)
Module Demo.

Definition spec : RepoSpec :=
  {| url := "https://example.org/demo.git"; name := "demo"; path := "repos/demo" |}.

Definition empty_spec : RepoSpec :=
  {| url := "https://example.org/empty.git"; name := "empty"; path := "repos/empty" |}.

Definition no_paths : ModifiedFile := {| old_path := None; new_path := None |}.

Definition root : Commit :=
  {| hash := "a1"; parents := []; msg := "first";
     modified_files :=
       [ {| old_path := None; new_path := Some "a.py" |};
         {| old_path := None; new_path := Some "tests/check_a.py" |};
         {| old_path := None; new_path := Some "README.md" |} ] |}.

Definition child : Commit :=
  {| hash := "b2"; parents := ["a1"]; msg := "second";
     modified_files :=
       [ {| old_path := Some "a.py"; new_path := Some "b.py" |}; no_paths ] |}.

Definition empty_commit : Commit :=
  {| hash := "e0"; parents := []; msg := "nothing yet"; modified_files := [] |}.

Definition checkout (p : string) : list Commit :=
  if String.eqb p "repos/empty" then [empty_commit] else [root; child].

Definition tool (cmd : list string) (cwd : option string) : CompletedProcess :=
  if PyStr.mem "--diff-algorithm=histogram" cmd && PyStr.mem "b2" cmd
  then {| returncode := 128; stdout := ""; stderr := "fatal: bad object" |}
  else {| returncode := 0; stdout := "diff --git"; stderr := "" |}.

Definition set_order (a b : string) : bool := String.ltb a b.

(** The records of the whole history of [repos/demo], as a frame. *)
Definition frame : DataFrame :=
  of_rows (rows_of (analyze_commits tool set_order spec 0 0 (checkout "repos/demo") [])).

End Demo.

(** ** Measures for the statements about the aggregation and the paths *)

(** The sum of a list of integers, and of the cells of a summary table. *)
Definition zsum (l : list Z) : Z := fold_right Z.add 0%Z l.

Definition table_total (t : Stats) : Z := zsum (map zsum (stats_cells t)).

(** The text of a cell value. *)
Definition value_text (v : pyval) : string :=
  match v with
  | VStr s => s
  | VNone => ""
  end.

(** The summary table of a list of records, as [summarize] builds it. *)
Definition table_of (rows : list Row) : Stats :=
  let ks := keys_of "file_type" "Discrepancy" rows in
  let idx := sorted_unique (map fst ks) in
  let cols := sorted_unique (map snd ks) in
  {| stats_index := idx;
     stats_columns := cols;
     stats_cells := map (fun c => map (fun v => count_key (c, v) ks) cols) idx |}.

(** The whole dataset of a run: the records of the repositories, in the
    order the repositories are given. *)
Definition run_dataset
           (subprocess_run : list string -> option string -> CompletedProcess)
           (checkout : string -> list Commit)
           (set_order : string -> string -> bool)
           (specs : list RepoSpec) (max_commits : Z) (include_merges : bool)
  : list Row :=
  flat_map (fun spec => run_rows subprocess_run checkout set_order
                          spec max_commits include_merges) specs.

(** The datasets among the events of a run: the file, the header and
    the lines of each [WriteDataset], in order. *)
Definition dataset_writes (evs : list Event)
  : list (string * list string * list (list string)) :=
  flat_map (fun e => match e with
                     | WriteDataset file header body => [(file, header, body)]
                     | _ => []
                     end) evs.

(** A proper path component: no slash, not empty, not a dot. *)
Definition proper (seg : string) : Prop :=
  has_char "/"%char seg = false /\ seg <> "" /\ seg <> ".".

(** A sample world for [ensure_cloned]: the paths that exist.  A clone
    succeeds and creates the checkout and its [.git]; the other commands
    succeed and change nothing. *)
Module DemoWorld.

Definition World : Type := list string.

Definition path_exists (w : World) (p : string) : bool := PyStr.mem p w.

Definition is_clone (cmd : list string) : bool :=
  match cmd with
  | _ :: sub :: _ => String.eqb sub "clone"
  | _ => false
  end.

Definition done : CompletedProcess := {| returncode := 0; stdout := ""; stderr := "" |}.

Definition exec (w : World) (cmd : list string) (cwd : option string)
  : CompletedProcess * World :=
  if is_clone cmd
  then (done, nth 6 cmd "" :: PathLib.joinpath (nth 6 cmd "") ".git" :: w)
  else (done, w).

Definition mkdir (w : World) (dir : string) : World := dir :: w.

End DemoWorld.

(** ** A sample history with a merge

    The checkout at [repos/merged]: a root commit [r0], two commits [f1]
    and [d2] on top of it, and a commit [m3] that merges them and changes
    a file.  The messages of [r0], [f1] and [m3] have line feeds, that of
    [r0] begins with blanks.  Every other path is a checkout of [Demo]. *)
Module DemoMerge.

Definition spec : RepoSpec :=
  {| url := "https://example.org/merged.git"; name := "merged"; path := "repos/merged" |}.

Definition nl : string := String "010"%char "".

Definition root : Commit :=
  {| hash := "r0"; parents := [];
     msg := String.append "  initial import" nl;
     modified_files := [ {| old_path := None; new_path := Some "a.py" |} ] |}.

Definition fix_ : Commit :=
  {| hash := "f1"; parents := ["r0"];
     msg := String.append "fix parser"
              (String.append nl (String.append nl (String.append "handles tabs" nl)));
     modified_files := [ {| old_path := Some "a.py"; new_path := Some "a.py" |} ] |}.

Definition docs : Commit :=
  {| hash := "d2"; parents := ["r0"]; msg := "docs";
     modified_files := [ {| old_path := None; new_path := Some "README.md" |} ] |}.

Definition merge : Commit :=
  {| hash := "m3"; parents := ["f1"; "d2"];
     msg := String.append "Merge branch docs" nl;
     modified_files := [ {| old_path := Some "README.md"; new_path := Some "README.md" |} ] |}.

Definition checkout (p : string) : list Commit :=
  if String.eqb p "repos/merged" then [root; fix_; docs; merge] else Demo.checkout p.

End DemoMerge.

(** * Properties *)

(** ** Lower-casing commutes with the path operations *)

Lemma lower_ascii_idem (c : ascii) :
  PyStr.lower_ascii (PyStr.lower_ascii c) = PyStr.lower_ascii c.
Proof. destruct c as [[] [] [] [] [] [] [] []]; reflexivity. Qed.

Lemma lower_ascii_eqb_slash (c : ascii) :
  Ascii.eqb (PyStr.lower_ascii c) "/"%char = Ascii.eqb c "/"%char.
Proof. destruct c as [[] [] [] [] [] [] [] []]; reflexivity. Qed.

Lemma lower_ascii_eqb_dot (c : ascii) :
  Ascii.eqb (PyStr.lower_ascii c) "."%char = Ascii.eqb c "."%char.
Proof. destruct c as [[] [] [] [] [] [] [] []]; reflexivity. Qed.

Lemma lower_idem (s : string) : PyStr.lower (PyStr.lower s) = PyStr.lower s.
Proof.
  induction s as [|c s IH]; simpl; [reflexivity|].
  now rewrite lower_ascii_idem, IH.
Qed.

Lemma lower_length (s : string) : String.length (PyStr.lower s) = String.length s.
Proof. induction s as [|c s IH]; simpl; congruence. Qed.

Lemma lower_truthy (s : string) : PyStr.truthy (PyStr.lower s) = PyStr.truthy s.
Proof. destruct s; reflexivity. Qed.

Lemma lower_eqb_empty (s : string) : String.eqb (PyStr.lower s) "" = String.eqb s "".
Proof. destruct s; reflexivity. Qed.

Lemma lower_eqb_dot (s : string) : String.eqb (PyStr.lower s) "." = String.eqb s ".".
Proof.
  destruct s as [|c s]; [reflexivity|].
  simpl. rewrite lower_ascii_eqb_dot.
  destruct (Ascii.eqb c "."%char); [|reflexivity].
  destruct s; reflexivity.
Qed.

Lemma split_nonempty (sep : ascii) (s : string) : PyStr.split sep s <> [].
Proof.
  induction s as [|c s IH]; simpl; [discriminate|].
  destruct (Ascii.eqb c sep); [discriminate|].
  destruct (PyStr.split sep s); discriminate.
Qed.

Lemma split_lower (s : string) :
  PyStr.split "/"%char (PyStr.lower s) = map PyStr.lower (PyStr.split "/"%char s).
Proof.
  induction s as [|c s IH]; simpl; [reflexivity|].
  rewrite lower_ascii_eqb_slash, IH.
  destruct (Ascii.eqb c "/"%char); [reflexivity|].
  destruct (PyStr.split "/"%char s); reflexivity.
Qed.

Lemma filter_map_commute {A B} (f : A -> B) (p : A -> bool) (q : B -> bool) (l : list A) :
  (forall x, q (f x) = p x) ->
  filter q (map f l) = map f (filter p l).
Proof.
  intros H. induction l as [|x l IH]; simpl; [reflexivity|].
  rewrite H. destruct (p x); simpl; now rewrite IH.
Qed.

Lemma last_map {A B} (f : A -> B) (l : list A) (d : A) :
  last (map f l) (f d) = f (last l d).
Proof.
  induction l as [|x l IH]; simpl; [reflexivity|].
  destruct l; simpl in *; [reflexivity|exact IH].
Qed.

Lemma parts_lower (p : string) :
  PathLib.parts (PyStr.lower p) = map PyStr.lower (PathLib.parts p).
Proof.
  unfold PathLib.parts. rewrite split_lower.
  apply filter_map_commute. intros x.
  now rewrite lower_eqb_empty, lower_eqb_dot.
Qed.

Lemma name_lower (p : string) :
  PathLib.name (PyStr.lower p) = PyStr.lower (PathLib.name p).
Proof.
  unfold PathLib.name. rewrite parts_lower.
  exact (last_map PyStr.lower (PathLib.parts p) "").
Qed.

Lemma rfind_lower (s : string) :
  PyStr.rfind "."%char (PyStr.lower s) = PyStr.rfind "."%char s.
Proof.
  induction s as [|c s IH]; simpl; [reflexivity|].
  now rewrite IH, lower_ascii_eqb_dot.
Qed.

Lemma drop_lower (i : nat) (s : string) :
  PyStr.drop i (PyStr.lower s) = PyStr.lower (PyStr.drop i s).
Proof.
  revert s. induction i as [|i IH]; intros s; [reflexivity|].
  destruct s; simpl; [reflexivity|apply IH].
Qed.

Lemma suffix_lower (p : string) :
  PathLib.suffix (PyStr.lower p) = PyStr.lower (PathLib.suffix p).
Proof.
  unfold PathLib.suffix. rewrite name_lower, rfind_lower, lower_length.
  destruct (PyStr.rfind "."%char (PathLib.name p)) as [i|]; [|reflexivity].
  destruct ((0 <? i)%nat && (i <? String.length (PathLib.name p) - 1)%nat);
    [apply drop_lower|reflexivity].
Qed.

Lemma is_readme_lower (p : string) :
  is_readme (Some (PyStr.lower p)) = is_readme (Some p).
Proof. unfold is_readme. now rewrite lower_truthy, name_lower, lower_idem. Qed.

Lemma is_license_lower (p : string) :
  is_license (Some (PyStr.lower p)) = is_license (Some p).
Proof. unfold is_license. now rewrite lower_truthy, name_lower, lower_idem. Qed.

Lemma is_test_file_lower (p : string) :
  is_test_file (Some (PyStr.lower p)) = is_test_file (Some p).
Proof. unfold is_test_file. now rewrite lower_truthy, lower_idem. Qed.

Lemma is_source_code_lower (p : string) :
  is_source_code (Some (PyStr.lower p)) = is_source_code (Some p).
Proof. unfold is_source_code. now rewrite lower_truthy, suffix_lower, lower_idem. Qed.

Lemma classify_file_first_match (old_path new_path : option string) :
  classify_file old_path new_path = first_match (PyStr.or_opt new_path old_path).
Proof.
  unfold classify_file, first_match.
  rewrite is_readme_lower, is_license_lower, is_test_file_lower, is_source_code_lower.
  destruct (PyStr.or_opt new_path old_path) as [[|c s]|]; reflexivity.
Qed.

(** ** Base names *)

Lemma split_app_sep (sep : ascii) (a b : string) :
  PyStr.split sep (a ++ String sep b) = (PyStr.split sep a ++ PyStr.split sep b)%list.
Proof.
  induction a as [|c a IH]; simpl.
  - now rewrite Ascii.eqb_refl.
  - rewrite IH. destruct (Ascii.eqb c sep); [reflexivity|].
    destruct (PyStr.split sep a) as [|seg segs] eqn:E; [|reflexivity].
    now apply split_nonempty in E.
Qed.

Lemma split_no_sep (sep : ascii) (s : string) :
  has_char sep s = false -> PyStr.split sep s = [s].
Proof.
  induction s as [|c s IH]; simpl; [reflexivity|].
  destruct (Ascii.eqb c sep); simpl; [intros H; discriminate H|].
  intros H. now rewrite (IH H).
Qed.

Lemma startswith_nonempty (w s : string) :
  w <> "" -> PyStr.startswith w s = true -> s <> "".
Proof. destruct w, s; simpl; congruence. Qed.

(** The base name of [dir/base] is [base], provided [base] is a proper
    component. *)
Lemma name_of_join (dir base : string) :
  has_char "/"%char base = false -> base <> "" -> base <> "." ->
  PathLib.name (dir ++ String "/"%char base) = base.
Proof.
  intros Hs He Hd. unfold PathLib.name, PathLib.parts.
  rewrite split_app_sep, filter_app, (split_no_sep _ _ Hs). simpl.
  apply String.eqb_neq in He, Hd. rewrite He, Hd. simpl.
  apply last_last.
Qed.

Lemma name_of_base (base : string) :
  has_char "/"%char base = false -> base <> "" -> base <> "." ->
  PathLib.name base = base.
Proof.
  intros Hs He Hd. unfold PathLib.name, PathLib.parts.
  rewrite (split_no_sep _ _ Hs). simpl.
  apply String.eqb_neq in He, Hd. now rewrite He, Hd.
Qed.

Lemma first_match_category (p : option string) :
  In (first_match p) ["source"; "test"; "readme"; "license"; "other"].
Proof.
  unfold first_match.
  destruct (is_readme p); [simpl; tauto|].
  destruct (is_license p); [simpl; tauto|].
  destruct (is_test_file p); [simpl; tauto|].
  destruct (is_source_code p); simpl; tauto.
Qed.

Lemma startswith_readme_not_license (s : string) :
  PyStr.startswith "license" s || PyStr.startswith "licence" s = true ->
  PyStr.startswith "readme" s = false.
Proof.
  destruct s as [|c s]; [discriminate|].
  destruct c as [[] [] [] [] [] [] [] []]; intros H;
    try reflexivity; simpl in H; discriminate H.
Qed.

(** C2.  [classify_file] is total and returns one of the five category
    names; it is the first match, in the order readme, license, test,
    source, other, on the new path when that is a non-empty string and on
    the old path otherwise; a base name starting with "readme" gives
    "readme" whatever directories lead to it (a "tests" directory
    included), and a base name starting with "license" or "licence" gives
    "license". *)
Theorem classify_file_total_precedence :
  forall old_path new_path : option string,
    In (classify_file old_path new_path)
       ["source"; "test"; "readme"; "license"; "other"]
    /\ classify_file old_path new_path
       = first_match (if PyStr.truthy_opt new_path then new_path else old_path)
    /\ (forall p,
          PyStr.or_opt new_path old_path = Some p -> p <> "" ->
          PyStr.startswith "readme" (PyStr.lower (PathLib.name p)) = true ->
          classify_file old_path new_path = "readme")
    /\ (forall p,
          PyStr.or_opt new_path old_path = Some p -> p <> "" ->
          PyStr.startswith "license" (PyStr.lower (PathLib.name p))
          || PyStr.startswith "licence" (PyStr.lower (PathLib.name p)) = true ->
          classify_file old_path new_path = "license")
    /\ (forall dir base : string,
          has_char "/"%char base = false ->
          PyStr.startswith "readme" (PyStr.lower base) = true ->
          classify_file old_path (Some (dir ++ String "/"%char base)%string) = "readme"
          /\ classify_file old_path (Some base) = "readme").
Proof.
  intros old_path new_path.
  rewrite classify_file_first_match.
  split; [apply first_match_category|].
  split; [reflexivity|].
  split; [|split].
  - intros p -> Hne Hr. unfold first_match, is_readme.
    destruct p; [congruence|]. simpl PyStr.truthy. now rewrite Hr.
  - intros p -> Hne Hl. unfold first_match, is_readme, is_license.
    destruct p; [congruence|]. simpl PyStr.truthy.
    now rewrite (startswith_readme_not_license _ Hl), Hl.
  - intros dir base Hs Hr.
    assert (Hb : PyStr.lower base <> "")
      by (apply (startswith_nonempty "readme"); [discriminate|exact Hr]).
    assert (He : base <> "") by (intros ->; now apply Hb).
    assert (Hd : base <> ".") by (intros ->; discriminate Hr).
    rewrite !classify_file_first_match.
    unfold PyStr.or_opt, PyStr.truthy_opt.
    split.
    + assert (Ht : PyStr.truthy (dir ++ String "/"%char base)%string = true)
        by (destruct dir; reflexivity).
      rewrite Ht. unfold first_match, is_readme.
      now rewrite Ht, (name_of_join dir base Hs He Hd), Hr.
    + assert (Ht : PyStr.truthy base = true) by (destruct base; [congruence|reflexivity]).
      rewrite Ht. unfold first_match, is_readme.
      now rewrite Ht, (name_of_base base Hs He Hd), Hr.
Qed.

(** ** The monad *)

Lemma bind_ret_l {A B} (a : A) (f : A -> Py B) : bind (ret a) f = f a.
Proof. unfold bind, ret. destruct (f a) as [ev r]. reflexivity. Qed.

Lemma bind_value {A B} (m : Py A) (f : A -> Py B) (ev : list Event) (a : A) :
  m = (ev, inr a) ->
  bind m f = ((ev ++ events (f a))%list, outcome (f a)).
Proof. intros ->. unfold bind, events, outcome. now destruct (f a). Qed.

(** ** The diff invoker and the walker *)

Section PipelineFacts.

Variable subprocess_run : list string -> option string -> CompletedProcess.
Variable checkout : string -> list Commit.
Variable set_order : string -> string -> bool.

Local Abbreviation git_diff_single' := (git_diff_single subprocess_run).
Local Abbreviation analyze_file' := (analyze_file subprocess_run set_order).
Local Abbreviation analyze_files' := (analyze_files subprocess_run set_order).
Local Abbreviation analyze_commits' := (analyze_commits subprocess_run set_order).
Local Abbreviation analyze_repo' := (analyze_repo subprocess_run checkout set_order).
Local Abbreviation file_rows' := (file_rows subprocess_run set_order).
Local Abbreviation file_events' := (file_events subprocess_run set_order).
Local Abbreviation paths_of' := (paths_of set_order).
Local Abbreviation commit_rows' := (commit_rows subprocess_run set_order).
Local Abbreviation commit_events' := (commit_events subprocess_run set_order).

Lemma git_diff_single_eq repo_dir parent_sha commit_sha paths algorithm :
  git_diff_single' repo_dir parent_sha commit_sha paths algorithm
  = ([Exec (diff_cmd parent_sha commit_sha paths algorithm) (Some repo_dir)],
     inr (diff_text subprocess_run repo_dir parent_sha commit_sha paths algorithm)).
Proof. reflexivity. Qed.

Lemma analyze_file_acc spec commit parent_sha m rows :
  analyze_file' spec commit parent_sha m rows
  = (file_events' spec commit parent_sha m,
     inr (rows ++ file_rows' spec commit parent_sha m)%list).
Proof.
  unfold file_events, file_rows, rows_of, analyze_file.
  destruct (paths_of' m); simpl; [now rewrite app_nil_r|reflexivity].
Qed.

Lemma analyze_files_acc spec commit parent_sha ms rows :
  analyze_files' spec commit parent_sha ms rows
  = (flat_map (file_events' spec commit parent_sha) ms,
     inr (rows ++ flat_map (file_rows' spec commit parent_sha) ms)%list).
Proof.
  revert rows. induction ms as [|m ms IH]; intros rows; simpl.
  - now rewrite app_nil_r.
  - rewrite (bind_value _ _ _ _ (analyze_file_acc spec commit parent_sha m rows)).
    rewrite IH. unfold events, outcome. simpl. now rewrite app_assoc.
Qed.

Lemma analyze_commits_acc spec max_commits seen commits rows :
  analyze_commits' spec max_commits seen commits rows
  = (flat_map (commit_events' spec) (processed max_commits seen commits),
     inr (rows ++ flat_map (commit_rows' spec) (processed max_commits seen commits))%list).
Proof.
  revert seen rows. induction commits as [|c cs IH]; intros seen rows; simpl.
  - now rewrite app_nil_r.
  - destruct (negb (max_commits =? 0)%Z && (seen >=? max_commits)%Z); simpl.
    + now rewrite app_nil_r.
    + rewrite (bind_value _ _ _ _
                 (analyze_files_acc spec c (parent_sha_of c) (modified_files c) rows)).
      rewrite IH. unfold events, outcome, commit_events, commit_rows. simpl.
      now rewrite app_assoc.
Qed.

(** The cut-off keeps a prefix of the commits. *)
Lemma processed_firstn max_commits seen commits :
  processed max_commits seen commits
  = if (max_commits =? 0)%Z then commits
    else firstn (Z.to_nat (max_commits - seen)) commits.
Proof.
  revert seen. induction commits as [|c cs IH]; intros seen; simpl.
  - destruct (max_commits =? 0)%Z; [reflexivity|now rewrite firstn_nil].
  - rewrite IH. destruct (Z.eqb_spec max_commits 0) as [->|Hne]; simpl; [reflexivity|].
    destruct (Z.geb_spec seen max_commits) as [Hge|Hlt].
    + replace (Z.to_nat (max_commits - seen)) with 0%nat by lia. reflexivity.
    + replace (Z.to_nat (max_commits - seen))
        with (S (Z.to_nat (max_commits - (seen + 1)))) by lia.
      reflexivity.
Qed.

Lemma processed_idem max_commits commits :
  processed 0 0 (processed max_commits 0 commits) = processed max_commits 0 commits.
Proof. now rewrite (processed_firstn 0). Qed.

Lemma processed_incl max_commits seen commits c :
  In c (processed max_commits seen commits) -> In c commits.
Proof. clear checkout.
  rewrite processed_firstn. destruct (max_commits =? 0)%Z; [tauto|].
  revert commits. induction (Z.to_nat (max_commits - seen)) as [|n IH];
    intros [|c' cs]; simpl; try tauto.
  intros [->|H]; [now left|right; now apply IH].
Qed.

(** The run with a cut-off is the run without one over the commits the
    cut-off keeps. *)
Lemma analyze_repo_walked spec max_commits include_merges :
  analyze_repo' spec max_commits include_merges
  = (rows <- analyze_commits' spec 0 0
               (processed max_commits 0 (eligible_commits checkout spec include_merges)) [] ;;
     ret (of_rows rows)).
Proof.
  unfold analyze_repo, eligible_commits.
  now rewrite !analyze_commits_acc, processed_idem.
Qed.

Lemma filter_all {A} (l : list A) : filter (fun _ => true) l = l.
Proof. induction l as [|x l IH]; simpl; congruence. Qed.

Lemma filter_rev_commute {A} (f : A -> bool) (l : list A) :
  filter f (rev l) = rev (filter f l).
Proof.
  induction l as [|x l IH]; simpl; [reflexivity|].
  rewrite filter_app, IH. simpl. destruct (f x); simpl; [reflexivity|].
  now rewrite app_nil_r.
Qed.

Lemma eligible_commits_eq spec include_merges :
  eligible_commits checkout spec include_merges
  = rev (filter (fun c => include_merges || negb (is_merge c)) (checkout (path spec))).
Proof.
  unfold eligible_commits, traverse_commits, rev_list. simpl.
  destruct include_merges; simpl.
  - now rewrite filter_all.
  - apply filter_rev_commute.
Qed.

(** The fields of a record and the two commands behind it. *)
Lemma file_rows_fields spec commit parent_sha m row :
  In row (file_rows' spec commit parent_sha m) ->
  paths_of' m <> []
  /\ row_get "repo" row = Some (VStr (name spec))
  /\ row_get "old_file_path" row = Some (VStr (PyStr.or_str (old_path m) ""))
  /\ row_get "new_file_path" row = Some (VStr (PyStr.or_str (new_path m) ""))
  /\ row_get "commit_sha" row = Some (VStr (hash commit))
  /\ row_get "parent_commit_sha" row = Some (VStr parent_sha)
  /\ row_get "file_type" row = Some (VStr (classify_file (old_path m) (new_path m)))
  /\ row_get "diff_myers" row
     = Some (VStr (diff_text subprocess_run (path spec) parent_sha (hash commit)
                     (paths_of' m) "myers"))
  /\ row_get "diff_hist" row
     = Some (VStr (diff_text subprocess_run (path spec) parent_sha (hash commit)
                     (paths_of' m) "histogram"))
  /\ row_get "Discrepancy" row
     = Some (VStr (if String.eqb
                        (diff_text subprocess_run (path spec) parent_sha (hash commit)
                           (paths_of' m) "myers")
                        (diff_text subprocess_run (path spec) parent_sha (hash commit)
                           (paths_of' m) "histogram")
                   then "No" else "Yes")).
Proof. clear checkout.
  unfold file_rows, rows_of, analyze_file.
  destruct (paths_of' m) as [|p ps] eqn:E; simpl; [tauto|].
  intros [<-|[]]. split; [discriminate|]. repeat split.
Qed.

Lemma file_rows_present spec commit parent_sha m :
  paths_of' m <> [] ->
  exists row,
    file_rows' spec commit parent_sha m = [row]
    /\ file_events' spec commit parent_sha m
       = [ Exec (diff_cmd parent_sha (hash commit) (paths_of' m) "myers")
                (Some (path spec));
           Exec (diff_cmd parent_sha (hash commit) (paths_of' m) "histogram")
                (Some (path spec)) ].
Proof. clear checkout.
  unfold file_rows, file_events, rows_of, analyze_file.
  destruct (paths_of' m) as [|p ps] eqn:E; [congruence|]. intros _.
  eexists. split; reflexivity.
Qed.

Lemma file_events_shape spec commit parent_sha m e :
  In e (file_events' spec commit parent_sha m) ->
  exists algorithm,
    e = Exec (diff_cmd parent_sha (hash commit) (paths_of' m) algorithm)
             (Some (path spec)).
Proof. clear checkout.
  unfold file_events, analyze_file.
  destruct (paths_of' m) as [|p ps] eqn:E; simpl; [tauto|].
  intros [<-|[<-|[]]]; eexists; reflexivity.
Qed.

Lemma or_str_empty (o : option string) :
  PyStr.or_str o "" = match o with Some p => p | None => "" end.
Proof. clear checkout. destruct o as [[|c s]|]; reflexivity. Qed.

Lemma paths_of_absent m :
  old_path m = None -> new_path m = None -> paths_of' m = [].
Proof. clear checkout. unfold paths_of. now intros -> ->. Qed.

(** C3.  [git_diff_single] never raises: it returns the standard output
    of the tool when the exit code is 0 and its error text otherwise; the
    text of either kind is what the record stores and what the equality
    test behind "Discrepancy" compares. *)
Theorem git_diff_single_exit_status :
  forall repo_dir parent_sha commit_sha paths algorithm,
    let cp := subprocess_run (diff_cmd parent_sha commit_sha paths algorithm)
                             (Some repo_dir) in
    let result :=
      outcome (git_diff_single' repo_dir parent_sha commit_sha paths algorithm) in
    ((returncode cp = 0%Z /\ result = inr (stdout cp))
     \/ (returncode cp <> 0%Z /\ result = inr (stderr cp)))
    /\ (forall spec commit m rows diff_myers diff_hist,
          paths_of' m <> [] ->
          outcome (git_diff_single' (path spec) parent_sha (hash commit)
                     (paths_of' m) "myers") = inr diff_myers ->
          outcome (git_diff_single' (path spec) parent_sha (hash commit)
                     (paths_of' m) "histogram") = inr diff_hist ->
          exists row,
            outcome (analyze_file' spec commit parent_sha m rows)
            = inr (rows ++ [row])%list
            /\ row_get "diff_myers" row = Some (VStr diff_myers)
            /\ row_get "diff_hist" row = Some (VStr diff_hist)
            /\ row_get "Discrepancy" row
               = Some (VStr (if String.eqb diff_myers diff_hist then "No" else "Yes"))).
Proof.
  clear checkout.
  intros repo_dir parent_sha commit_sha paths algorithm cp result. split.
  - subst result. unfold git_diff_single, run, outcome. simpl. fold cp.
    destruct (Z.eqb_spec (returncode cp) 0) as [H|H]; [left|right]; now split.
  - intros spec commit m rows dm dh Hp Hm Hh.
    rewrite git_diff_single_eq in Hm, Hh. unfold outcome in Hm, Hh. simpl in Hm, Hh.
    injection Hm as <-. injection Hh as <-.
    destruct (file_rows_present spec commit parent_sha m Hp) as [row [Hr _]].
    exists row. rewrite analyze_file_acc, Hr. split; [reflexivity|].
    assert (Hin : In row (file_rows' spec commit parent_sha m))
      by (rewrite Hr; now left).
    apply file_rows_fields in Hin. tauto.
Qed.

(** C6.  Every record of a run, and every diff command the run issues,
    carries as parent reference the first parent of its commit, or the
    empty-tree identifier 4b825dc6... when the commit has no parent; both
    commands are issued for every change that has a path. *)
Theorem parent_reference_of_commit :
  forall spec max_commits commits,
    let result := analyze_commits' spec max_commits 0 commits [] in
    let parent_of := fun c : Commit =>
      match parents c with
      | [] => "4b825dc642cb6eb9a060e54bf8d69288fbee4904"
      | p :: _ => p
      end in
    (exists rows,
        outcome result = inr rows
        /\ forall row, In row rows ->
             exists c, In c commits
               /\ row_get "commit_sha" row = Some (VStr (hash c))
               /\ row_get "parent_commit_sha" row = Some (VStr (parent_of c)))
    /\ (forall e, In e (events result) ->
          exists c paths algorithm, In c commits
            /\ e = Exec (diff_cmd (parent_of c) (hash c) paths algorithm)
                        (Some (path spec)))
    /\ (forall c m,
          In c (processed max_commits 0 commits) -> In m (modified_files c) ->
          paths_of' m <> [] ->
          In (Exec (diff_cmd (parent_of c) (hash c) (paths_of' m) "myers")
                   (Some (path spec))) (events result)
          /\ In (Exec (diff_cmd (parent_of c) (hash c) (paths_of' m) "histogram")
                      (Some (path spec))) (events result)).
Proof.
  clear checkout.
  intros spec max_commits commits result parent_of. subst result.
  rewrite analyze_commits_acc. unfold outcome, events. simpl.
  split; [|split].
  - eexists. split; [reflexivity|]. intros row Hin.
    apply in_flat_map in Hin as [c [Hc Hin]].
    apply in_flat_map in Hin as [m [Hm Hin]].
    apply file_rows_fields in Hin.
    exists c. change (parent_of c) with (parent_sha_of c).
    split; [eapply processed_incl; eassumption|tauto].
  - intros e Hin.
    apply in_flat_map in Hin as [c [Hc Hin]].
    apply in_flat_map in Hin as [m [Hm Hin]].
    apply file_events_shape in Hin as [alg ->].
    exists c, (paths_of' m), alg.
    split; [eapply processed_incl; eassumption|reflexivity].
  - intros c m Hc Hm Hne.
    destruct (file_rows_present spec c (parent_sha_of c) m Hne) as [row [_ He]].
    change (parent_of c) with (parent_sha_of c).
    split; apply in_flat_map; exists c; (split; [exact Hc|]);
      apply in_flat_map; exists m; (split; [exact Hm|]);
      rewrite He; simpl; tauto.
Qed.

(** C7.  With [max_commits = k > 0] a run of [analyze_repo] issues the
    commands and returns the records of the first [k] commits of the
    walk and of no other: of at most [k] commits, and of exactly [k]
    when the walk has that many.  Each of these commits is processed:
    every change of it that has a path has its two diff commands among
    the commands of the run and its record among the records.  With
    [max_commits = 0] the commands and the records are those of every
    commit of the walk. *)
Theorem max_commits_bound :
  forall spec k include_merges,
    let eligible :=
      traverse_commits (checkout (path spec)) (Some "reverse") (negb include_merges) in
    let first_k := firstn (Z.to_nat k) eligible in
    ((0 < k)%Z ->
       analyze_repo' spec k include_merges
       = (flat_map (commit_events' spec) first_k,
          inr (of_rows (flat_map (commit_rows' spec) first_k)))
       /\ (length first_k <= Z.to_nat k)%nat
       /\ ((Z.to_nat k <= length eligible)%nat -> length first_k = Z.to_nat k)
       /\ (forall c m,
             In c first_k -> In m (modified_files c) -> paths_of' m <> [] ->
             In (Exec (diff_cmd (parent_sha_of c) (hash c) (paths_of' m) "myers")
                      (Some (path spec)))
                (events (analyze_repo' spec k include_merges))
             /\ In (Exec (diff_cmd (parent_sha_of c) (hash c) (paths_of' m) "histogram")
                         (Some (path spec)))
                   (events (analyze_repo' spec k include_merges))
             /\ exists row df,
                  outcome (analyze_repo' spec k include_merges) = inr df
                  /\ In row (records df)
                  /\ row_get "commit_sha" row = Some (VStr (hash c))))
    /\ analyze_repo' spec 0 include_merges
       = (flat_map (commit_events' spec) eligible,
          inr (of_rows (flat_map (commit_rows' spec) eligible))).
Proof.
  intros spec k include_merges eligible first_k.
  assert (Hrun : forall n,
             analyze_repo' spec n include_merges
             = (flat_map (commit_events' spec) (processed n 0 eligible),
                inr (of_rows (flat_map (commit_rows' spec) (processed n 0 eligible))))).
  { intros n. unfold analyze_repo. fold eligible.
    rewrite analyze_commits_acc. unfold bind, ret. simpl.
    now rewrite app_nil_r. }
  split.
  - intros Hk.
    assert (Hfirst : processed k 0 eligible = first_k).
    { rewrite processed_firstn.
      destruct (Z.eqb_spec k 0) as [->|_]; [lia|]. now rewrite Z.sub_0_r. }
    rewrite Hrun, Hfirst. split; [reflexivity|].
    split; [subst first_k; rewrite length_firstn; lia|].
    split; [intros Hlen; subst first_k; rewrite length_firstn; lia|].
    intros c m Hc Hm Hne. unfold events, outcome. simpl.
    destruct (file_rows_present spec c (parent_sha_of c) m Hne) as [row [Hr He]].
    split; [|split].
    + apply in_flat_map. exists c. split; [exact Hc|].
      apply in_flat_map. exists m. split; [exact Hm|].
      rewrite He. simpl. tauto.
    + apply in_flat_map. exists c. split; [exact Hc|].
      apply in_flat_map. exists m. split; [exact Hm|].
      rewrite He. simpl. tauto.
    + assert (Hin : In row (file_rows' spec c (parent_sha_of c) m))
        by (rewrite Hr; now left).
      exists row. eexists. split; [reflexivity|]. split.
      * apply in_flat_map. exists c. split; [exact Hc|].
        apply in_flat_map. exists m. split; [exact Hm|exact Hin].
      * apply file_rows_fields in Hin. tauto.
  - rewrite Hrun, processed_firstn. reflexivity.
Qed.

(** C5, as the code has it.  The walk takes the commits newest first:
    the commits that pass the merge policy in reverse of the history, cut
    after [max_commits] of them when [max_commits] is not 0, so that a
    cut-off keeps the most recent commits. *)
Theorem walk_is_newest_first :
  forall spec max_commits include_merges,
    let newest_first :=
      rev (filter (fun c => include_merges || negb (is_merge c))
                  (checkout (path spec))) in
    let walked :=
      processed max_commits 0 (eligible_commits checkout spec include_merges) in
    walked = (if (max_commits =? 0)%Z then newest_first
              else firstn (Z.to_nat max_commits) newest_first)
    /\ analyze_repo' spec max_commits include_merges
       = (rows <- analyze_commits' spec 0 0 walked [] ;; ret (of_rows rows)).
Proof.
  intros spec max_commits include_merges newest_first walked.
  split; [|apply analyze_repo_walked].
  subst walked newest_first.
  now rewrite processed_firstn, eligible_commits_eq, Z.sub_0_r.
Qed.

(** C9.  A file change with neither path adds no record and runs no
    command, raises nothing, and leaves the other changes of the commit
    processed as they are without it. *)
Theorem absent_paths_contribute_nothing :
  forall spec commit parent_sha m ms1 ms2 rows,
    old_path m = None -> new_path m = None ->
    analyze_file' spec commit parent_sha m rows = ([], inr rows)
    /\ analyze_files' spec commit parent_sha (ms1 ++ m :: ms2) rows
       = analyze_files' spec commit parent_sha (ms1 ++ ms2) rows
    /\ exists rows',
         outcome (analyze_files' spec commit parent_sha (ms1 ++ m :: ms2) rows)
         = inr rows'.
Proof.
  intros spec commit parent_sha m ms1 ms2 rows Ho Hn.
  pose proof (paths_of_absent m Ho Hn) as Hp.
  assert (Hf : analyze_file' spec commit parent_sha m rows = ([], inr rows))
    by (unfold analyze_file; now rewrite Hp).
  split; [exact Hf|].
  assert (Hr : file_rows' spec commit parent_sha m = [])
    by (unfold file_rows, analyze_file; now rewrite Hp).
  assert (He : file_events' spec commit parent_sha m = [])
    by (unfold file_events, analyze_file; now rewrite Hp).
  rewrite !analyze_files_acc, !flat_map_app. simpl. rewrite Hr, He. simpl.
  split; [reflexivity|]. eexists. reflexivity.
Qed.

(** C10.  In every record of a run the two path fields hold strings: the
    path when the change has it, the empty string when it is absent; the
    category comes from the optional paths as the change has them. *)
Theorem record_paths_are_strings :
  forall spec max_commits commits,
    exists rows,
      outcome (analyze_commits' spec max_commits 0 commits []) = inr rows
      /\ (forall row, In row rows ->
            exists c m, In c commits /\ In m (modified_files c)
              /\ row_get "old_file_path" row
                 = Some (VStr (match old_path m with Some p => p | None => "" end))
              /\ row_get "new_file_path" row
                 = Some (VStr (match new_path m with Some p => p | None => "" end))
              /\ row_get "file_type" row
                 = Some (VStr (classify_file (old_path m) (new_path m))))
      /\ (forall c m,
            In c (processed max_commits 0 commits) -> In m (modified_files c) ->
            paths_of' m <> [] ->
            exists row, In row rows
              /\ row_get "old_file_path" row
                 = Some (VStr (match old_path m with Some p => p | None => "" end))
              /\ row_get "new_file_path" row
                 = Some (VStr (match new_path m with Some p => p | None => "" end))).
Proof.
  clear checkout.
  intros spec max_commits commits.
  rewrite analyze_commits_acc. unfold outcome. simpl.
  eexists. split; [reflexivity|]. split.
  - intros row Hin.
    apply in_flat_map in Hin as [c [Hc Hin]].
    apply in_flat_map in Hin as [m [Hm Hin]].
    apply file_rows_fields in Hin.
    exists c, m. rewrite <- !or_str_empty.
    split; [eapply processed_incl; eassumption|tauto].
  - intros c m Hc Hm Hne.
    destruct (file_rows_present spec c (parent_sha_of c) m Hne) as [row [Hr _]].
    assert (Hin : In row (file_rows' spec c (parent_sha_of c) m))
      by (rewrite Hr; now left).
    exists row. split.
    + apply in_flat_map. exists c. split; [exact Hc|].
      apply in_flat_map. exists m. now split.
    + apply file_rows_fields in Hin. rewrite <- !or_str_empty. tauto.
Qed.

End PipelineFacts.

(** ** Sorted labels *)

Lemma ltb_lt (x y : string) : String.ltb x y = true <-> String_as_OT.lt x y.
Proof.
  rewrite <- String_as_OT.cmp_lt. unfold String.ltb, String_as_OT.cmp.
  destruct (String.compare x y); split; congruence.
Qed.

Lemma label_lt_trans (x y z : string) : label_lt x y -> label_lt y z -> label_lt x z.
Proof.
  unfold label_lt. rewrite !ltb_lt. apply String_as_OT.lt_trans.
Qed.

Lemma label_lt_irrefl (x : string) : ~ label_lt x x.
Proof.
  unfold label_lt. rewrite ltb_lt. intros H.
  apply String_as_OT.lt_not_eq in H. now apply H.
Qed.

Lemma label_lt_connex (x y : string) :
  String.eqb x y = false -> String.ltb x y = false -> label_lt y x.
Proof.
  unfold label_lt, String.ltb. intros Hne Hlt.
  rewrite String.compare_antisym.
  destruct (String.compare x y) eqn:E; simpl; try reflexivity; try discriminate.
  apply String.compare_eq_iff in E. apply String.eqb_neq in Hne. contradiction.
Qed.

Lemma insert_sorted_In (x y : string) (l : list string) :
  In y (insert_sorted x l) <-> y = x \/ In y l.
Proof.
  induction l as [|z l IH]; simpl.
  - intuition.
  - destruct (String.eqb_spec x z) as [->|Hne].
    + simpl. intuition.
    + destruct (String.ltb x z); simpl; [intuition|].
      rewrite IH. intuition.
Qed.

Lemma insert_sorted_sorted (x : string) (l : list string) :
  StronglySorted label_lt l -> StronglySorted label_lt (insert_sorted x l).
Proof.
  induction 1 as [|z l Hs IH Hall]; simpl.
  - constructor; constructor.
  - destruct (String.eqb x z) eqn:Heq; [now constructor|].
    destruct (String.ltb x z) eqn:Hlt.
    + constructor; [now constructor|].
      constructor; [exact Hlt|].
      eapply Forall_impl; [|exact Hall].
      intros a Ha. eapply label_lt_trans; [exact Hlt|exact Ha].
    + constructor; [exact IH|].
      apply Forall_forall. intros a Ha.
      apply insert_sorted_In in Ha as [->|Ha].
      * now apply label_lt_connex.
      * rewrite Forall_forall in Hall. now apply Hall.
Qed.

Lemma sorted_unique_In (y : string) (l : list string) :
  In y (sorted_unique l) <-> In y l.
Proof.
  induction l as [|x l IH]; simpl; [tauto|].
  rewrite insert_sorted_In, IH. intuition.
Qed.

Lemma sorted_unique_sorted (l : list string) :
  StronglySorted label_lt (sorted_unique l).
Proof.
  induction l as [|x l IH]; simpl; [constructor|].
  now apply insert_sorted_sorted.
Qed.

Lemma sorted_NoDup (l : list string) : StronglySorted label_lt l -> NoDup l.
Proof.
  induction 1 as [|x l Hs IH Hall]; constructor; [|exact IH].
  intros Hin. rewrite Forall_forall in Hall.
  exact (label_lt_irrefl x (Hall x Hin)).
Qed.

(** Two sorted lists of distinct labels with the same members are the same
    list. *)
Lemma sorted_ext (l1 l2 : list string) :
  StronglySorted label_lt l1 -> StronglySorted label_lt l2 ->
  (forall x, In x l1 <-> In x l2) -> l1 = l2.
Proof.
  intros H1. revert l2.
  induction H1 as [|x l1 Hs1 IH Hall1]; intros l2 H2 Hiff.
  - destruct l2 as [|y l2]; [reflexivity|].
    exfalso. apply (Hiff y). now left.
  - destruct H2 as [|y l2 Hs2 Hall2].
    + exfalso. apply (Hiff x). now left.
    + rewrite Forall_forall in Hall1, Hall2.
      assert (Hxy : x = y).
      { destruct (proj1 (Hiff x) (or_introl eq_refl)) as [Hx|Hx]; [now symmetry|].
        destruct (proj2 (Hiff y) (or_introl eq_refl)) as [Hy|Hy]; [exact Hy|].
        exfalso. apply (label_lt_irrefl x).
        eapply label_lt_trans; [apply Hall1; exact Hy|apply Hall2; exact Hx]. }
      subst y. f_equal. apply IH; [exact Hs2|].
      intros z. split; intros Hz.
      * destruct (proj1 (Hiff z) (or_intror Hz)) as [<-|Hz']; [|exact Hz'].
        exfalso. exact (label_lt_irrefl x (Hall1 x Hz)).
      * destruct (proj2 (Hiff z) (or_intror Hz)) as [<-|Hz']; [|exact Hz'].
        exfalso. exact (label_lt_irrefl x (Hall2 x Hz)).
Qed.

Lemma sorted_unique_ext (l1 l2 : list string) :
  (forall x, In x l1 <-> In x l2) -> sorted_unique l1 = sorted_unique l2.
Proof.
  intros H. apply sorted_ext; try apply sorted_unique_sorted.
  intros x. now rewrite !sorted_unique_In.
Qed.

(** ** The summary table *)

Lemma pair_eqb_spec (x y : string * string) : reflect (x = y) (pair_eqb x y).
Proof.
  destruct x as [a b], y as [c d]. unfold pair_eqb. simpl.
  destruct (String.eqb_spec a c) as [->|H], (String.eqb_spec b d) as [->|H'];
    constructor; congruence.
Qed.

Lemma existsb_pair_In (k : string * string) (ks : list (string * string)) :
  existsb (pair_eqb k) ks = true <-> In k ks.
Proof.
  rewrite existsb_exists. split.
  - intros [y [Hy He]]. now destruct (pair_eqb_spec k y) as [->|].
  - intros H. exists k. split; [exact H|]. now destruct (pair_eqb_spec k k).
Qed.

Lemma count_key_absent (k : string * string) (ks : list (string * string)) :
  ~ In k ks -> count_key k ks = 0%Z.
Proof.
  intros H. unfold count_key.
  replace (filter (pair_eqb k) ks) with (@nil (string * string)); [reflexivity|].
  symmetry. induction ks as [|y ks IH]; simpl; [reflexivity|].
  destruct (pair_eqb_spec k y) as [->|_].
  - exfalso. apply H. now left.
  - apply IH. intros Hin. apply H. now right.
Qed.

Lemma In_keys_of (k1 k2 : string) (rs : list Row) (k : string * string) :
  In k (keys_of k1 k2 rs) <-> exists r, In r rs /\ group_key k1 k2 r = Some k.
Proof.
  induction rs as [|r rs IH]; simpl.
  - split; [tauto|]. now intros [r [[] _]].
  - destruct (group_key k1 k2 r) as [k'|] eqn:E; simpl; rewrite IH; split.
    + intros [<-|[r' [Hr Hk]]]; [exists r; tauto|exists r'; tauto].
    + intros [r' [[<-|Hr] Hk]]; [left; congruence|right; exists r'; tauto].
    + intros [r' [Hr Hk]]. exists r'; tauto.
    + intros [r' [[<-|Hr] Hk]]; [congruence|exists r'; tauto].
Qed.

(** The entries of the grouped counts: one per pair that occurs. *)
Lemma In_group_entries (ks : list (string * string)) (a b : string) (n : Z) :
  In (a, b, n)
     (flat_map
        (fun a =>
           flat_map
             (fun b =>
                if existsb (pair_eqb (a, b)) ks
                then [(a, b, count_key (a, b) ks)] else [])
             (sorted_unique (map snd ks)))
        (sorted_unique (map fst ks)))
  <-> In (a, b) ks /\ n = count_key (a, b) ks.
Proof.
  rewrite in_flat_map. split.
  - intros [a' [Ha Hin]]. apply in_flat_map in Hin as [b' [Hb Hin]].
    destruct (existsb (pair_eqb (a', b')) ks) eqn:E; [|contradiction].
    destruct Hin as [Heq|[]]. injection Heq as -> -> <-.
    split; [now apply existsb_pair_In|reflexivity].
  - intros [Hin ->]. exists a. split.
    + apply sorted_unique_In, in_map_iff. now exists (a, b).
    + apply in_flat_map. exists b. split.
      * apply sorted_unique_In, in_map_iff. now exists (a, b).
      * rewrite (proj2 (existsb_pair_In (a, b) ks) Hin). now left.
Qed.

Lemma find_count_sound (F : string * string -> Z) (g : list (string * string * Z))
      (a b : string) :
  (forall a' b' n, In (a', b', n) g -> n = F (a', b')) ->
  find_count a b g
  = if existsb (fun e => pair_eqb (a, b) (fst e)) g then Some (F (a, b)) else None.
Proof.
  induction g as [|[[a' b'] n] g IH]; intros H; simpl; [reflexivity|].
  destruct (pair_eqb_spec (a, b) (a', b')) as [Heq|Hne]; simpl.
  - rewrite Heq. f_equal. apply H. now left.
  - apply IH. intros a2 b2 n2 Hin. apply H. now right.
Qed.

Lemma fillna_find_count (ks : list (string * string)) (g : list (string * string * Z))
      (a b : string) :
  (forall a' b' n, In (a', b', n) g <-> In (a', b') ks /\ n = count_key (a', b') ks) ->
  match find_count a b g with Some n => n | None => 0%Z end = count_key (a, b) ks.
Proof.
  intros H.
  rewrite (find_count_sound (fun k => count_key k ks)).
  - destruct (existsb (fun e => pair_eqb (a, b) (fst e)) g) eqn:E; [reflexivity|].
    symmetry. apply count_key_absent. intros Hin.
    assert (Hg : In (a, b, count_key (a, b) ks) g) by (apply H; now split).
    assert (Ht : existsb (fun e => pair_eqb (a, b) (fst e)) g = true).
    { apply existsb_exists. eexists. split; [exact Hg|].
      simpl. now destruct (pair_eqb_spec (a, b) (a, b)). }
    congruence.
  - intros a' b' n Hin. now apply H in Hin.
Qed.

(** The table [summarize] builds, when the frame has the two key columns:
    the labels are the sorted distinct values that occur, and each cell is
    the number of records with that pair of values. *)
Lemma summarize_table (full : DataFrame) :
  PyStr.mem "file_type" (columns full) = true ->
  PyStr.mem "Discrepancy" (columns full) = true ->
  summarize full
  = ([], inr
       (let ks := keys_of "file_type" "Discrepancy" (records full) in
        let idx := sorted_unique (map fst ks) in
        let cols := sorted_unique (map snd ks) in
        {| stats_index := idx;
           stats_columns := cols;
           stats_cells := map (fun c => map (fun v => count_key (c, v) ks) cols) idx |})).
Proof.
  intros H1 H2. unfold summarize, groupby_size. rewrite H1, H2. simpl negb. cbv iota.
  rewrite bind_ret_l. unfold ret. do 2 f_equal.
  set (ks := keys_of "file_type" "Discrepancy" (records full)).
  match goal with |- fillna0 (pivot ?G) = _ => set (g := G) end.
  assert (Hg : forall a b n, In (a, b, n) g <-> In (a, b) ks /\ n = count_key (a, b) ks)
    by (intros a b n; apply In_group_entries).
  assert (Hidx : sorted_unique (map (fun e => fst (fst e)) g) = sorted_unique (map fst ks)).
  { apply sorted_unique_ext. intros x. rewrite !in_map_iff. split.
    - intros [[[a b] n] [<- Hin]]. apply Hg in Hin. exists (a, b). tauto.
    - intros [[a b] [<- Hin]]. exists (a, b, count_key (a, b) ks).
      split; [reflexivity|]. apply Hg. tauto. }
  assert (Hcol : sorted_unique (map (fun e => snd (fst e)) g) = sorted_unique (map snd ks)).
  { apply sorted_unique_ext. intros x. rewrite !in_map_iff. split.
    - intros [[[a b] n] [<- Hin]]. apply Hg in Hin. exists (a, b). tauto.
    - intros [[a b] [<- Hin]]. exists (a, b, count_key (a, b) ks).
      split; [reflexivity|]. apply Hg. tauto. }
  unfold pivot, fillna0. rewrite Hidx, Hcol. simpl. f_equal.
  rewrite map_map. apply map_ext. intros a.
  rewrite map_map. apply map_ext. intros b.
  now apply fillna_find_count.
Qed.

(** The table of a frame that has the two key columns: one row per
    category that occurs, one column per verdict that occurs, no repeats,
    and in each cell the number of records with that pair. *)
Lemma summarize_counts :
  forall full : DataFrame,
    PyStr.mem "file_type" (columns full) = true ->
    PyStr.mem "Discrepancy" (columns full) = true ->
    exists t,
      summarize full = ([], inr t)
      /\ (forall c, In c (stats_index t) <->
            exists r v, In r (records full)
              /\ row_str "file_type" r = Some c /\ row_str "Discrepancy" r = Some v)
      /\ (forall v, In v (stats_columns t) <->
            exists r c, In r (records full)
              /\ row_str "file_type" r = Some c /\ row_str "Discrepancy" r = Some v)
      /\ NoDup (stats_index t) /\ NoDup (stats_columns t)
      /\ stats_cells t
         = map (fun c =>
                  map (fun v =>
                         Z.of_nat (length (filter
                           (fun r => match row_str "file_type" r, row_str "Discrepancy" r with
                                     | Some c', Some v' => String.eqb c c' && String.eqb v v'
                                     | _, _ => false
                                     end)
                           (records full))))
                      (stats_columns t))
               (stats_index t).
Proof.
  intros full H1 H2. eexists. split; [apply (summarize_table full H1 H2)|].
  cbv zeta. simpl stats_index. simpl stats_columns. simpl stats_cells.
  set (ks := keys_of "file_type" "Discrepancy" (records full)).
  assert (Hks : forall c v, In (c, v) ks <->
            exists r, In r (records full)
              /\ row_str "file_type" r = Some c /\ row_str "Discrepancy" r = Some v).
  { intros c v. unfold ks. rewrite In_keys_of. unfold group_key.
    split; intros [r [Hr Hk]]; exists r; (split; [exact Hr|]).
    - destruct (row_str "file_type" r), (row_str "Discrepancy" r); try discriminate.
      injection Hk as -> ->. now split.
    - destruct Hk as [-> ->]. reflexivity. }
  split; [|split; [|split; [|split]]].
  - intros c. rewrite sorted_unique_In, in_map_iff. split.
    + intros [[c' v] [<- Hin]]. apply Hks in Hin as [r Hr]. exists r, v. exact Hr.
    + intros [r [v Hr]]. exists (c, v). split; [reflexivity|]. apply Hks. now exists r.
  - intros v. rewrite sorted_unique_In, in_map_iff. split.
    + intros [[c v'] [<- Hin]]. apply Hks in Hin as [r Hr]. exists r, c. exact Hr.
    + intros [r [c Hr]]. exists (c, v). split; [reflexivity|]. apply Hks. now exists r.
  - apply sorted_NoDup, sorted_unique_sorted.
  - apply sorted_NoDup, sorted_unique_sorted.
  - apply map_ext. intros c. apply map_ext. intros v.
    unfold count_key. subst ks. clear Hks. f_equal.
    induction (records full) as [|r rs IH]; simpl; [reflexivity|].
    unfold group_key at 1.
    destruct (row_str "file_type" r) as [c'|], (row_str "Discrepancy" r) as [v'|];
      simpl; try exact IH.
    unfold pair_eqb at 1. simpl.
    destruct (String.eqb c c' && String.eqb v v'); simpl; now rewrite IH.
Qed.

(** ** The aggregation of a run without records *)

Section AggregationFacts.

Variable subprocess_run : list string -> option string -> CompletedProcess.
Variable checkout : string -> list Commit.
Variable set_order : string -> string -> bool.

Local Abbreviation analyze_repo' := (analyze_repo subprocess_run checkout set_order).
Local Abbreviation analyze_all' := (analyze_all subprocess_run checkout set_order).
Local Abbreviation build_and_save' := (build_and_save subprocess_run checkout set_order).

Lemma flat_map_nil {A B} (f : A -> list B) (l : list A) :
  flat_map f l = [] <-> forall x, In x l -> f x = [].
Proof.
  induction l as [|x l IH]; simpl.
  - split; [intros _ x []|reflexivity].
  - split.
    + intros H. apply app_eq_nil in H as [Hx Hl].
      intros y [<-|Hy]; [exact Hx|]. now apply IH.
    + intros H. rewrite (H x (or_introl eq_refl)). simpl.
      apply IH. intros y Hy. apply H. now right.
Qed.

Lemma file_rows_nil_events spec commit parent_sha m :
  file_rows subprocess_run set_order spec commit parent_sha m = [] ->
  file_events subprocess_run set_order spec commit parent_sha m = [].
Proof.
  unfold file_rows, file_events, rows_of, analyze_file.
  destruct (paths_of set_order m); [reflexivity|discriminate].
Qed.

Lemma analyze_repo_eq spec max_commits include_merges :
  analyze_repo' spec max_commits include_merges
  = (flat_map (commit_events subprocess_run set_order spec)
       (processed max_commits 0 (eligible_commits checkout spec include_merges)),
     inr (of_rows
            (flat_map (commit_rows subprocess_run set_order spec)
               (processed max_commits 0
                  (eligible_commits checkout spec include_merges))))).
Proof.
  unfold analyze_repo, eligible_commits. rewrite analyze_commits_acc.
  unfold bind, ret. simpl. now rewrite app_nil_r.
Qed.

(** A repository that gives no record gives the frame without columns,
    and no command was run for it. *)
Lemma analyze_repo_no_rows spec max_commits include_merges df :
  outcome (analyze_repo' spec max_commits include_merges) = inr df ->
  records df = [] ->
  analyze_repo' spec max_commits include_merges = ([], inr (of_rows [])).
Proof.
  rewrite analyze_repo_eq. unfold outcome. simpl. intros Hdf Hr.
  injection Hdf as <-. simpl in Hr. rewrite Hr. f_equal.
  apply flat_map_nil. intros c Hc. unfold commit_events.
  apply flat_map_nil. intros m Hm. apply file_rows_nil_events.
  rewrite flat_map_nil in Hr. specialize (Hr c Hc). unfold commit_rows in Hr.
  rewrite flat_map_nil in Hr. now apply Hr.
Qed.

Lemma analyze_all_no_rows specs max_commits include_merges all_dfs :
  (forall spec, In spec specs ->
     exists df, outcome (analyze_repo' spec max_commits include_merges) = inr df
                /\ records df = []) ->
  analyze_all' specs max_commits include_merges all_dfs
  = ([], inr (all_dfs ++ map (fun _ => of_rows []) specs)%list).
Proof.
  revert all_dfs. induction specs as [|spec specs IH]; intros all_dfs H; simpl.
  - now rewrite app_nil_r.
  - destruct (H spec (or_introl eq_refl)) as [df [Hdf Hr]].
    rewrite (analyze_repo_no_rows _ _ _ _ Hdf Hr).
    change (@pair (list Event) (PyExc + DataFrame) [] (inr (of_rows [])))
      with (ret (of_rows [])).
    rewrite bind_ret_l, IH; [|intros s Hs; apply H; now right].
    now rewrite <- app_assoc.
Qed.

Lemma concat_empty_frames (n : nat) :
  concat (repeat (of_rows []) (S n)) = ret (of_rows []).
Proof.
  unfold concat. simpl repeat. cbv iota. f_equal. unfold of_rows. simpl.
  f_equal.
  - induction n as [|n IH]; simpl; [reflexivity|exact IH].
  - induction n as [|n IH]; simpl; [reflexivity|exact IH].
Qed.

Lemma map_const_repeat {A B} (b : B) (l : list A) :
  map (fun _ => b) l = repeat b (length l).
Proof. induction l as [|x l IH]; simpl; congruence. Qed.

(** C4, at the failing inputs.  When no repository gives a record,
    [build_and_save] raises: with no repository at all nothing can be
    concatenated and no file is written; otherwise the dataset file is
    written without header and without rows, and the summary is never
    built, because the frame has no "file_type" column to group by. *)
Theorem empty_dataset_raises :
  forall specs max_commits out_csv include_merges,
    (forall spec, In spec specs ->
       exists df, outcome (analyze_repo' spec max_commits include_merges) = inr df
                  /\ records df = []) ->
    build_and_save' specs max_commits out_csv include_merges
    = match specs with
      | [] => ([], inl (ValueError "No objects to concatenate"))
      | _ :: _ => ([WriteDataset out_csv [] []], inl (KeyError "file_type"))
      end.
Proof.
  intros specs max_commits out_csv include_merges H.
  unfold build_and_save. rewrite (analyze_all_no_rows _ _ _ [] H). simpl app.
  change (@pair (list Event) (PyExc + list DataFrame) []
            (inr (map (fun _ => of_rows []) specs)))
    with (ret (map (fun _ : RepoSpec => of_rows []) specs)).
  rewrite bind_ret_l, map_const_repeat.
  destruct specs as [|spec specs]; [reflexivity|].
  simpl length. rewrite concat_empty_frames, bind_ret_l. reflexivity.
Qed.

(** *** The aggregation of a run with records *)

Lemma fold_add_new_full {A} (K : list string) (g : A -> list string) (l : list A) :
  add_new K K = K ->
  (forall x, In x l -> g x = [] \/ g x = K) ->
  fold_left (fun seen x => add_new seen (g x)) l K = K.
Proof.
  intros HK. induction l as [|x l IH]; intros H; simpl; [reflexivity|].
  destruct (H x (or_introl eq_refl)) as [E|E]; rewrite E; simpl; [|rewrite HK];
    apply IH; intros y Hy; apply H; now right.
Qed.

Lemma fold_add_new_some {A} (K : list string) (g : A -> list string) (l : list A) :
  K <> [] -> add_new [] K = K -> add_new K K = K ->
  (forall x, In x l -> g x = [] \/ g x = K) ->
  (exists x, In x l /\ g x = K) ->
  fold_left (fun seen x => add_new seen (g x)) l [] = K.
Proof.
  intros Hne H0 HK. induction l as [|x l IH]; intros H [y [Hy Hg]]; [destruct Hy|].
  simpl. destruct (H x (or_introl eq_refl)) as [E|E]; rewrite E.
  - simpl. apply IH; [intros z Hz; apply H; now right|].
    destruct Hy as [<-|Hy]; [congruence|now exists y].
  - rewrite H0. apply fold_add_new_full; [exact HK|].
    intros z Hz. apply H. now right.
Qed.

Lemma file_rows_keys spec commit parent_sha m row :
  In row (file_rows subprocess_run set_order spec commit parent_sha m) ->
  map fst row = ROW_KEYS.
Proof.
  clear checkout. unfold file_rows, rows_of, analyze_file.
  destruct (paths_of set_order m); simpl; [intros []|].
  intros [<-|[]]. reflexivity.
Qed.

Lemma run_rows_eq spec max_commits include_merges :
  run_rows subprocess_run checkout set_order spec max_commits include_merges
  = flat_map (commit_rows subprocess_run set_order spec)
      (processed max_commits 0 (eligible_commits checkout spec include_merges)).
Proof. unfold run_rows, rows_of. now rewrite analyze_commits_acc. Qed.

Lemma run_rows_keys spec max_commits include_merges row :
  In row (run_rows subprocess_run checkout set_order spec max_commits include_merges) ->
  map fst row = ROW_KEYS.
Proof.
  rewrite run_rows_eq. intros Hin.
  apply in_flat_map in Hin as [c [_ Hin]].
  apply in_flat_map in Hin as [m [_ Hin]].
  exact (file_rows_keys _ _ _ _ _ Hin).
Qed.

(** The frame of a list of records: no column without a record, the ten
    keys otherwise. *)
Lemma of_rows_columns (rows : list Row) :
  (forall r, In r rows -> map fst r = ROW_KEYS) ->
  columns (of_rows rows) = match rows with [] => [] | _ :: _ => ROW_KEYS end.
Proof.
  intros H. unfold of_rows. simpl. destruct rows as [|r rows]; [reflexivity|].
  apply (fold_add_new_some ROW_KEYS (fun r : Row => map fst r));
    [discriminate|reflexivity|reflexivity| |].
  - intros x Hx. right. now apply H.
  - exists r. split; [now left|]. apply H. now left.
Qed.

Lemma analyze_all_acc specs max_commits include_merges all_dfs :
  analyze_all' specs max_commits include_merges all_dfs
  = (flat_map (fun spec => events (analyze_repo' spec max_commits include_merges)) specs,
     inr (all_dfs
          ++ map (fun spec =>
                    of_rows (run_rows subprocess_run checkout set_order
                               spec max_commits include_merges))
                 specs)%list).
Proof.
  revert all_dfs. induction specs as [|spec specs IH]; intros all_dfs; simpl.
  - now rewrite app_nil_r.
  - rewrite (bind_value _ _ _ _ (analyze_repo_eq spec max_commits include_merges)).
    rewrite IH. unfold events, outcome. simpl.
    rewrite analyze_repo_eq, run_rows_eq. simpl. now rewrite <- app_assoc.
Qed.

Lemma flat_map_map {A B C} (f : A -> B) (g : B -> list C) (l : list A) :
  flat_map g (map f l) = flat_map (fun x => g (f x)) l.
Proof. induction l as [|x l IH]; simpl; congruence. Qed.

(** C8, as the code has it.  When the run has at least one record,
    [build_and_save] ends without raising and the last thing it writes is
    the summary table: one row per file category that occurs in the
    dataset and one column per verdict that occurs, without repeats; each
    cell is the number of records with that category and verdict, which
    is 0 for a pair that does not occur.  A category or a verdict no
    record has gets no row and no column. *)
Theorem summary_counts_present_pairs :
  forall specs max_commits out_csv include_merges file,
    let dataset :=
      flat_map (fun spec => run_rows subprocess_run checkout set_order
                              spec max_commits include_merges) specs in
    dataset <> [] ->
    PathLib.with_name out_csv (String.append (PathLib.stem out_csv) "_stats.csv")
    = Some file ->
    exists evs t,
      build_and_save' specs max_commits out_csv include_merges
      = ((evs ++ [WriteStats file t])%list, inr tt)
      /\ (forall c, In c (stats_index t) <->
            exists r v, In r dataset
              /\ row_str "file_type" r = Some c /\ row_str "Discrepancy" r = Some v)
      /\ (forall v, In v (stats_columns t) <->
            exists r c, In r dataset
              /\ row_str "file_type" r = Some c /\ row_str "Discrepancy" r = Some v)
      /\ NoDup (stats_index t) /\ NoDup (stats_columns t)
      /\ stats_cells t
         = map (fun c =>
                  map (fun v =>
                         Z.of_nat (length (filter
                           (fun r => match row_str "file_type" r, row_str "Discrepancy" r with
                                     | Some c', Some v' => String.eqb c c' && String.eqb v v'
                                     | _, _ => false
                                     end)
                           dataset)))
                      (stats_columns t))
               (stats_index t).
Proof.
  intros specs max_commits out_csv include_merges file dataset Hne Hfile.
  set (frame := fun spec =>
         of_rows (run_rows subprocess_run checkout set_order spec max_commits include_merges)).
  assert (Hcols : forall d, In d (map frame specs) -> columns d = [] \/ columns d = ROW_KEYS).
  { intros d Hd. apply in_map_iff in Hd as [spec [<- _]]. unfold frame.
    rewrite of_rows_columns by (intros r; apply run_rows_keys).
    destruct (run_rows _ _ _ _ _ _); [now left|now right]. }
  assert (Hsome : exists d, In d (map frame specs) /\ columns d = ROW_KEYS).
  { assert (Hex : exists spec, In spec specs
              /\ run_rows subprocess_run checkout set_order spec max_commits include_merges
                 <> []).
    { subst dataset. clear -Hne. induction specs as [|spec specs IH];
        [exfalso; now apply Hne|].
      simpl in Hne.
      destruct (run_rows subprocess_run checkout set_order spec max_commits include_merges)
        as [|r rs] eqn:E.
      - destruct (IH Hne) as [s [Hs Hr]]. exists s. split; [now right|exact Hr].
      - exists spec. split; [now left|]. rewrite E. discriminate. }
    destruct Hex as [spec [Hs Hr]]. exists (frame spec). split; [now apply in_map|].
    unfold frame. rewrite of_rows_columns by (intros r; apply run_rows_keys).
    destruct (run_rows _ _ _ _ _ _); [congruence|reflexivity]. }
  set (full := {| columns := ROW_KEYS; records := dataset |}).
  assert (Hconcat : concat (map frame specs) = ret full).
  { destruct specs as [|spec specs]; [now destruct Hsome as [d [[] _]]|].
    unfold concat. change (map frame (spec :: specs)) with (frame spec :: map frame specs).
    cbv iota. unfold ret, full. do 3 f_equal.
    - apply (fold_add_new_some ROW_KEYS columns);
        [discriminate|reflexivity|reflexivity|exact Hcols|exact Hsome].
    - subst dataset.
      change (frame spec :: map frame specs) with (map frame (spec :: specs)).
      now rewrite flat_map_map. }
  destruct (summarize_counts full eq_refl eq_refl) as [t [Ht Hchar]].
  exists (flat_map (fun spec => events (analyze_repo' spec max_commits include_merges)) specs
          ++ [WriteDataset out_csv ROW_KEYS
                (map (fun r => map (fun c => cell_text c r) ROW_KEYS) dataset)])%list, t.
  split; [|exact Hchar].
  unfold build_and_save.
  rewrite (bind_value _ _ _ _ (analyze_all_acc specs max_commits include_merges [])).
  cbn [app]. fold frame. rewrite Hconcat, bind_ret_l.
  unfold to_csv, emit. cbn [bind columns records full].
  rewrite Ht. unfold stats_file. rewrite Hfile. simpl.
  unfold events, outcome. simpl. now rewrite <- !app_assoc.
Qed.

End AggregationFacts.

(** ** The test heuristic *)

Lemma has_char_lower (s : string) :
  has_char "/"%char (PyStr.lower s) = has_char "/"%char s.
Proof.
  induction s as [|c s IH]; simpl; [reflexivity|].
  now rewrite lower_ascii_eqb_slash, IH.
Qed.

Lemma is_word_lower (c : ascii) : Re.is_word (PyStr.lower_ascii c) = Re.is_word c.
Proof. destruct c as [[] [] [] [] [] [] [] []]; reflexivity. Qed.

Lemma word_after_lower (s : string) :
  Re.word_after (PyStr.lower s) = Re.word_after s.
Proof. destruct s as [|c s]; [reflexivity|apply is_word_lower]. Qed.

Lemma lower_app (a b : string) :
  PyStr.lower (a ++ b) = (PyStr.lower a ++ PyStr.lower b)%string.
Proof. induction a as [|c a IH]; simpl; congruence. Qed.

(** One more character of the subject, and the comparisons with it. *)
Ltac next_char s :=
  let c := fresh "c" in
  destruct s as [|c s];
  [reflexivity
  |cbn -[Ascii.eqb Re.word_after];
   repeat match goal with
          | |- context [Ascii.eqb ?a c] => destruct (Ascii.eqb a c) eqn:?
          end;
   cbn -[Ascii.eqb Re.word_after]; try reflexivity].

(** The tail of the first pattern, in closed form. *)
Lemma tail_match (prev : option ascii) (s : string) :
  Re.rmatch TEST_TAIL prev s Re.accept = test_head s.
Proof.
  unfold TEST_TAIL, test_head.
  next_char s. next_char s. next_char s. next_char s.
  apply Ascii.eqb_eq in Heqb2. subst c2.
  destruct s as [|c3 s]; [reflexivity|].
  cbn -[Ascii.eqb Re.word_after Re.is_word].
  destruct (Ascii.eqb "s" c3) eqn:Es; destruct (Ascii.eqb "_" c3) eqn:Eu;
    try (apply Ascii.eqb_eq in Es; subst c3; try discriminate Eu);
    try (apply Ascii.eqb_eq in Eu; subst c3; try discriminate Es);
    cbn -[Re.word_after Re.is_word];
    change (Re.is_word "t") with true; try change (Re.is_word "s") with true;
    try change (Re.is_word "_") with true;
    cbn -[Re.word_after Re.is_word];
    destruct (Re.word_after s); try destruct (Re.is_word c3); reflexivity.
Qed.

(** The tail of the second pattern, in closed form. *)
Lemma conf_match (prev : option ascii) (s : string) :
  Re.rmatch CONFTEST_TAIL prev s Re.accept = conf_head s.
Proof.
  unfold CONFTEST_TAIL, conf_head.
  do 11 next_char s.
  destruct s as [|c10 s]; [reflexivity|].
  cbn -[Ascii.eqb]. rewrite (Ascii.eqb_sym c10).
  destruct s, (Ascii.eqb "010" c10); reflexivity.
Qed.

(** What [test_head] sees of a segment does not reach past the slash that
    ends it. *)
Lemma test_head_local (seg rest : string) :
  test_head (seg ++ String "/" rest) = test_head seg.
Proof.
  unfold test_head.
  next_char seg. next_char seg. next_char seg. next_char seg.
  all: next_char seg.
  all: try (destruct seg; reflexivity).
Qed.

Lemma search_from_cons (r : Re.regex) (prev : option ascii) (c : ascii) (s : string) :
  Re.search_from r prev (String c s)
  = Re.rmatch r prev (String c s) Re.accept || Re.search_from r (Some c) s.
Proof. reflexivity. Qed.

(** A pattern that starts with [(^|/)] matches, past the start of the
    subject, only at a slash. *)
Lemma rmatch_anchor_mid (r : Re.regex) (c : ascii) (s : string)
      (k : option ascii -> string -> bool) :
  Re.rmatch (Re.Seq (Re.Alt Re.Bol (Re.Chr "/"%char)) r) (Some c) s k
  = match s with
    | String c' s' =>
        if Ascii.eqb c' "/"%char then Re.rmatch r (Some c') s' k else false
    | EmptyString => false
    end.
Proof.
  cbn [Re.rmatch orb]. destruct s as [|c' s']; [reflexivity|].
  rewrite (Ascii.eqb_sym "/"%char c'). reflexivity.
Qed.

Lemma rmatch_anchor_start (r : Re.regex) (s : string)
      (k : option ascii -> string -> bool) :
  Re.rmatch (Re.Seq (Re.Alt Re.Bol (Re.Chr "/"%char)) r) None s k
  = Re.rmatch r None s k
    || match s with
       | String c' s' =>
           if Ascii.eqb c' "/"%char then Re.rmatch r (Some c') s' k else false
       | EmptyString => false
       end.
Proof.
  cbn [Re.rmatch]. destruct s as [|c' s']; [reflexivity|].
  rewrite (Ascii.eqb_sym "/"%char c'). reflexivity.
Qed.

Section Anchored.

(** An anchored pattern whose tail does not look behind: a search finds
    it at the start of the subject or right after a slash. *)
Variable r : Re.regex.
Variable h : string -> bool.
Hypothesis r_head : forall prev s, Re.rmatch r prev s Re.accept = h s.

Lemma search_anchor_mid (c : ascii) (s : string) :
  Re.search_from (Re.Seq (Re.Alt Re.Bol (Re.Chr "/"%char)) r) (Some c) s
  = after_slash h s.
Proof.
  revert c. induction s as [|c' s IH]; intros c; [reflexivity|].
  rewrite search_from_cons, rmatch_anchor_mid, IH. cbn [after_slash].
  destruct (Ascii.eqb c' "/"%char); [now rewrite r_head|reflexivity].
Qed.

Lemma search_anchor (s : string) :
  Re.search (Re.Seq (Re.Alt Re.Bol (Re.Chr "/"%char)) r) s
  = h s || after_slash h s.
Proof.
  unfold Re.search. destruct s as [|c s].
  - cbn [Re.search_from]. rewrite rmatch_anchor_start, r_head. cbn.
    now rewrite !orb_false_r.
  - rewrite search_from_cons, rmatch_anchor_start, search_anchor_mid, !r_head.
    cbn [after_slash]. destruct (Ascii.eqb c "/"%char); cbn [andb orb].
    + now rewrite orb_assoc.
    + now rewrite orb_false_r.
Qed.

End Anchored.

Lemma after_slash_no_slash (h : string -> bool) (s : string) :
  has_char "/"%char s = false -> after_slash h s = false.
Proof.
  induction s as [|c s IH]; [reflexivity|]. cbn [has_char after_slash].
  intros H. apply orb_false_iff in H as [Hc Hs]. now rewrite Hc, IH.
Qed.

(** A string is its first segment, or its first segment, a slash and the
    rest. *)
Lemma split_hd (s : string) :
  s = hd "" (PyStr.split "/"%char s)
  \/ exists rest, s = (hd "" (PyStr.split "/"%char s) ++ String "/"%char rest)%string.
Proof.
  induction s as [|c s IH]; [now left|]. cbn [PyStr.split].
  destruct (Ascii.eqb_spec c "/"%char) as [->|Hc].
  - right. exists s. reflexivity.
  - destruct (PyStr.split "/"%char s) as [|seg segs] eqn:E; [now apply split_nonempty in E|].
    cbn [hd] in *. destruct IH as [IH|[rest IH]].
    + left. now rewrite <- IH.
    + right. exists rest. cbn [append]. now rewrite <- IH.
Qed.

Lemma split_has_sep (s : string) :
  has_char "/"%char s = true ->
  exists a b l, PyStr.split "/"%char s = a :: b :: l.
Proof.
  induction s as [|c s IH]; [discriminate|]. cbn [has_char PyStr.split].
  destruct (Ascii.eqb c "/"%char); cbn [orb].
  - intros _. destruct (PyStr.split "/"%char s) as [|b l] eqn:E;
      [now apply split_nonempty in E|]. now exists "", b, l.
  - intros H. destruct (IH H) as [a [b [l ->]]]. now exists (String c a), b, l.
Qed.

Lemma test_head_first_segment (s : string) :
  test_head (hd "" (PyStr.split "/"%char s)) = test_head s.
Proof.
  destruct (split_hd s) as [H|[rest H]].
  - now rewrite <- H.
  - rewrite H at 2. now rewrite test_head_local.
Qed.

Lemma after_slash_segments (s : string) :
  existsb test_head (tl (PyStr.split "/"%char s)) = after_slash test_head s.
Proof.
  induction s as [|c s IH]; [reflexivity|]. cbn [PyStr.split after_slash].
  destruct (Ascii.eqb c "/"%char); cbn [andb orb tl].
  - rewrite <- IH, <- (test_head_first_segment s).
    destruct (PyStr.split "/"%char s) as [|seg segs] eqn:E; [now apply split_nonempty in E|].
    reflexivity.
  - rewrite <- IH.
    destruct (PyStr.split "/"%char s) as [|seg segs] eqn:E; [now apply split_nonempty in E|].
    reflexivity.
Qed.

(** The first pattern is found exactly when a segment passes
    [test_head]. *)
Lemma search_test_re_segments (s : string) :
  Re.search TEST_RE s = existsb test_head (PyStr.split "/"%char s).
Proof.
  unfold TEST_RE.
  rewrite (search_anchor TEST_TAIL test_head tail_match).
  rewrite <- after_slash_segments, <- (test_head_first_segment s).
  destruct (PyStr.split "/"%char s) as [|seg segs] eqn:E; [now apply split_nonempty in E|].
  reflexivity.
Qed.

Lemma conf_head_no_slash (s : string) :
  conf_head s = true -> has_char "/"%char s = false.
Proof.
  unfold conf_head. intros H. apply orb_true_iff in H as [H|H];
    apply String.eqb_eq in H; subst s; reflexivity.
Qed.

(** The second pattern is found exactly when the last segment is
    conftest.py. *)
Lemma search_conftest_re_last (s : string) :
  Re.search CONFTEST_RE s = conf_head (last (PyStr.split "/"%char s) "").
Proof.
  unfold CONFTEST_RE.
  rewrite (search_anchor CONFTEST_TAIL conf_head conf_match).
  induction s as [|c s IH]; [reflexivity|].
  cbn [after_slash PyStr.split].
  destruct (Ascii.eqb_spec c "/"%char) as [->|Hc]; cbn [andb orb].
  - rewrite IH.
    destruct (PyStr.split "/"%char s) as [|b l] eqn:E; [now apply split_nonempty in E|].
    reflexivity.
  - destruct (has_char "/"%char s) eqn:Hs.
    + destruct (split_has_sep s Hs) as [a [b [l E]]]. rewrite E in *.
      assert (H1 : conf_head (String c s) = false).
      { destruct (conf_head (String c s)) eqn:H; [|reflexivity].
        apply conf_head_no_slash in H. cbn [has_char] in H. rewrite Hs in H.
        now rewrite orb_true_r in H. }
      assert (H2 : conf_head s = false).
      { destruct (conf_head s) eqn:H; [|reflexivity].
        apply conf_head_no_slash in H. congruence. }
      rewrite H1. rewrite H2 in IH. exact IH.
    + rewrite (split_no_sep _ _ Hs), (after_slash_no_slash _ _ Hs).
      cbn [last]. now rewrite orb_false_r.
Qed.

Lemma existsb_test_absorbed (l : list string) :
  PyStr.mem "test" l || existsb test_head l = existsb test_head l.
Proof.
  induction l as [|x l IH]; [reflexivity|]. unfold PyStr.mem in *. cbn [existsb].
  destruct (String.eqb_spec "test" x) as [<-|_].
  - reflexivity.
  - cbn [orb]. rewrite <- IH at 2.
    destruct (test_head x), (existsb (String.eqb "test") l); reflexivity.
Qed.

(** [is_test_file], segment by segment: some segment of the lower-cased
    path passes [test_head], or its last segment is conftest.py. *)
Lemma is_test_file_segments (p : string) :
  is_test_file (Some p)
  = existsb test_head (PyStr.split "/"%char (PyStr.lower p))
    || conf_head (last (PyStr.split "/"%char (PyStr.lower p)) "").
Proof.
  unfold is_test_file. destruct p as [|c p]; [reflexivity|].
  cbn [PyStr.truthy negb].
  now rewrite search_test_re_segments, search_conftest_re_last, existsb_test_absorbed.
Qed.

(** A segment equal to test or tests, in any letter case, makes the path
    a test file. *)
Lemma is_test_file_segment_exact (p : string) :
  In "test" (PyStr.split "/"%char (PyStr.lower p))
  \/ In "tests" (PyStr.split "/"%char (PyStr.lower p)) ->
  is_test_file (Some p) = true.
Proof.
  intros H. rewrite is_test_file_segments.
  apply orb_true_iff. left. apply existsb_exists.
  destruct H as [H|H]; eexists; (split; [exact H|reflexivity]).
Qed.

Lemma is_letter_word (c : ascii) : is_letter c = true -> Re.is_word c = true.
Proof.
  destruct c as [[] [] [] [] [] [] [] []]; intros H;
    solve [reflexivity | vm_compute in H; discriminate H].
Qed.

Lemma is_letter_not_underscore (c : ascii) :
  is_letter c = true -> Ascii.eqb "_" c = false.
Proof.
  destruct c as [[] [] [] [] [] [] [] []]; intros H;
    solve [reflexivity | vm_compute in H; discriminate H].
Qed.

(** A segment that passes [test_head] starts with "test". *)
Lemma test_head_prefix (seg : string) :
  test_head seg = test_head seg && PyStr.startswith "test" seg.
Proof.
  unfold test_head.
  next_char seg. next_char seg. next_char seg. next_char seg.
  now rewrite andb_true_r.
Qed.

(** "test" followed by a letter passes [test_head] only when the letter is
    an s: testutils and testing are no test segments, tests.py is one. *)
Lemma test_head_letter (c : ascii) (rest : string) :
  is_letter c = true ->
  test_head ("test" ++ String c rest) = true -> c = "s"%char.
Proof.
  intros Hl. unfold test_head.
  cbn -[Ascii.eqb Re.word_after Re.is_word].
  cbn [Re.word_after]. rewrite (is_letter_word c Hl), (is_letter_not_underscore c Hl).
  cbn [negb andb orb].
  destruct (Ascii.eqb_spec "s" c) as [<-|Hne]; [reflexivity|discriminate].
Qed.

(** Without a segment that starts with "test" and without a conftest.py,
    a path is no test file: "test" inside a segment, as in contest, does
    not count. *)
Lemma is_test_file_needs_prefix (p : string) :
  is_test_file (Some p) = true ->
  (exists seg, In seg (PyStr.split "/"%char (PyStr.lower p))
               /\ PyStr.startswith "test" seg = true)
  \/ conf_head (last (PyStr.split "/"%char (PyStr.lower p)) "") = true.
Proof.
  rewrite is_test_file_segments. intros H.
  apply orb_true_iff in H as [H|H]; [left|now right].
  apply existsb_exists in H as [seg [Hin Hseg]].
  exists seg. split; [exact Hin|].
  rewrite test_head_prefix in Hseg. now apply andb_true_iff in Hseg.
Qed.

Lemma spec_segment_test_prefix (w : string) :
  spec_test_segment ("test_" ++ w) = true.
Proof. reflexivity. Qed.

Lemma test_head_misses_underscore (w : string) :
  Re.word_after w = true -> test_head ("test_" ++ w) = false.
Proof. intros H. unfold test_head. cbn. now rewrite H. Qed.

(** C1, at the failing inputs.  A file name that begins with "test_" and
    goes on with a letter, a digit or an underscore, as test_foo.py does,
    is a test file by the rule of the specification, in any directory; for
    [is_test_file] the name counts for nothing, the path is a test file
    only if one of its directories makes it one, and in no directory the
    file is not a test file and [classify_file] does not give "test".
    After [test_] the pattern asks for a word boundary, and there is none
    before a word character. *)
Theorem test_prefix_not_matched :
  forall dir w : string,
    has_char "/"%char w = false ->
    Re.word_after w = true ->
    spec_is_test (dir ++ "/test_" ++ w) = true
    /\ is_test_file (Some (dir ++ "/test_" ++ w)%string)
       = existsb test_head (PyStr.split "/"%char (PyStr.lower dir))
    /\ spec_is_test ("test_" ++ w) = true
    /\ is_test_file (Some ("test_" ++ w)%string) = false
    /\ classify_file None (Some ("test_" ++ w)%string) <> "test".
Proof.
  intros dir w Hs Hw.
  assert (Hs' : has_char "/"%char (PyStr.lower w) = false)
    by now rewrite has_char_lower.
  assert (Hw' : Re.word_after (PyStr.lower w) = true)
    by now rewrite word_after_lower.
  assert (Hsplit : PyStr.split "/"%char ("test_" ++ PyStr.lower w)
                   = ["test_" ++ PyStr.lower w]%string)
    by (apply split_no_sep; exact Hs').
  assert (Hlow : forall d, PyStr.split "/"%char (PyStr.lower (d ++ "/test_" ++ w))
                      = (PyStr.split "/"%char (PyStr.lower d)
                         ++ ["test_" ++ PyStr.lower w]%string)%list).
  { intros d. rewrite lower_app.
    change (PyStr.lower ("/test_" ++ w))
      with (String "/"%char ("test_" ++ PyStr.lower w)).
    now rewrite split_app_sep, Hsplit. }
  assert (Hconf : conf_head ("test_" ++ PyStr.lower w) = false) by reflexivity.
  assert (Hcode : is_test_file (Some ("test_" ++ w)%string) = false).
  { rewrite is_test_file_segments.
    change (PyStr.lower ("test_" ++ w)) with ("test_" ++ PyStr.lower w)%string.
    rewrite Hsplit. cbn [existsb last].
    now rewrite (test_head_misses_underscore _ Hw'), Hconf. }
  split; [|split; [|split; [|split]]].
  - unfold spec_is_test. rewrite Hlow, existsb_app. cbn [existsb].
    rewrite spec_segment_test_prefix. cbn [orb]. now rewrite !orb_true_r.
  - rewrite is_test_file_segments, Hlow, existsb_app, last_last. cbn [existsb].
    now rewrite (test_head_misses_underscore _ Hw'), Hconf, !orb_false_r.
  - unfold spec_is_test.
    change (PyStr.lower ("test_" ++ w)) with ("test_" ++ PyStr.lower w)%string.
    rewrite Hsplit. reflexivity.
  - exact Hcode.
  - rewrite classify_file_first_match.
    unfold PyStr.or_opt, PyStr.truthy_opt. cbn [append PyStr.truthy].
    unfold first_match.
    change (String "t" (String "e" (String "s" (String "t" (String "_" w)))))
      with ("test_" ++ w)%string.
    rewrite Hcode.
    destruct (is_readme _); [discriminate|].
    destruct (is_license _); [discriminate|].
    destruct (is_source_code _); discriminate.
Qed.

(** ** The sample run *)

Example demo_records :
  map (row_str "file_type") (records Demo.frame)
  = [Some "source"; Some "test"; Some "readme"; Some "source"]
  /\ map (row_str "Discrepancy") (records Demo.frame)
     = [Some "No"; Some "No"; Some "No"; Some "Yes"]
  /\ map (row_str "parent_commit_sha") (records Demo.frame)
     = [Some "4b825dc642cb6eb9a060e54bf8d69288fbee4904";
        Some "4b825dc642cb6eb9a060e54bf8d69288fbee4904";
        Some "4b825dc642cb6eb9a060e54bf8d69288fbee4904"; Some "a1"].
Proof. vm_compute. repeat split. Qed.

Example classify_examples :
  classify_file None (Some "src/test/Foo.py") = "test"
  /\ classify_file None (Some "src/testutils/Foo.py") = "source"
  /\ classify_file None (Some "src/contest/Foo.py") = "source"
  /\ classify_file None (Some "tests/README.md") = "readme"
  /\ classify_file (Some "LICENSE") None = "license"
  /\ classify_file None (Some "docs/LICENCE.txt") = "license"
  /\ classify_file None (Some "pkg/conftest.py") = "test"
  /\ classify_file None (Some "test_foo.py") = "source"
  /\ classify_file None (Some "notes.txt") = "other".
Proof. vm_compute. repeat split. Qed.

(** src/test_foo.py and test_foo.py: test files for the specification,
    source files for the code. *)
Lemma test_prefix_not_matched_witness :
  has_char "/"%char "foo.py" = false
  /\ Re.word_after "foo.py" = true
  /\ spec_is_test "src/test_foo.py" = true
  /\ is_test_file (Some "src/test_foo.py") = false
  /\ spec_is_test "test_foo.py" = true
  /\ is_test_file (Some "test_foo.py") = false
  /\ classify_file None (Some "test_foo.py") <> "test"
  /\ classify_file None (Some "src/test_foo.py") = "source".
Proof.
  split; [reflexivity|]. split; [reflexivity|].
  destruct (test_prefix_not_matched "src" "foo.py" eq_refl eq_refl)
    as [H1 [H2 [H3 [H4 H5]]]].
  repeat split; try assumption; reflexivity.
Defined.

(** The histogram diff of [b2] fails: its error text is the diff text of
    the record, and the verdict is "Yes". *)
Lemma git_diff_single_exit_status_witness :
  returncode (Demo.tool (diff_cmd "a1" "b2" ["a.py"; "b.py"] "histogram")
                        (Some "repos/demo")) <> 0%Z
  /\ outcome (git_diff_single Demo.tool "repos/demo" "a1" "b2" ["a.py"; "b.py"] "histogram")
     = inr "fatal: bad object"
  /\ exists row,
       outcome (analyze_file Demo.tool Demo.set_order Demo.spec Demo.child "a1"
                  {| old_path := Some "a.py"; new_path := Some "b.py" |} [])
       = inr [row]
       /\ row_get "diff_myers" row = Some (VStr "diff --git")
       /\ row_get "diff_hist" row = Some (VStr "fatal: bad object")
       /\ row_get "Discrepancy" row = Some (VStr "Yes").
Proof.
  destruct (git_diff_single_exit_status Demo.tool Demo.set_order
              "repos/demo" "a1" "b2" ["a.py"; "b.py"] "histogram") as [H1 H2].
  destruct H1 as [[H0 _]|[Hne Hr]]; [vm_compute in H0; discriminate H0|].
  split; [exact Hne|]. split; [exact Hr|].
  apply (H2 Demo.spec Demo.child
            {| old_path := Some "a.py"; new_path := Some "b.py" |} []
            "diff --git" "fatal: bad object");
    [vm_compute; discriminate|reflexivity|reflexivity].
Defined.

(** C5 as the specification states it does not hold.  With a cut-off of one commit the
    walk over the sample history processes [b2], the newest commit, where
    the specification's walker takes [a1], the oldest; the dataset holds
    the record of [b2] only. *)
Lemma walk_not_oldest_first :
  map hash (processed 1 0 (eligible_commits Demo.checkout Demo.spec false)) = ["b2"]
  /\ map hash (walk_oldest_first (Demo.checkout (path Demo.spec)) 1 false) = ["a1"]
  /\ processed 1 0 (eligible_commits Demo.checkout Demo.spec false)
     <> walk_oldest_first (Demo.checkout (path Demo.spec)) 1 false
  /\ exists df,
       outcome (analyze_repo Demo.tool Demo.checkout Demo.set_order Demo.spec 1 false)
       = inr df
       /\ map (row_str "commit_sha") (records df) = [Some "b2"].
Proof.
  split; [reflexivity|]. split; [reflexivity|]. split.
  - vm_compute. discriminate.
  - eexists. split; [vm_compute; reflexivity|reflexivity].
Qed.

(** C8 as the specification states it does not hold.  The run over the newest commit of
    the sample writes a summary with the single row "source" and the
    single column "Yes": no row for the other four categories, no column
    for the verdict "No". *)
Lemma summary_omits_absent_labels :
  exists t,
    In (WriteStats "out_stats.csv" t)
       (events (build_and_save Demo.tool Demo.checkout Demo.set_order
                  [Demo.spec] 1 "out.csv" false))
    /\ stats_index t = ["source"]
    /\ stats_columns t = ["Yes"]
    /\ stats_cells t = [[1%Z]]
    /\ ~ In "test" (stats_index t)
    /\ ~ In "No" (stats_columns t).
Proof.
  exists {| stats_index := ["source"]; stats_columns := ["Yes"]; stats_cells := [[1%Z]] |}.
  split; [vm_compute; tauto|].
  repeat split; simpl; intros [H|[]]; discriminate H.
Qed.

(** The summary the run over the whole sample history writes. *)
Lemma summary_counts_present_pairs_witness :
  flat_map (fun spec => run_rows Demo.tool Demo.checkout Demo.set_order spec 0 false)
           [Demo.spec] <> []
  /\ PathLib.with_name "data/out.csv" (String.append (PathLib.stem "data/out.csv") "_stats.csv")
     = Some "data/out_stats.csv"
  /\ summarize Demo.frame
     = ([], inr {| stats_index := ["readme"; "source"; "test"];
                   stats_columns := ["No"; "Yes"];
                   stats_cells := [[1; 0]; [1; 1]; [1; 0]]%Z |})
  /\ exists evs t,
       build_and_save Demo.tool Demo.checkout Demo.set_order [Demo.spec] 0 "data/out.csv" false
       = ((evs ++ [WriteStats "data/out_stats.csv" t])%list, inr tt)
       /\ NoDup (stats_index t) /\ NoDup (stats_columns t).
Proof.
  assert (H1 : flat_map (fun spec => run_rows Demo.tool Demo.checkout Demo.set_order spec 0 false)
                 [Demo.spec] <> []) by (vm_compute; discriminate).
  split; [exact H1|]. split; [reflexivity|]. split; [vm_compute; reflexivity|].
  destruct (summary_counts_present_pairs Demo.tool Demo.checkout Demo.set_order
              [Demo.spec] 0%Z "data/out.csv" false "data/out_stats.csv" H1 eq_refl)
    as [evs [t [Hb [_ [_ [Hi [Hc _]]]]]]].
  exists evs, t. now repeat split.
Defined.

(** A repository whose only commit touches no file: the dataset file is
    written empty and the run ends in a KeyError. *)
Lemma empty_dataset_raises_witness :
  (forall spec, In spec [Demo.empty_spec] ->
     exists df,
       outcome (analyze_repo Demo.tool Demo.checkout Demo.set_order spec 300 false) = inr df
       /\ records df = [])
  /\ build_and_save Demo.tool Demo.checkout Demo.set_order
       [Demo.empty_spec] 300 "out.csv" false
     = ([WriteDataset "out.csv" [] []], inl (KeyError "file_type")).
Proof.
  assert (H : forall spec, In spec [Demo.empty_spec] ->
     exists df,
       outcome (analyze_repo Demo.tool Demo.checkout Demo.set_order spec 300 false) = inr df
       /\ records df = []).
  { intros spec [<-|[]]. eexists. split; [vm_compute; reflexivity|reflexivity]. }
  split; [exact H|].
  exact (empty_dataset_raises Demo.tool Demo.checkout Demo.set_order
           [Demo.empty_spec] 300 "out.csv" false H).
Defined.

(** The change without paths in [b2] adds nothing to the rename next to
    it. *)
Lemma absent_paths_contribute_nothing_witness :
  old_path Demo.no_paths = None
  /\ new_path Demo.no_paths = None
  /\ analyze_file Demo.tool Demo.set_order Demo.spec Demo.child "a1" Demo.no_paths []
     = ([], inr [])
  /\ analyze_files Demo.tool Demo.set_order Demo.spec Demo.child "a1"
       ([{| old_path := Some "a.py"; new_path := Some "b.py" |}] ++ Demo.no_paths :: []) []
     = analyze_files Demo.tool Demo.set_order Demo.spec Demo.child "a1"
         ([{| old_path := Some "a.py"; new_path := Some "b.py" |}] ++ []) [].
Proof.
  split; [reflexivity|]. split; [reflexivity|].
  destruct (absent_paths_contribute_nothing Demo.tool Demo.set_order
              Demo.spec Demo.child "a1" Demo.no_paths
              [{| old_path := Some "a.py"; new_path := Some "b.py" |}] [] []
              eq_refl eq_refl) as [H1 [H2 _]].
  split; [exact H1|exact H2].
Defined.

(** Of the four commits of the sample history with its merge, a run with
    [max_commits = 2] handles the two newest, a run with [max_commits = 9]
    and a run with [max_commits = 0] handle all four. *)
Lemma max_commits_bound_witness :
  exists df2 df9 df0,
    analyze_repo Demo.tool DemoMerge.checkout Demo.set_order DemoMerge.spec 2 true
    = (flat_map (commit_events Demo.tool Demo.set_order DemoMerge.spec)
         [DemoMerge.merge; DemoMerge.docs], inr df2)
    /\ map (row_get "commit_sha") (records df2) = [Some (VStr "m3"); Some (VStr "d2")]
    /\ length (events (analyze_repo Demo.tool DemoMerge.checkout Demo.set_order
                         DemoMerge.spec 2 true)) = 4%nat
    /\ outcome (analyze_repo Demo.tool DemoMerge.checkout Demo.set_order DemoMerge.spec 9 true)
       = inr df9
    /\ map (row_get "commit_sha") (records df9)
       = [Some (VStr "m3"); Some (VStr "d2"); Some (VStr "f1"); Some (VStr "r0")]
    /\ outcome (analyze_repo Demo.tool DemoMerge.checkout Demo.set_order DemoMerge.spec 0 true)
       = inr df0
    /\ map (row_get "commit_sha") (records df0)
       = [Some (VStr "m3"); Some (VStr "d2"); Some (VStr "f1"); Some (VStr "r0")].
Proof.
  destruct (max_commits_bound Demo.tool DemoMerge.checkout Demo.set_order
              DemoMerge.spec 2%Z true) as [H2 H0].
  destruct (H2 ltac:(lia)) as [E2 _].
  destruct (max_commits_bound Demo.tool DemoMerge.checkout Demo.set_order
              DemoMerge.spec 9%Z true) as [H9 _].
  destruct (H9 ltac:(lia)) as [E9 _].
  do 3 eexists.
  split; [exact E2|]. split; [reflexivity|].
  split; [rewrite E2; reflexivity|].
  split; [rewrite E9; reflexivity|]. split; [reflexivity|].
  split; [rewrite H0; reflexivity|]. reflexivity.
Defined.

(** * Further properties of the code *)

(** ** More on the classifier *)

Lemma startswith_split (w s : string) :
  PyStr.startswith w s = true ->
  s = (w ++ PyStr.drop (String.length w) s)%string.
Proof.
  revert s. induction w as [|a w IH]; intros s; [reflexivity|].
  destruct s as [|b s]; [discriminate|]. cbn [PyStr.startswith].
  intros H. apply andb_true_iff in H as [Hab Hw].
  apply Ascii.eqb_eq in Hab. subst b. cbn. f_equal. now apply IH.
Qed.

Lemma startswith_app (w r : string) : PyStr.startswith w (w ++ r) = true.
Proof.
  induction w as [|a w IH]; [reflexivity|]. cbn. now rewrite Ascii.eqb_refl, IH.
Qed.

Lemma drop_app (w r : string) : PyStr.drop (String.length w) (w ++ r) = r.
Proof. induction w as [|a w IH]; [reflexivity|exact IH]. Qed.

(** A segment passes [test_head] when it is test, tests or test_ followed
    by nothing or by a character that is no letter, digit or underscore. *)
Lemma test_head_iff (seg : string) :
  test_head seg = true <->
  exists pre rest,
    seg = (pre ++ rest)%string
    /\ (pre = "test" \/ pre = "tests" \/ pre = "test_")
    /\ Re.word_after rest = false.
Proof.
  unfold test_head. split.
  - intros H. apply orb_true_iff in H as [H|H]; [apply orb_true_iff in H as [H|H]|];
      apply andb_true_iff in H as [Hs Hb]; apply negb_true_iff in Hb;
      apply startswith_split in Hs.
    + exists "test", (PyStr.drop 4 seg). tauto.
    + exists "tests", (PyStr.drop 5 seg). tauto.
    + exists "test_", (PyStr.drop 5 seg). tauto.
  - intros (pre & rest & Heq & Hpre & Hb). subst seg.
    destruct Hpre as [ -> | [ -> | -> ] ]; rewrite !orb_true_iff.
    + left. left. change 4%nat with (String.length "test").
      now rewrite startswith_app, drop_app, Hb.
    + left. right. change 5%nat with (String.length "tests").
      now rewrite startswith_app, drop_app, Hb.
    + right. change 5%nat with (String.length "test_").
      now rewrite startswith_app, drop_app, Hb.
Qed.

(** X1.  [is_test_file] accepts a path of plain ASCII text exactly when,
    in its lower-case form, some segment is test, tests or test_ followed
    by nothing or by a character that is no ASCII letter, digit or
    underscore, or the last segment is conftest.py (a final newline
    allowed).  Paths with other characters are left aside: there the
    letters and the lower case of Python are more than ASCII. *)
Theorem is_test_file_by_segments :
  forall p : string,
    ascii_only p = true ->
    is_test_file (Some p) = true <->
    (exists seg pre rest,
        In seg (PyStr.split "/"%char (PyStr.lower p))
        /\ seg = (pre ++ rest)%string
        /\ (pre = "test" \/ pre = "tests" \/ pre = "test_")
        /\ Re.word_after rest = false)
    \/ last (PyStr.split "/"%char (PyStr.lower p)) "" = "conftest.py"
    \/ last (PyStr.split "/"%char (PyStr.lower p)) ""
       = String.append "conftest.py" (String "010"%char "").
Proof.
  intros p _. rewrite is_test_file_segments, orb_true_iff, existsb_exists.
  unfold conf_head. rewrite orb_true_iff, !String.eqb_eq. split.
  - intros [[seg [Hin Hseg]]|[H|H]].
    + left. apply test_head_iff in Hseg as [pre [rest Hseg]].
      exists seg, pre, rest. tauto.
    + right. left. now symmetry.
    + right. right. now symmetry.
  - intros [[seg [pre [rest [Hin Hseg]]]]|[H|H]].
    + left. exists seg. split; [exact Hin|]. apply test_head_iff.
      exists pre, rest. exact Hseg.
    + right. left. now symmetry.
    + right. right. now symmetry.
Qed.

(** X2.  Letter case does not count: two paths with the same lower-case
    form get the same answer from each of the four tests and the same
    category, as new path and as old path. *)
Theorem classifier_ignores_case :
  forall p q : string,
    PyStr.lower p = PyStr.lower q ->
    is_test_file (Some p) = is_test_file (Some q)
    /\ is_source_code (Some p) = is_source_code (Some q)
    /\ is_readme (Some p) = is_readme (Some q)
    /\ is_license (Some p) = is_license (Some q)
    /\ (forall old, classify_file old (Some p) = classify_file old (Some q))
    /\ (forall new, classify_file (Some p) new = classify_file (Some q) new).
Proof.
  intros p q H.
  assert (Ht : PyStr.truthy p = PyStr.truthy q)
    by (rewrite <- (lower_truthy p), <- (lower_truthy q); now rewrite H).
  assert (H1 : is_test_file (Some p) = is_test_file (Some q))
    by (rewrite <- (is_test_file_lower p), <- (is_test_file_lower q); now rewrite H).
  assert (H2 : is_source_code (Some p) = is_source_code (Some q))
    by (rewrite <- (is_source_code_lower p), <- (is_source_code_lower q); now rewrite H).
  assert (H3 : is_readme (Some p) = is_readme (Some q))
    by (rewrite <- (is_readme_lower p), <- (is_readme_lower q); now rewrite H).
  assert (H4 : is_license (Some p) = is_license (Some q))
    by (rewrite <- (is_license_lower p), <- (is_license_lower q); now rewrite H).
  repeat split; try assumption.
  - intros old. rewrite !classify_file_first_match.
    unfold PyStr.or_opt, PyStr.truthy_opt. rewrite Ht.
    destruct (PyStr.truthy q); [|reflexivity].
    unfold first_match. now rewrite H1, H2, H3, H4.
  - intros new. rewrite !classify_file_first_match.
    unfold PyStr.or_opt. destruct (PyStr.truthy_opt new); [reflexivity|].
    unfold first_match. now rewrite H1, H2, H3, H4.
Qed.

(** X6.  The paths handed to git for a change are its old and new path,
    those that are non-empty strings, each once: no repeat, at most two,
    and none exactly when both paths are absent or empty. *)
Theorem paths_of_distinct_present :
  forall (set_order : string -> string -> bool) (m : ModifiedFile),
    NoDup (paths_of set_order m)
    /\ (length (paths_of set_order m) <= 2)%nat
    /\ (forall p, In p (paths_of set_order m) <->
          p <> "" /\ (old_path m = Some p \/ new_path m = Some p))
    /\ (paths_of set_order m = [] <->
          PyStr.truthy_opt (old_path m) = false /\ PyStr.truthy_opt (new_path m) = false).
Proof.
  intros set_order [o n]. unfold paths_of, truthy_list. cbn [old_path new_path].
  destruct o as [[|a o]|], n as [[|b n]|]; cbn [PyStr.truthy PyStr.truthy_opt app];
    try (destruct (String.eqb_spec (String a o) (String b n)) as [E|E];
         [|destruct (set_order (String a o) (String b n))]);
    (split; [repeat constructor; simpl; intuition congruence|]);
    (split; [simpl; lia|]);
    (split; [intros p; simpl; split;
             [intros H; intuition (subst; try discriminate; try congruence; eauto)
             |intros [Hp [H|H]]; try discriminate H; injection H as <-; intuition congruence]
            |split; [intros H; try discriminate H; now split
                    |intros [H1 H2]; try discriminate H1; try discriminate H2; reflexivity]]).
Qed.

(** ** More on the records of a run *)

Section RecordFacts.

Variable subprocess_run : list string -> option string -> CompletedProcess.
Variable checkout : string -> list Commit.
Variable set_order : string -> string -> bool.

(** The record of a change that has a path, field by field. *)
Lemma file_rows_explicit spec commit parent_sha m row :
  In row (file_rows subprocess_run set_order spec commit parent_sha m) ->
  paths_of set_order m <> []
  /\ row
     = [ ("repo", VStr (name spec));
         ("old_file_path", VStr (PyStr.or_str (old_path m) ""));
         ("new_file_path", VStr (PyStr.or_str (new_path m) ""));
         ("commit_sha", VStr (hash commit));
         ("parent_commit_sha", VStr parent_sha);
         ("commit_message",
           VStr (PyStr.replace_char "010"%char " "%char (PyStr.strip (msg commit))));
         ("file_type", VStr (classify_file (old_path m) (new_path m)));
         ("diff_myers",
           VStr (diff_text subprocess_run (path spec) parent_sha (hash commit)
                   (paths_of set_order m) "myers"));
         ("diff_hist",
           VStr (diff_text subprocess_run (path spec) parent_sha (hash commit)
                   (paths_of set_order m) "histogram"));
         ("Discrepancy",
           VStr (if String.eqb
                      (diff_text subprocess_run (path spec) parent_sha (hash commit)
                         (paths_of set_order m) "myers")
                      (diff_text subprocess_run (path spec) parent_sha (hash commit)
                         (paths_of set_order m) "histogram")
                 then "No" else "Yes")) ].
Proof.
  clear checkout. unfold file_rows, rows_of, analyze_file.
  destruct (paths_of set_order m) as [|p ps] eqn:E; simpl; [intros []|].
  intros [<-|[]]. split; [discriminate|reflexivity].
Qed.

Lemma run_rows_origin spec max_commits include_merges row :
  In row (run_rows subprocess_run checkout set_order spec max_commits include_merges) ->
  exists c m,
    In c (processed max_commits 0 (eligible_commits checkout spec include_merges))
    /\ In m (modified_files c)
    /\ In row (file_rows subprocess_run set_order spec c (parent_sha_of c) m).
Proof.
  rewrite run_rows_eq. intros Hin.
  apply in_flat_map in Hin as [c [Hc Hin]].
  apply in_flat_map in Hin as [m [Hm Hin]].
  now exists c, m.
Qed.

(** X8.  Every record of a run has the ten keys, in the order
    [analyze_repo] writes them, each with a string; its category is one of
    the five names, its verdict is "Yes" or "No", and the verdict is "No"
    exactly when the two diff texts of the record are equal. *)
Theorem record_schema :
  forall spec max_commits include_merges row,
    In row (run_rows subprocess_run checkout set_order spec max_commits include_merges) ->
    map fst row = ROW_KEYS
    /\ (forall key, In key ROW_KEYS -> exists s, row_get key row = Some (VStr s))
    /\ (exists category,
          row_get "file_type" row = Some (VStr category)
          /\ In category ["source"; "test"; "readme"; "license"; "other"])
    /\ (exists dm dh verdict,
          row_get "diff_myers" row = Some (VStr dm)
          /\ row_get "diff_hist" row = Some (VStr dh)
          /\ row_get "Discrepancy" row = Some (VStr verdict)
          /\ (verdict = "No" \/ verdict = "Yes")
          /\ (verdict = "No" <-> dm = dh)).
Proof.
  intros spec max_commits include_merges row Hin.
  apply run_rows_origin in Hin as (c & m & _ & _ & Hin).
  apply file_rows_explicit in Hin as [_ ->].
  split; [reflexivity|]. split; [|split].
  - intros key Hk. simpl in Hk.
    repeat (destruct Hk as [<-|Hk]; [eexists; reflexivity|]). destruct Hk.
  - eexists. split; [reflexivity|].
    rewrite classify_file_first_match. apply first_match_category.
  - do 3 eexists. split; [reflexivity|]. split; [reflexivity|]. split; [reflexivity|].
    destruct (String.eqb_spec
                (diff_text subprocess_run (path spec) (parent_sha_of c) (hash c)
                   (paths_of set_order m) "myers")
                (diff_text subprocess_run (path spec) (parent_sha_of c) (hash c)
                   (paths_of set_order m) "histogram")) as [E|E].
    + split; [now left|]. split; [intros _; exact E|reflexivity].
    + split; [now right|]. split; [discriminate|intros H; contradiction].
Qed.


(** *** The commit message *)

Lemma replace_char_absent (a b : ascii) (s : string) :
  a <> b -> has_char a (PyStr.replace_char a b s) = false.
Proof.
  intros Hab. induction s as [|c s IH]; [reflexivity|].
  cbn [PyStr.replace_char has_char]. rewrite IH, orb_false_r.
  destruct (Ascii.eqb_spec c a) as [->|Hc]; apply Ascii.eqb_neq; congruence.
Qed.

Lemma replace_char_length (a b : ascii) (s : string) :
  String.length (PyStr.replace_char a b s) = String.length s.
Proof. induction s as [|c s IH]; cbn; congruence. Qed.

Lemma replace_char_app (a b : ascii) (s t : string) :
  PyStr.replace_char a b (s ++ t)
  = (PyStr.replace_char a b s ++ PyStr.replace_char a b t)%string.
Proof. induction s as [|c s IH]; cbn; congruence. Qed.

Lemma lstrip_first (s : string) (c : ascii) (r : string) :
  PyStr.lstrip s = String c r -> PyStr.is_space c = false.
Proof.
  induction s as [|a s IH]; [discriminate|]. cbn [PyStr.lstrip].
  destruct (PyStr.is_space a) eqn:E; [exact IH|]. intros H. now injection H as <- _.
Qed.

Lemma lstrip_length (s : string) :
  (String.length (PyStr.lstrip s) <= String.length s)%nat.
Proof.
  induction s as [|a s IH]; [reflexivity|]. cbn [PyStr.lstrip].
  destruct (PyStr.is_space a); cbn; lia.
Qed.

Lemma rstrip_length (s : string) :
  (String.length (PyStr.rstrip s) <= String.length s)%nat.
Proof.
  induction s as [|a s IH]; [reflexivity|]. cbn [PyStr.rstrip].
  destruct (PyStr.rstrip s); [destruct (PyStr.is_space a)|]; cbn in *; lia.
Qed.

Lemma rstrip_first (s : string) (c : ascii) (r : string) :
  PyStr.rstrip s = String c r -> exists r', s = String c r'.
Proof.
  destruct s as [|a s]; [discriminate|]. cbn [PyStr.rstrip].
  destruct (PyStr.rstrip s); [destruct (PyStr.is_space a)|];
    intros H; try discriminate H; injection H as <- _; now eexists.
Qed.

Lemma rstrip_last (s r : string) (c : ascii) :
  PyStr.rstrip s = (r ++ String c "")%string -> PyStr.is_space c = false.
Proof.
  revert r. induction s as [|a s IH]; intros r.
  - destruct r; discriminate.
  - cbn [PyStr.rstrip]. destruct (PyStr.rstrip s) as [|b t] eqn:E.
    + destruct (PyStr.is_space a) eqn:Ea; [destruct r; discriminate|].
      destruct r as [|x r]; cbn; intros H.
      * now injection H as <-.
      * injection H as _ H. destruct r; discriminate.
    + destruct r as [|x r]; cbn; intros H; [discriminate|].
      injection H as _ H. exact (IH r H).
Qed.

Lemma is_space_newline (c : ascii) :
  PyStr.is_space c = false -> Ascii.eqb c "010"%char = false.
Proof.
  destruct (Ascii.eqb_spec c "010"%char) as [->|]; [discriminate|reflexivity].
Qed.

(** The message as the records hold it. *)
Lemma message_cell_shape (message : string) :
  let cell := PyStr.replace_char "010"%char " "%char (PyStr.strip message) in
  has_char "010"%char cell = false
  /\ (forall c r, cell = String c r -> PyStr.is_space c = false)
  /\ (forall r c, cell = (r ++ String c "")%string -> PyStr.is_space c = false)
  /\ (String.length cell <= String.length message)%nat.
Proof.
  intros cell. subst cell. unfold PyStr.strip. split; [|split; [|split]].
  - apply replace_char_absent. discriminate.
  - intros c r H.
    destruct (PyStr.rstrip (PyStr.lstrip message)) as [|a t] eqn:E; [discriminate|].
    destruct (rstrip_first _ _ _ E) as [r' Hl]. apply lstrip_first in Hl.
    cbn [PyStr.replace_char] in H. rewrite (is_space_newline a Hl) in H.
    now injection H as <- _.
  - intros r c H.
    set (t := PyStr.rstrip (PyStr.lstrip message)) in *.
    assert (Ht : exists r' c', t = (r' ++ String c' "")%string
                               /\ c = if Ascii.eqb c' "010"%char then " "%char else c').
    { clearbody t. revert r H. induction t as [|a t IH]; intros r H.
      - destruct r; discriminate.
      - destruct t as [|b t].
        + destruct r as [|x r]; cbn in H.
          * injection H as <-. now exists "", a.
          * injection H as _ H. destruct r; discriminate.
        + destruct r as [|x r]; [discriminate|].
          cbn [PyStr.replace_char append] in H. injection H as _ H.
          destruct (IH r H) as (r' & c' & -> & Hc). now exists (String a r'), c'. }
    destruct Ht as (r' & c' & Ht & ->).
    apply rstrip_last in Ht. now rewrite (is_space_newline c' Ht).
  - rewrite replace_char_length.
    etransitivity; [apply rstrip_length|apply lstrip_length].
Qed.

(** X9.  The message of a record holds no line feed, does not begin or
    end with white space, and is no longer than the message of the
    commit it comes from. *)
Theorem commit_message_single_line :
  forall spec max_commits include_merges row,
    In row (run_rows subprocess_run checkout set_order spec max_commits include_merges) ->
    exists c text,
      In c (checkout (path spec))
      /\ row_get "commit_sha" row = Some (VStr (hash c))
      /\ row_get "commit_message" row = Some (VStr text)
      /\ has_char "010"%char text = false
      /\ (forall a r, text = String a r -> PyStr.is_space a = false)
      /\ (forall r a, text = (r ++ String a "")%string -> PyStr.is_space a = false)
      /\ (String.length text <= String.length (msg c))%nat.
Proof.
  intros spec max_commits include_merges row Hin.
  apply run_rows_origin in Hin as (c & m & Hc & _ & Hin).
  apply file_rows_explicit in Hin as [_ ->].
  exists c, (PyStr.replace_char "010"%char " "%char (PyStr.strip (msg c))).
  split.
  { apply processed_incl in Hc. rewrite eligible_commits_eq in Hc.
    apply in_rev, filter_In in Hc. tauto. }
  split; [reflexivity|]. split; [reflexivity|].
  apply message_cell_shape.
Qed.

(** X10.  Without [include_merges] every record comes from a commit of
    the history with at most one parent, and carries that commit's hash
    and parent reference: a merge commit gives no record. *)
Theorem merge_commits_left_out :
  forall spec max_commits row,
    In row (run_rows subprocess_run checkout set_order spec max_commits false) ->
    exists c,
      In c (checkout (path spec))
      /\ (length (parents c) <= 1)%nat
      /\ row_get "commit_sha" row = Some (VStr (hash c))
      /\ row_get "parent_commit_sha" row = Some (VStr (parent_sha_of c)).
Proof.
  intros spec max_commits row Hin.
  apply run_rows_origin in Hin as (c & m & Hc & _ & Hin).
  apply file_rows_explicit in Hin as [_ ->].
  exists c. apply processed_incl in Hc. rewrite eligible_commits_eq in Hc.
  apply in_rev, filter_In in Hc. destruct Hc as [Hc Hm]. cbn [orb] in Hm.
  split; [exact Hc|]. split; [|split; reflexivity].
  unfold is_merge in Hm. apply negb_true_iff, Nat.ltb_ge in Hm. exact Hm.
Qed.

(** X7.  A run issues two commands for each record and nothing else:
    there are twice as many commands as records, there is one record for
    each change with a path in the commits walked, and every command is a
    git diff on a non-empty list of paths, run in the checkout, with the
    myers or the histogram algorithm. *)
Theorem two_commands_per_record :
  forall spec max_commits commits,
    let result := analyze_commits subprocess_run set_order spec max_commits 0 commits [] in
    length (events result) = (2 * length (rows_of result))%nat
    /\ length (rows_of result)
       = length (filter (fun m => match paths_of set_order m with
                                  | [] => false
                                  | _ :: _ => true
                                  end)
                        (flat_map modified_files (processed max_commits 0 commits)))
    /\ (forall e, In e (events result) ->
          exists parent_sha commit_sha paths algorithm,
            e = Exec (diff_cmd parent_sha commit_sha paths algorithm) (Some (path spec))
            /\ paths <> []
            /\ (algorithm = "myers" \/ algorithm = "histogram")).
Proof.
  clear checkout.
  intros spec max_commits commits result. subst result.
  rewrite analyze_commits_acc. unfold events, rows_of, outcome. cbn [fst snd app].
  assert (Hfile : forall c psha m,
             length (file_events subprocess_run set_order spec c psha m)
             = (2 * length (file_rows subprocess_run set_order spec c psha m))%nat
             /\ length (file_rows subprocess_run set_order spec c psha m)
                = if match paths_of set_order m with [] => false | _ :: _ => true end
                  then 1%nat else 0%nat).
  { intros c psha m. unfold file_events, file_rows, rows_of, events, outcome, analyze_file.
    destruct (paths_of set_order m); split; reflexivity. }
  split; [|split].
  - induction (processed max_commits 0 commits) as [|c cs IH]; [reflexivity|].
    cbn [flat_map]. rewrite !length_app, IH.
    unfold commit_events, commit_rows.
    induction (modified_files c) as [|m ms IHm]; [cbn; lia|].
    cbn [flat_map]. rewrite !length_app.
    destruct (Hfile c (parent_sha_of c) m) as [-> _]. lia.
  - induction (processed max_commits 0 commits) as [|c cs IH]; [reflexivity|].
    cbn [flat_map]. rewrite filter_app, !length_app, IH. f_equal.
    unfold commit_rows.
    induction (modified_files c) as [|m ms IHm]; [reflexivity|].
    cbn [flat_map filter]. rewrite length_app, IHm.
    destruct (Hfile c (parent_sha_of c) m) as [_ ->].
    destruct (paths_of set_order m); reflexivity.
  - intros e Hin.
    apply in_flat_map in Hin as [c [_ Hin]].
    apply in_flat_map in Hin as [m [_ Hin]].
    unfold file_events, events, analyze_file in Hin.
    destruct (paths_of set_order m) as [|p ps] eqn:E; [destruct Hin|].
    cbn in Hin. destruct Hin as [<-|[<-|[]]];
      exists (parent_sha_of c), (hash c), (p :: ps); eexists;
      (split; [reflexivity|split; [discriminate|tauto]]).
Qed.

End RecordFacts.

(** ** More on the aggregation *)

Lemma zsum_app (l1 l2 : list Z) : zsum (l1 ++ l2) = (zsum l1 + zsum l2)%Z.
Proof. unfold zsum. induction l1 as [|x l1 IH]; cbn; lia. Qed.

Lemma zsum_map_add {A} (f g : A -> Z) (l : list A) :
  zsum (map (fun x => (f x + g x)%Z) l) = (zsum (map f l) + zsum (map g l))%Z.
Proof. unfold zsum. induction l as [|x l IH]; cbn; lia. Qed.

Lemma zsum_map_ext {A} (f g : A -> Z) (l : list A) :
  (forall x, In x l -> f x = g x) -> zsum (map f l) = zsum (map g l).
Proof.
  intros H. unfold zsum. induction l as [|x l IH]; [reflexivity|]. cbn.
  rewrite (H x (or_introl eq_refl)), IH; [reflexivity|].
  intros y Hy. apply H. now right.
Qed.

Lemma zsum_map_zero {A} (l : list A) : zsum (map (fun _ => 0%Z) l) = 0%Z.
Proof. unfold zsum. induction l as [|x l IH]; cbn; lia. Qed.

(** Over a list without repeats, the indicator of one label sums to 1
    when the label is in the list and to 0 otherwise. *)
Lemma zsum_indicator (x : string) (v : Z) (l : list string) :
  NoDup l ->
  zsum (map (fun a => if String.eqb a x then v else 0%Z) l)
  = if PyStr.mem x l then v else 0%Z.
Proof.
  unfold PyStr.mem. induction 1 as [|a l Hnin Hnd IH]; [reflexivity|].
  cbn [map existsb]. change (zsum (?h :: ?t)) with (h + zsum t)%Z. rewrite IH.
  rewrite (String.eqb_sym x a).
  destruct (String.eqb_spec a x) as [->|Hne]; cbn [orb]; [|lia].
  replace (existsb (String.eqb x) l) with false; [lia|].
  symmetry. apply not_true_iff_false. intros H. apply existsb_exists in H as [y [Hy E]].
  apply String.eqb_eq in E. subst y. contradiction.
Qed.

Lemma count_key_cons (k x : string * string) (ks : list (string * string)) :
  count_key k (x :: ks)
  = ((if pair_eqb k x then 1 else 0) + count_key k ks)%Z.
Proof. unfold count_key. cbn [filter]. destruct (pair_eqb k x); cbn [length]; lia. Qed.

Lemma mem_In (x : string) (l : list string) : PyStr.mem x l = true <-> In x l.
Proof.
  unfold PyStr.mem. rewrite existsb_exists. split.
  - intros [y [Hy E]]. apply String.eqb_eq in E. now subst.
  - intros H. exists x. split; [exact H|apply String.eqb_refl].
Qed.

(** The cells of a grid of distinct labels that covers all the pairs add up
    to the number of pairs. *)
Lemma grid_total (ks : list (string * string)) (idx cols : list string) :
  NoDup idx -> NoDup cols ->
  (forall k, In k ks -> In (fst k) idx /\ In (snd k) cols) ->
  zsum (map (fun a => zsum (map (fun b => count_key (a, b) ks) cols)) idx)
  = Z.of_nat (length ks).
Proof.
  intros Hi Hc. induction ks as [|[x1 x2] ks IH]; intros Hcover.
  - cbn [length]. rewrite <- (zsum_map_zero idx) at 1. apply zsum_map_ext.
    intros a _. apply zsum_map_zero.
  - destruct (Hcover (x1, x2) (or_introl eq_refl)) as [H1 H2]. cbn [fst snd] in H1, H2.
    rewrite (zsum_map_ext _
               (fun a => ((if String.eqb a x1 then 1 else 0)
                          + zsum (map (fun b => count_key (a, b) ks) cols))%Z)).
    + rewrite zsum_map_add, IH by (intros k Hk; apply Hcover; now right).
      rewrite (zsum_indicator x1 1 idx Hi), (proj2 (mem_In x1 idx) H1).
      cbn [length]. lia.
    + intros a _.
      rewrite (zsum_map_ext _
                 (fun b => ((if String.eqb b x2 then (if String.eqb a x1 then 1 else 0) else 0)
                            + count_key (a, b) ks)%Z)).
      * rewrite zsum_map_add.
        rewrite (zsum_indicator x2 _ cols Hc), (proj2 (mem_In x2 cols) H2). reflexivity.
      * intros b _. rewrite count_key_cons. unfold pair_eqb. cbn [fst snd].
        destruct (String.eqb a x1), (String.eqb b x2); reflexivity.
Qed.

Section AggregationMore.

Variable subprocess_run : list string -> option string -> CompletedProcess.
Variable checkout : string -> list Commit.
Variable set_order : string -> string -> bool.

Local Abbreviation dataset := (run_dataset subprocess_run checkout set_order).

Lemma dataset_records specs max_commits include_merges row :
  In row (dataset specs max_commits include_merges) ->
  exists spec,
    In spec specs
    /\ In row (run_rows subprocess_run checkout set_order spec max_commits include_merges).
Proof. unfold run_dataset. intros H. apply in_flat_map in H. exact H. Qed.

(** What [build_and_save] does when the run has a record. *)
Lemma build_and_save_with_records specs max_commits out_csv include_merges file :
  dataset specs max_commits include_merges <> [] ->
  PathLib.with_name out_csv (String.append (PathLib.stem out_csv) "_stats.csv")
  = Some file ->
  build_and_save subprocess_run checkout set_order specs max_commits out_csv include_merges
  = (flat_map (fun spec =>
                 events (analyze_repo subprocess_run checkout set_order
                           spec max_commits include_merges)) specs
     ++ [ WriteDataset out_csv ROW_KEYS
            (map (fun r => map (fun c => cell_text c r) ROW_KEYS)
                 (dataset specs max_commits include_merges));
          WriteStats file (table_of (dataset specs max_commits include_merges)) ],
     inr tt).
Proof.
  intros Hne Hfile.
  set (frame := fun spec =>
         of_rows (run_rows subprocess_run checkout set_order spec max_commits include_merges)).
  assert (Hcols : forall d, In d (map frame specs) -> columns d = [] \/ columns d = ROW_KEYS).
  { intros d Hd. apply in_map_iff in Hd as [spec [<- _]]. unfold frame.
    rewrite of_rows_columns by (intros r; apply run_rows_keys).
    destruct (run_rows _ _ _ _ _ _); [now left|now right]. }
  assert (Hsome : exists d, In d (map frame specs) /\ columns d = ROW_KEYS).
  { destruct (dataset specs max_commits include_merges) as [|row rows] eqn:E; [congruence|].
    assert (Hin : In row (dataset specs max_commits include_merges))
      by (rewrite E; now left).
    apply dataset_records in Hin as [spec [Hs Hr]].
    exists (frame spec). split; [now apply in_map|].
    unfold frame. rewrite of_rows_columns by (intros r; apply run_rows_keys).
    destruct (run_rows _ _ _ _ _ _); [destruct Hr|reflexivity]. }
  set (full := {| columns := ROW_KEYS;
                  records := dataset specs max_commits include_merges |}).
  assert (Hconcat : concat (map frame specs) = ret full).
  { destruct specs as [|spec specs]; [now destruct Hsome as [d [[] _]]|].
    unfold concat. change (map frame (spec :: specs)) with (frame spec :: map frame specs).
    cbv iota. unfold ret, full. do 3 f_equal.
    - apply (fold_add_new_some ROW_KEYS columns);
        [discriminate|reflexivity|reflexivity|exact Hcols|exact Hsome].
    - change (frame spec :: map frame specs) with (map frame (spec :: specs)).
      unfold run_dataset. now rewrite flat_map_map. }
  unfold build_and_save.
  rewrite (bind_value _ _ _ _
             (analyze_all_acc subprocess_run checkout set_order
                specs max_commits include_merges [])).
  cbn [app]. fold frame. rewrite Hconcat, bind_ret_l.
  unfold to_csv, emit. cbn [bind columns records full].
  rewrite (summarize_table full eq_refl eq_refl).
  unfold stats_file. rewrite Hfile. cbn.
  unfold events, outcome. cbn. reflexivity.
Qed.


Lemma dataset_line spec max_commits include_merges row :
  In row (run_rows subprocess_run checkout set_order spec max_commits include_merges) ->
  map (fun c => cell_text c row) ROW_KEYS = map (fun kv => value_text (snd kv)) row.
Proof.
  intros Hin. apply run_rows_origin in Hin as (c & m & _ & _ & Hin).
  apply file_rows_explicit in Hin as [_ ->]. reflexivity.
Qed.

Lemma dataset_keys specs max_commits include_merges :
  length (keys_of "file_type" "Discrepancy" (dataset specs max_commits include_merges))
  = length (dataset specs max_commits include_merges).
Proof.
  assert (H : forall row, In row (dataset specs max_commits include_merges) ->
                exists k, group_key "file_type" "Discrepancy" row = Some k).
  { intros row Hin. apply dataset_records in Hin as [spec [_ Hin]].
    apply run_rows_origin in Hin as (c & m & _ & _ & Hin).
    apply file_rows_explicit in Hin as [_ ->]. eexists. reflexivity. }
  induction (dataset specs max_commits include_merges) as [|row rows IH]; [reflexivity|].
  cbn [keys_of]. destruct (H row (or_introl eq_refl)) as [k ->]. cbn [length]. f_equal.
  apply IH. intros r Hr. apply H. now right.
Qed.

(** The events of [build_and_save] when the run has a record, whatever
    becomes of the name of the summary file. *)
Lemma build_and_save_events specs max_commits out_csv include_merges :
  dataset specs max_commits include_merges <> [] ->
  events (build_and_save subprocess_run checkout set_order
            specs max_commits out_csv include_merges)
  = flat_map (fun spec =>
                events (analyze_repo subprocess_run checkout set_order
                          spec max_commits include_merges)) specs
    ++ WriteDataset out_csv ROW_KEYS
         (map (fun r => map (fun c => cell_text c r) ROW_KEYS)
              (dataset specs max_commits include_merges))
       :: match PathLib.with_name out_csv
                  (String.append (PathLib.stem out_csv) "_stats.csv") with
          | Some file => [WriteStats file (table_of (dataset specs max_commits include_merges))]
          | None => []
          end.
Proof.
  intros Hne.
  destruct (PathLib.with_name out_csv (String.append (PathLib.stem out_csv) "_stats.csv"))
    as [file|] eqn:Hfile.
  { now rewrite (build_and_save_with_records _ _ _ _ _ Hne Hfile). }
  set (frame := fun spec =>
         of_rows (run_rows subprocess_run checkout set_order spec max_commits include_merges)).
  assert (Hcols : forall d, In d (map frame specs) -> columns d = [] \/ columns d = ROW_KEYS).
  { intros d Hd. apply in_map_iff in Hd as [spec [<- _]]. unfold frame.
    rewrite of_rows_columns by (intros r; apply run_rows_keys).
    destruct (run_rows _ _ _ _ _ _); [now left|now right]. }
  assert (Hsome : exists d, In d (map frame specs) /\ columns d = ROW_KEYS).
  { destruct (dataset specs max_commits include_merges) as [|row rows] eqn:E; [congruence|].
    assert (Hin : In row (dataset specs max_commits include_merges))
      by (rewrite E; now left).
    apply dataset_records in Hin as [spec [Hs Hr]].
    exists (frame spec). split; [now apply in_map|].
    unfold frame. rewrite of_rows_columns by (intros r; apply run_rows_keys).
    destruct (run_rows _ _ _ _ _ _); [destruct Hr|reflexivity]. }
  set (full := {| columns := ROW_KEYS;
                  records := dataset specs max_commits include_merges |}).
  assert (Hconcat : concat (map frame specs) = ret full).
  { destruct specs as [|spec specs]; [now destruct Hsome as [d [[] _]]|].
    unfold concat. change (map frame (spec :: specs)) with (frame spec :: map frame specs).
    cbv iota. unfold ret, full. do 3 f_equal.
    - apply (fold_add_new_some ROW_KEYS columns);
        [discriminate|reflexivity|reflexivity|exact Hcols|exact Hsome].
    - change (frame spec :: map frame specs) with (map frame (spec :: specs)).
      unfold run_dataset. now rewrite flat_map_map. }
  unfold build_and_save.
  rewrite (bind_value _ _ _ _
             (analyze_all_acc subprocess_run checkout set_order
                specs max_commits include_merges [])).
  cbn [app]. fold frame. rewrite Hconcat, bind_ret_l.
  unfold to_csv, emit. cbn [bind columns records full].
  rewrite (summarize_table full eq_refl eq_refl).
  unfold stats_file. rewrite Hfile. cbn.
  unfold events. cbn. reflexivity.
Qed.

Lemma dataset_writes_app (l1 l2 : list Event) :
  dataset_writes (l1 ++ l2) = (dataset_writes l1 ++ dataset_writes l2)%list.
Proof. apply flat_map_app. Qed.

Lemma dataset_writes_commands specs max_commits include_merges :
  dataset_writes
    (flat_map (fun spec =>
                 events (analyze_repo subprocess_run checkout set_order
                           spec max_commits include_merges)) specs)
  = [].
Proof.
  apply flat_map_nil. intros e Hin.
  apply in_flat_map in Hin as [spec [_ Hin]].
  rewrite analyze_repo_eq in Hin. unfold events in Hin. cbn [fst] in Hin.
  apply in_flat_map in Hin as [c [_ Hin]].
  apply in_flat_map in Hin as [m [_ Hin]].
  apply file_events_shape in Hin as [alg ->]. reflexivity.
Qed.

(** X12.  The dataset of a run that has a record, as [build_and_save]
    hands it to the writer: there is one, for [out_csv]; its header is
    the ten keys; its lines are those of the records of the first
    repository given, then those of the second, and so on, one line per
    record with none merged or dropped; each line holds the ten strings
    of its record.  (Whether the writer succeeds, and what runs before
    and after it, is not part of this statement.) *)
Theorem dataset_file_layout :
  forall specs max_commits out_csv include_merges,
    dataset specs max_commits include_merges <> [] ->
    let lines :=
      flat_map (fun spec =>
                  map (fun row => map (fun kv => value_text (snd kv)) row)
                      (run_rows subprocess_run checkout set_order
                         spec max_commits include_merges)) specs in
    dataset_writes
      (events (build_and_save subprocess_run checkout set_order
                 specs max_commits out_csv include_merges))
    = [(out_csv, ROW_KEYS, lines)]
    /\ length lines
       = list_sum (map (fun spec =>
                          length (run_rows subprocess_run checkout set_order
                                    spec max_commits include_merges)) specs)
    /\ (forall line, In line lines -> length line = length ROW_KEYS).
Proof.
  intros specs max_commits out_csv include_merges Hne lines.
  split; [|split].
  - rewrite (build_and_save_events _ _ _ _ Hne), dataset_writes_app.
    rewrite dataset_writes_commands. cbn [app].
    change (dataset_writes (?e :: ?l)) with
      (match e with
       | WriteDataset file header body => [(file, header, body)]
       | _ => []
       end ++ dataset_writes l)%list.
    cbv iota.
    replace (dataset_writes _) with (@nil (string * list string * list (list string)))
      by (destruct (PathLib.with_name _ _); reflexivity).
    cbn [app]. do 2 f_equal. subst lines. unfold run_dataset.
    clear Hne. induction specs as [|spec specs IH]; [reflexivity|].
    cbn [flat_map]. rewrite map_app, IH. f_equal.
    apply map_ext_in. intros row Hin. exact (dataset_line _ _ _ _ Hin).
  - subst lines. clear Hne. induction specs as [|spec specs IH]; [reflexivity|].
    cbn [flat_map map list_sum]. now rewrite length_app, length_map, IH.
  - intros line Hin. subst lines.
    apply in_flat_map in Hin as [spec [_ Hin]].
    apply in_map_iff in Hin as [row [<- Hin]]. rewrite length_map.
    now rewrite <- (run_rows_keys _ _ _ _ _ _ _ Hin), length_map.
Qed.

(** X13.  The summary written for a run with a record counts every
    record once: its cells add up to the number of records; its row and
    column labels are in ascending order, and it has a line of cells per
    row label and a cell per column label. *)
Theorem summary_accounts_for_every_record :
  forall specs max_commits out_csv include_merges file,
    dataset specs max_commits include_merges <> [] ->
    PathLib.with_name out_csv (String.append (PathLib.stem out_csv) "_stats.csv")
    = Some file ->
    exists events_before table,
      build_and_save subprocess_run checkout set_order
        specs max_commits out_csv include_merges
      = (events_before ++ [WriteStats file table], inr tt)
      /\ table_total table = Z.of_nat (length (dataset specs max_commits include_merges))
      /\ StronglySorted (fun a b => String.ltb a b = true) (stats_index table)
      /\ StronglySorted (fun a b => String.ltb a b = true) (stats_columns table)
      /\ (forall line, In line (stats_cells table) ->
            length line = length (stats_columns table))
      /\ length (stats_cells table) = length (stats_index table).
Proof.
  intros specs max_commits out_csv include_merges file Hne Hfile.
  eexists (_ ++ [_]), _. split.
  { rewrite (build_and_save_with_records _ _ _ _ _ Hne Hfile).
    rewrite <- app_assoc. reflexivity. }
  unfold table_of. cbv zeta. cbn [stats_index stats_columns stats_cells].
  split; [|split; [|split; [|split]]].
  - unfold table_total. cbn [stats_cells]. rewrite map_map.
    rewrite <- dataset_keys. apply grid_total.
    + apply sorted_NoDup, sorted_unique_sorted.
    + apply sorted_NoDup, sorted_unique_sorted.
    + intros k Hk. split; apply sorted_unique_In, in_map; exact Hk.
  - apply sorted_unique_sorted.
  - apply sorted_unique_sorted.
  - intros line Hin. apply in_map_iff in Hin as [c [<- _]]. now rewrite length_map.
  - now rewrite length_map.
Qed.

End AggregationMore.

(** ** The name of a repository *)

Lemma rstrip_char_snoc (c : ascii) (s : string) :
  PyStr.rstrip_char c (s ++ String c "") = PyStr.rstrip_char c s.
Proof.
  induction s as [|a s IH]; cbn [append PyStr.rstrip_char].
  - now rewrite Ascii.eqb_refl.
  - now rewrite IH.
Qed.

Lemma rstrip_char_absent (c : ascii) (s : string) :
  has_char c s = false -> PyStr.rstrip_char c s = s.
Proof.
  induction s as [|a s IH]; [reflexivity|]. cbn [has_char PyStr.rstrip_char].
  intros H. apply orb_false_iff in H as [Ha Hs]. rewrite (IH Hs).
  destruct s; [now rewrite Ha|reflexivity].
Qed.

Lemma rstrip_char_app (c : ascii) (a b : string) :
  PyStr.rstrip_char c b <> "" ->
  PyStr.rstrip_char c (a ++ b) = (a ++ PyStr.rstrip_char c b)%string.
Proof.
  intros Hb. induction a as [|x a IH]; [reflexivity|].
  cbn [append PyStr.rstrip_char]. rewrite IH.
  destruct (a ++ PyStr.rstrip_char c b)%string eqn:E; [|reflexivity].
  destruct a; [contradiction|discriminate].
Qed.

Lemma split_segments_no_sep (sep : ascii) (s seg : string) :
  In seg (PyStr.split sep s) -> has_char sep seg = false.
Proof.
  revert seg. induction s as [|c s IH]; intros seg; cbn [PyStr.split].
  - intros [<-|[]]. reflexivity.
  - destruct (Ascii.eqb c sep) eqn:E.
    + intros [<-|H]; [reflexivity|now apply IH].
    + destruct (PyStr.split sep s) as [|seg0 segs] eqn:Es.
      * intros [<-|[]]. cbn. now rewrite E.
      * intros [<-|H].
        -- cbn [has_char]. rewrite E. apply IH. now left.
        -- apply IH. now right.
Qed.

Lemma last_In {A} (l : list A) (d : A) : l <> [] -> In (last l d) l.
Proof.
  induction l as [|x l IH]; [congruence|]. intros _.
  destruct l as [|y l]; [now left|]. right. apply IH. discriminate.
Qed.

(** Removing a substring brings in no character. *)
Lemma replace_from_chars (old : string) (c : ascii) (skip : nat) (s : string) :
  has_char c s = false -> has_char c (PyStr.replace_from old "" skip s) = false.
Proof.
  revert skip. induction s as [|a s IH]; intros skip; [reflexivity|].
  cbn [has_char PyStr.replace_from]. intros H. apply orb_false_iff in H as [Ha Hs].
  destruct skip; [|now apply IH].
  destruct (PyStr.startswith old (String a s)); cbn [append has_char];
    [|rewrite Ha]; now apply IH.
Qed.

(** Where the substring does not start, nothing is removed. *)
Lemma replace_keeps_dotless (b rest : string) :
  has_char "."%char b = false ->
  PyStr.replace ".git" "" (b ++ rest) = (b ++ PyStr.replace ".git" "" rest)%string.
Proof.
  unfold PyStr.replace. induction b as [|a b IH]; [reflexivity|].
  cbn [has_char append]. intros H. apply orb_false_iff in H as [Ha Hb].
  cbn [PyStr.replace_from PyStr.startswith].
  rewrite (Ascii.eqb_sym "."%char a), Ha. cbn [andb]. now rewrite IH.
Qed.

Lemma replace_git_here (rest : string) :
  PyStr.replace ".git" "" (".git" ++ rest) = PyStr.replace ".git" "" rest.
Proof. reflexivity. Qed.

Lemma append_empty_r (s : string) : (s ++ "")%string = s.
Proof. induction s as [|a s IH]; cbn; congruence. Qed.

Lemma replace_dotless (b : string) :
  has_char "."%char b = false -> PyStr.replace ".git" "" b = b.
Proof.
  intros H. rewrite <- (append_empty_r b) at 1.
  rewrite (replace_keeps_dotless b "" H). cbn. now rewrite append_empty_r.
Qed.

(** The name is read off the last segment of the address. *)
Lemma repo_name_of_segment (url base : string) :
  has_char "/"%char base = false -> base <> "" ->
  repo_name (url ++ "/" ++ base) = PyStr.replace ".git" "" base.
Proof.
  intros Hs Hne. unfold repo_name.
  assert (Hb : PyStr.rstrip_char "/"%char base = base) by now apply rstrip_char_absent.
  change (url ++ "/" ++ base)%string with (url ++ String "/"%char base)%string.
  assert (Hr : PyStr.rstrip_char "/"%char (String "/"%char base) = String "/"%char base).
  { cbn [PyStr.rstrip_char]. rewrite Hb. destruct base; [contradiction|reflexivity]. }
  rewrite rstrip_char_app by (rewrite Hr; discriminate).
  rewrite Hr, split_app_sep, (split_no_sep _ _ Hs), last_last. reflexivity.
Qed.

(** X15.  The directory name of a repository holds no slash, does not
    change when a slash is added at the end of the address, and depends
    only on the last segment of the address: two addresses with the same
    last segment share a directory. *)
Theorem repo_name_last_segment :
  forall url : string,
    has_char "/"%char (repo_name url) = false
    /\ repo_name (url ++ "/") = repo_name url
    /\ (forall base,
          has_char "/"%char base = false -> base <> "" ->
          repo_name (url ++ "/" ++ base) = PyStr.replace ".git" "" base).
Proof.
  intros url. split; [|split].
  - unfold repo_name. apply replace_from_chars.
    apply (split_segments_no_sep "/"%char (PyStr.rstrip_char "/"%char url)).
    apply last_In, split_nonempty.
  - unfold repo_name. now rewrite rstrip_char_snoc.
  - intros base Hs Hne. now apply repo_name_of_segment.
Qed.

(** X16.  For a last segment without dots the name is the segment, and
    with .git added it is the segment too; but .git is taken out
    wherever it stands, so that my.github gives myhub. *)
Theorem repo_name_drops_dot_git :
  forall url stem rest : string,
    has_char "/"%char stem = false -> has_char "."%char stem = false ->
    has_char "/"%char rest = false -> has_char "."%char rest = false ->
    stem <> "" ->
    repo_name (url ++ "/" ++ stem) = stem
    /\ repo_name (url ++ "/" ++ stem ++ ".git") = stem
    /\ repo_name (url ++ "/" ++ stem ++ ".git" ++ rest) = (stem ++ rest)%string.
Proof.
  intros url stem rest Hs1 Hd1 Hs2 Hd2 Hne.
  assert (Hslash : forall r, has_char "/"%char r = false ->
                        has_char "/"%char (stem ++ r) = false).
  { intros r Hr. clear Hne Hd1. induction stem as [|a stem IH]; [exact Hr|].
    cbn [has_char append] in *. apply orb_false_iff in Hs1 as [Ha Hs1].
    rewrite Ha. now apply IH. }
  assert (Hnonempty : forall r, (stem ++ r)%string <> "")
    by (intros r; destruct stem; [contradiction|discriminate]).
  pose proof (repo_name_of_segment url) as Hlast.
  split; [|split].
  - rewrite (Hlast stem Hs1 Hne). now apply replace_dotless.
  - rewrite (Hlast (stem ++ ".git")%string (Hslash ".git" eq_refl) (Hnonempty _)).
    rewrite (replace_keeps_dotless stem ".git" Hd1). cbn. now rewrite append_empty_r.
  - rewrite (Hlast (stem ++ ".git" ++ rest)%string (Hslash (".git" ++ rest)%string Hs2)
               (Hnonempty _)).
    rewrite (replace_keeps_dotless stem (".git" ++ rest) Hd1), replace_git_here.
    now rewrite (replace_dotless rest Hd2).
Qed.

(** ** Source files *)

Lemma rfind_absent (c : ascii) (s : string) :
  has_char c s = false -> PyStr.rfind c s = None.
Proof.
  induction s as [|a s IH]; [reflexivity|]. cbn [has_char PyStr.rfind].
  intros H. apply orb_false_iff in H as [Ha Hs]. now rewrite (IH Hs), Ha.
Qed.

Lemma rfind_last_dot (stem e : string) :
  has_char "."%char e = false ->
  PyStr.rfind "."%char (stem ++ String "."%char e) = Some (String.length stem).
Proof.
  intros He. induction stem as [|a stem IH]; cbn [append PyStr.rfind String.length].
  - now rewrite (rfind_absent _ _ He).
  - now rewrite IH.
Qed.

Lemma length_append (a b : string) :
  String.length (a ++ b) = (String.length a + String.length b)%nat.
Proof. induction a as [|x a IH]; cbn; congruence. Qed.

Lemma has_char_app (c : ascii) (a b : string) :
  has_char c (a ++ b) = has_char c a || has_char c b.
Proof.
  induction a as [|x a IH]; [reflexivity|]. cbn. now rewrite IH, orb_assoc.
Qed.

(** Every recognised extension is a dot and a non-empty word without dot
    or slash. *)
Lemma source_ext_shape (x : string) :
  In x SOURCE_EXTS ->
  exists e, x = String "."%char e /\ e <> "" /\ has_char "."%char e = false
            /\ has_char "/"%char e = false.
Proof.
  unfold SOURCE_EXTS. intros H.
  repeat (destruct H as [<-|H];
          [eexists; split; [reflexivity|];
           split; [discriminate|split; reflexivity]|]).
  destruct H.
Qed.

(** The suffix of [dir/stem.e]. *)
Lemma suffix_of_join (dir stem e : string) :
  has_char "/"%char stem = false -> stem <> "" ->
  has_char "/"%char e = false -> has_char "."%char e = false -> e <> "" ->
  PathLib.suffix (dir ++ String "/"%char (stem ++ String "."%char e)) = String "."%char e
  /\ PathLib.suffix (stem ++ String "."%char e) = String "."%char e.
Proof.
  intros Hs Hne Hse Hde Hee.
  assert (Hslash : has_char "/"%char (stem ++ String "."%char e) = false).
  { rewrite has_char_app, Hs. cbn. exact Hse. }
  assert (H1 : (stem ++ String "."%char e)%string <> "")
    by (destruct stem; [contradiction|discriminate]).
  assert (H2 : (stem ++ String "."%char e)%string <> ".").
  { destruct stem as [|a stem]; [contradiction|]. cbn. intros H. injection H as _ H.
    destruct stem; discriminate. }
  assert (Hsuf : forall n, n = (stem ++ String "."%char e)%string ->
                   match PyStr.rfind "."%char n with
                   | Some i =>
                       if (0 <? i)%nat && (i <? String.length n - 1)%nat
                       then PyStr.drop i n else ""
                   | None => ""
                   end = String "."%char e).
  { intros n ->. rewrite (rfind_last_dot stem e Hde), length_append.
    cbn [String.length].
    replace ((0 <? String.length stem)%nat) with true
      by (symmetry; apply Nat.ltb_lt; destruct stem; [contradiction|cbn; lia]).
    replace ((String.length stem <? String.length stem + S (String.length e) - 1)%nat)
      with true
      by (symmetry; apply Nat.ltb_lt; destruct e; [contradiction|cbn; lia]).
    cbn [andb]. apply drop_app. }
  unfold PathLib.suffix. split.
  - rewrite (name_of_join dir _ Hslash H1 H2). now apply Hsuf.
  - rewrite (name_of_base _ Hslash H1 H2). now apply Hsuf.
Qed.

(** X3.  A file whose name is a non-empty stem followed by a recognised
    extension, in any letter case, is source code for [is_source_code], in
    any directory and in none. *)
Theorem source_extension_recognised :
  forall dir stem ext : string,
    has_char "/"%char stem = false -> stem <> "" ->
    In (PyStr.lower ext) SOURCE_EXTS ->
    is_source_code (Some (dir ++ "/" ++ stem ++ ext)%string) = true
    /\ is_source_code (Some (stem ++ ext)%string) = true.
Proof.
  intros dir stem ext Hs Hne Hin.
  destruct (source_ext_shape _ Hin) as (e & He & Hee & Hde & Hse).
  assert (Hs' : has_char "/"%char (PyStr.lower stem) = false) by now rewrite has_char_lower.
  assert (Hne' : PyStr.lower stem <> "") by (destruct stem; [contradiction|discriminate]).
  destruct (suffix_of_join (PyStr.lower dir) (PyStr.lower stem) e Hs' Hne' Hse Hde Hee)
    as [H1 H2].
  assert (Hmem : PyStr.mem (PyStr.lower (String "."%char e)) SOURCE_EXTS = true).
  { rewrite <- He, lower_idem. now apply mem_In. }
  split.
  - rewrite <- is_source_code_lower.
    change (dir ++ "/" ++ stem ++ ext)%string with (dir ++ String "/"%char (stem ++ ext))%string.
    rewrite lower_app. change (PyStr.lower (String "/"%char (stem ++ ext)))
      with (String "/"%char (PyStr.lower (stem ++ ext))).
    rewrite lower_app, He. unfold is_source_code.
    replace (PyStr.truthy _) with true by (destruct (PyStr.lower dir); reflexivity).
    cbn [negb]. now rewrite H1.
  - rewrite <- is_source_code_lower, lower_app, He. unfold is_source_code.
    replace (PyStr.truthy _) with true
      by (destruct (PyStr.lower stem); [contradiction|reflexivity]).
    cbn [negb]. now rewrite H2.
Qed.

(** X4.  A name without a dot after its first character has no suffix
    and is no source code, whatever the directory: Makefile is not, and
    neither are .sh or .bash, named like an extension. *)
Theorem no_suffix_no_source :
  forall dir name : string,
    has_char "/"%char name = false -> name <> "" -> name <> "." ->
    has_char "."%char (PyStr.drop 1 name) = false ->
    is_source_code (Some (dir ++ "/" ++ name)%string) = false
    /\ is_source_code (Some name) = false.
Proof.
  intros dir name Hs Hne Hnd Hdot.
  assert (Hsuf : match PyStr.rfind "."%char name with
                 | Some i =>
                     if (0 <? i)%nat && (i <? String.length name - 1)%nat
                     then PyStr.drop i name else ""
                 | None => ""
                 end = "").
  { destruct name as [|a name]; [reflexivity|]. cbn [PyStr.drop] in Hdot.
    cbn [PyStr.rfind]. rewrite (rfind_absent _ _ Hdot).
    destruct (Ascii.eqb a "."%char); reflexivity. }
  unfold is_source_code, PathLib.suffix.
  change (dir ++ "/" ++ name)%string with (dir ++ String "/"%char name)%string.
  rewrite (name_of_join dir name Hs Hne Hnd), (name_of_base name Hs Hne Hnd), Hsuf.
  split.
  - destruct (PyStr.truthy _); reflexivity.
  - destruct (PyStr.truthy _); reflexivity.
Qed.

(** ** The name of the summary file *)

Lemma parts_proper (p seg : string) : In seg (PathLib.parts p) -> proper seg.
Proof.
  unfold PathLib.parts. intros H. apply filter_In in H as [Hin Hf].
  apply andb_true_iff in Hf as [H1 H2].
  apply negb_true_iff, String.eqb_neq in H1, H2.
  split; [|now split]. exact (split_segments_no_sep _ _ _ Hin).
Qed.

Lemma split_concat (l : list string) :
  l <> [] -> (forall seg, In seg l -> has_char "/"%char seg = false) ->
  PyStr.split "/"%char (String.concat "/" l) = l.
Proof.
  induction l as [|x l IH]; [congruence|]. intros _ H.
  destruct l as [|y l].
  - cbn [String.concat]. apply split_no_sep. apply H. now left.
  - change (String.concat "/" (x :: y :: l))
      with (x ++ String "/"%char (String.concat "/" (y :: l)))%string.
    rewrite split_app_sep, (split_no_sep _ x) by (apply H; now left).
    cbn [app]. f_equal. apply IH; [discriminate|]. intros seg Hs. apply H. now right.
Qed.

Lemma filter_proper (l : list string) :
  (forall seg, In seg l -> proper seg) ->
  filter (fun seg => negb (String.eqb seg "") && negb (String.eqb seg ".")) l = l.
Proof.
  induction l as [|x l IH]; [reflexivity|]. intros H. cbn [filter].
  destruct (H x (or_introl eq_refl)) as (_ & H1 & H2).
  apply String.eqb_neq in H1, H2. rewrite H1, H2. cbn. f_equal.
  apply IH. intros seg Hs. apply H. now right.
Qed.

(** The components of a path written from a root and proper components
    are those components. *)
Lemma parts_of_written (r : string) (l : list string) :
  r = "" \/ r = "/" \/ r = "//" ->
  l <> [] -> (forall seg, In seg l -> proper seg) ->
  PathLib.parts (String.append r (String.concat "/" l)) = l.
Proof.
  intros Hr Hl Hp. unfold PathLib.parts.
  assert (Hs : PyStr.split "/"%char (String.concat "/" l) = l).
  { apply split_concat; [exact Hl|]. intros seg Hin. now destruct (Hp seg Hin). }
  destruct Hr as [->|[->| ->]]; cbn [String.append append PyStr.split];
    rewrite ?Ascii.eqb_refl; cbn [filter String.eqb negb andb];
    rewrite Hs; now apply filter_proper.
Qed.

Lemma root_cases (p : string) : PathLib.root p = "" \/ PathLib.root p = "/" \/ PathLib.root p = "//".
Proof.
  unfold PathLib.root.
  destruct p as [|a [|b [|c p]]]; repeat (destruct (Ascii.eqb _ _)); cbn; tauto.
Qed.

Lemma substring_all (s : string) : substring 0 (String.length s) s = s.
Proof. induction s as [|a s IH]; cbn; congruence. Qed.

Lemma substring_drop (i : nat) (s : string) :
  (i <= String.length s)%nat ->
  (substring 0 i s ++ PyStr.drop i s)%string = s.
Proof.
  revert s. induction i as [|i IH]; intros s H.
  - destruct s; reflexivity.
  - destruct s as [|a s]; [cbn in H; lia|]. cbn. f_equal. apply IH. cbn in H. lia.
Qed.

Lemma drop_length (i : nat) (s : string) :
  String.length (PyStr.drop i s) = (String.length s - i)%nat.
Proof.
  revert s. induction i as [|i IH]; intros s; [cbn; lia|].
  destruct s as [|a s]; [reflexivity|]. cbn. apply IH.
Qed.

(** A name is its stem followed by its suffix, and the suffix is empty or
    starts with a dot. *)
Lemma stem_suffix (p : string) :
  (PathLib.stem p ++ PathLib.suffix p)%string = PathLib.name p
  /\ (PathLib.suffix p = "" \/ exists e, PathLib.suffix p = String "."%char e).
Proof.
  unfold PathLib.stem, PathLib.suffix. set (n := PathLib.name p).
  destruct (PyStr.rfind "."%char n) as [i|] eqn:E.
  - destruct ((0 <? i)%nat && (i <? String.length n - 1)%nat) eqn:C.
    + apply andb_true_iff in C as [C1 C2]. apply Nat.ltb_lt in C1, C2.
      rewrite drop_length.
      replace (String.length n - (String.length n - i))%nat with i by lia.
      split; [apply substring_drop; lia|]. right.
      clear C1 C2. revert i E. induction n as [|a n IH]; intros i E; [discriminate|].
      cbn [PyStr.rfind] in E. destruct (PyStr.rfind "."%char n) as [j|] eqn:Ej.
      * injection E as <-. cbn [PyStr.drop]. now apply IH.
      * destruct (Ascii.eqb_spec a "."%char) as [->|]; [|discriminate].
        injection E as <-. now eexists.
    + cbn [String.length]. rewrite Nat.sub_0_r, substring_all.
      split; [apply append_empty_r|now left].
  - cbn [String.length]. rewrite Nat.sub_0_r, substring_all.
    split; [apply append_empty_r|now left].
Qed.

Lemma append_inj_l (a b c : string) : (a ++ b)%string = (a ++ c)%string -> b = c.
Proof. induction a as [|x a IH]; cbn; [tauto|]. intros H. injection H as H. now apply IH. Qed.

Lemma name_no_slash (p : string) : has_char "/"%char (PathLib.name p) = false.
Proof.
  unfold PathLib.name. destruct (PathLib.parts p) as [|x l] eqn:E; [reflexivity|].
  assert (Hin : In (last (x :: l) "") (PathLib.parts p))
    by (rewrite E; apply last_In; discriminate).
  now destruct (parts_proper _ _ Hin).
Qed.

(** X14.  The summary is written beside the dataset and never over it:
    the file has the name of the dataset's stem followed by _stats.csv,
    which is not the dataset's name, under the same directories. *)
Theorem stats_file_beside_dataset :
  forall out_csv file : string,
    PathLib.with_name out_csv (String.append (PathLib.stem out_csv) "_stats.csv")
    = Some file ->
    PathLib.name file = String.append (PathLib.stem out_csv) "_stats.csv"
    /\ PathLib.name file <> PathLib.name out_csv
    /\ removelast (PathLib.parts file) = removelast (PathLib.parts out_csv)
    /\ PathLib.name out_csv <> "".
Proof.
  intros out_csv file H. unfold PathLib.with_name in H.
  destruct (String.eqb_spec (PathLib.name out_csv) "") as [E|Hname]; [discriminate|].
  injection H as <-.
  set (n := String.append (PathLib.stem out_csv) "_stats.csv").
  destruct (stem_suffix out_csv) as [Hss Hsuf].
  assert (Hstem : has_char "/"%char (PathLib.stem out_csv) = false).
  { pose proof (name_no_slash out_csv) as Hn. rewrite <- Hss, has_char_app in Hn.
    now apply orb_false_iff in Hn. }
  assert (Hn : proper n).
  { unfold n, proper. change String.append with append. rewrite has_char_app, Hstem.
    split; [reflexivity|]. split.
    - destruct (PathLib.stem out_csv); discriminate.
    - destruct (PathLib.stem out_csv) as [|a [|b s]]; discriminate. }
  assert (Hparts : PathLib.parts
                     (String.append (PathLib.root out_csv)
                        (String.concat "/" (removelast (PathLib.parts out_csv) ++ [n])))
                   = removelast (PathLib.parts out_csv) ++ [n]).
  { apply parts_of_written; [apply root_cases|now destruct (removelast _)|].
    intros seg Hin. apply in_app_iff in Hin as [Hin|[<-|[]]]; [|exact Hn].
    apply (parts_proper out_csv).
    destruct (PathLib.parts out_csv) as [|x l] eqn:E; [destruct Hin|].
    rewrite (app_removelast_last "" (l := x :: l)) by discriminate.
    apply in_or_app. now left. }
  assert (Hfile : PathLib.name
                    (String.append (PathLib.root out_csv)
                       (String.concat "/" (removelast (PathLib.parts out_csv) ++ [n])))
                  = n).
  { unfold PathLib.name. rewrite Hparts. apply last_last. }
  split; [exact Hfile|]. split; [|split; [|exact Hname]].
  - rewrite Hfile, <- Hss. unfold n. change String.append with append.
    intros Heq. apply append_inj_l in Heq.
    destruct Hsuf as [Hs|[e Hs]]; rewrite Hs in Heq; discriminate Heq.
  - rewrite Hparts. apply removelast_last.
Qed.

(** ** Getting the repositories *)

Section CloningFacts.

Variable World : Type.
Variable path_exists : World -> string -> bool.
Variable exec : World -> list string -> option string -> CompletedProcess * World.
Variable mkdir : World -> string -> World.

Local Abbreviation ensure_cloned' := (ensure_cloned World path_exists exec mkdir).

(** The three ways through [ensure_cloned]. *)
Lemma ensure_cloned_cases (url workdir : string) (w : World) :
  let path := PathLib.joinpath workdir (repo_name url) in
  let spec := {| url := url; name := repo_name url; path := path |} in
  let clone := exec (mkdir w (PathLib.parent path)) (clone_cmd url path) None in
  let banner := Printed (String.append "[clone] "
                           (String.append url (String.append " -> " path))) in
  ensure_cloned' url workdir w
  = if negb (path_exists w path) then
      if negb (returncode (fst clone) =? 0)%Z then
        ([banner; MadeDirs (PathLib.parent path); Ran (clone_cmd url path) None;
          PrintedErr (stderr (fst clone))],
         snd clone,
         inl (RuntimeError (String.append "git clone failed for " url)))
      else
        ([banner; MadeDirs (PathLib.parent path); Ran (clone_cmd url path) None;
          Ran ["git"; "fetch"; "--unshallow"] (Some path)],
         snd (exec (snd clone) ["git"; "fetch"; "--unshallow"] (Some path)),
         inr spec)
    else if path_exists w (PathLib.joinpath path ".git") then
      ([Ran ["git"; "remote"; "set-url"; "origin"; url] (Some path);
        Ran ["git"; "fetch"; "--all"] (Some path)],
       snd (exec (snd (exec w ["git"; "remote"; "set-url"; "origin"; url] (Some path)))
                 ["git"; "fetch"; "--all"] (Some path)),
       inr spec)
    else
      ([], w, inl (RuntimeError (String.append "Not a git repository: " path))).
Proof.
  intros path spec clone banner.
  unfold ensure_cloned, wbind, wexists, wprint, wprint_err, wmkdir, wrun, wret, wraise.
  fold path. destruct (path_exists w path); cbn [negb].
  - destruct (path_exists w (PathLib.joinpath path ".git")); [|reflexivity].
    destruct (exec w _ (Some path)) as [cp1 w1]. cbn [snd].
    destruct (exec w1 _ (Some path)) as [cp2 w2]. reflexivity.
  - fold clone. destruct clone as [cp w1]. cbn [fst snd].
    destruct (returncode cp =? 0)%Z; cbn [negb]; [|reflexivity].
    destruct (exec w1 _ (Some path)) as [cp2 w2]. reflexivity.
Qed.

(** X17.  The outcomes of [ensure_cloned], read back from the result.
    When it returns, the result is fixed by the address and the work
    directory, and either the directory was missing, the clone was run
    outside the checkout and exited with zero, and the full history was
    fetched inside it, or the directory was there with a [.git] and the
    remote address was set and fetched, with no clone.  When it raises a
    [RuntimeError], either the directory was missing and the clone exited
    with a non-zero code, its error text was printed and no fetch was
    run, or the directory was there without a [.git], which is found
    before anything is run or changed.  An existing directory without a
    [.git] always ends that way.  (The errors of creating the parent
    directory and of starting git are no [RuntimeError] and are left
    aside: [mkdir] and [exec] always answer here.) *)
Theorem ensure_cloned_outcomes :
  forall (url workdir : string) (w : World),
    let path := PathLib.joinpath workdir (repo_name url) in
    let clone := exec (mkdir w (PathLib.parent path)) (clone_cmd url path) None in
    let banner := Printed (String.append "[clone] "
                             (String.append url (String.append " -> " path))) in
    let result := ensure_cloned' url workdir w in
    (forall spec, snd result = inr spec ->
       spec = {| url := url; name := repo_name url; path := path |}
       /\ ((path_exists w path = false
            /\ returncode (fst clone) = 0%Z
            /\ fst (fst result)
               = [banner; MadeDirs (PathLib.parent path); Ran (clone_cmd url path) None;
                  Ran ["git"; "fetch"; "--unshallow"] (Some path)])
           \/ (path_exists w path = true
               /\ path_exists w (PathLib.joinpath path ".git") = true
               /\ fst (fst result)
                  = [Ran ["git"; "remote"; "set-url"; "origin"; url] (Some path);
                     Ran ["git"; "fetch"; "--all"] (Some path)])))
    /\ (forall text, snd result = inl (RuntimeError text) ->
          (text = String.append "git clone failed for " url
           /\ path_exists w path = false
           /\ returncode (fst clone) <> 0%Z
           /\ fst (fst result)
              = [banner; MadeDirs (PathLib.parent path); Ran (clone_cmd url path) None;
                 PrintedErr (stderr (fst clone))])
          \/ (text = String.append "Not a git repository: " path
              /\ path_exists w path = true
              /\ path_exists w (PathLib.joinpath path ".git") = false
              /\ fst result = ([], w)))
    /\ (path_exists w path = true ->
        path_exists w (PathLib.joinpath path ".git") = false ->
        result = ([], w, inl (RuntimeError (String.append "Not a git repository: " path)))).
Proof.
  intros url workdir w path clone banner result. subst result.
  rewrite ensure_cloned_cases. fold path. fold clone. fold banner.
  destruct (path_exists w path) eqn:Hp; cbn [negb].
  - destruct (path_exists w (PathLib.joinpath path ".git")) eqn:Hg; cbn [fst snd].
    + split; [|split].
      * intros spec H. injection H as <-. split; [reflexivity|]. right. now repeat split.
      * intros text H. discriminate H.
      * discriminate.
    + split; [|split].
      * intros spec H. discriminate H.
      * intros text H. injection H as <-. right. now repeat split.
      * reflexivity.
  - destruct (Z.eqb_spec (returncode (fst clone)) 0) as [Hz|Hz]; cbn [negb fst snd].
    + split; [|split].
      * intros spec H. injection H as <-. split; [reflexivity|]. left. now repeat split.
      * intros text H. discriminate H.
      * discriminate.
    + split; [|split].
      * intros spec H. discriminate H.
      * intros text H. injection H as <-. left. now repeat split.
      * discriminate.
Qed.

(** X18.  If a successful clone leaves the checkout and its [.git] in
    place and the commands run inside a checkout remove nothing, then
    after [ensure_cloned] has returned, calling it again for the same
    address does not clone: it resets the origin, fetches, and returns the
    same result. *)
Theorem ensure_cloned_again :
  forall (url workdir : string) (w w1 : World) (actions : list Action) (spec : RepoSpec),
    (forall w0 u p,
        returncode (fst (exec w0 (clone_cmd u p) None)) = 0%Z ->
        path_exists (snd (exec w0 (clone_cmd u p) None)) p = true
        /\ path_exists (snd (exec w0 (clone_cmd u p) None)) (PathLib.joinpath p ".git")
           = true) ->
    (forall w0 cmd dir p,
        path_exists w0 p = true -> path_exists (snd (exec w0 cmd (Some dir))) p = true) ->
    ensure_cloned' url workdir w = (actions, w1, inr spec) ->
    exists w2,
      ensure_cloned' url workdir w1
      = ([Ran ["git"; "remote"; "set-url"; "origin"; url] (Some (path spec));
          Ran ["git"; "fetch"; "--all"] (Some (path spec))],
         w2, inr spec).
Proof.
  intros url workdir w w1 actions spec Hclone Hkeep Hfirst.
  rewrite ensure_cloned_cases in Hfirst. cbv zeta in Hfirst.
  set (p := PathLib.joinpath workdir (repo_name url)) in *.
  assert (Hw1 : path_exists w1 p = true /\ path_exists w1 (PathLib.joinpath p ".git") = true
                /\ spec = {| url := url; name := repo_name url; path := p |}).
  { destruct (path_exists w p) eqn:Hp; cbn [negb] in Hfirst.
    - destruct (path_exists w (PathLib.joinpath p ".git")) eqn:Hg; [|discriminate Hfirst].
      injection Hfirst as _ <- <-. repeat split; now do 2 apply Hkeep.
    - destruct (Z.eqb_spec
                  (returncode (fst (exec (mkdir w (PathLib.parent p)) (clone_cmd url p) None)))
                  0) as [Hz|Hz]; cbn [negb] in Hfirst; [|discriminate Hfirst].
      injection Hfirst as _ <- <-.
      destruct (Hclone _ _ _ Hz) as [H1 H2]. repeat split; now apply Hkeep. }
  destruct Hw1 as (H1 & H2 & ->).
  rewrite ensure_cloned_cases. cbv zeta. fold p. rewrite H1, H2. cbn [negb path].
  eexists. reflexivity.
Qed.

End CloningFacts.

(** X5.  [is_readme] and [is_license] look at the base name only: for a
    path [dir/base] the answer is that of [base], so a directory called
    readme or license does not make its files readme or license files. *)
Theorem directory_name_is_no_readme :
  forall dir base : string,
    has_char "/"%char base = false -> base <> "" -> base <> "." ->
    is_readme (Some (dir ++ "/" ++ base)%string)
    = PyStr.startswith "readme" (PyStr.lower base)
    /\ is_license (Some (dir ++ "/" ++ base)%string)
       = PyStr.startswith "license" (PyStr.lower base)
         || PyStr.startswith "licence" (PyStr.lower base).
Proof.
  intros dir base Hs Hne Hnd.
  change (dir ++ "/" ++ base)%string with (dir ++ String "/"%char base)%string.
  unfold is_readme, is_license.
  rewrite (name_of_join dir base Hs Hne Hnd).
  replace (PyStr.truthy (dir ++ String "/"%char base)) with true
    by (destruct dir; reflexivity).
  split; reflexivity.
Qed.

Lemma directory_name_is_no_readme_witness :
  has_char "/"%char "notes.py" = false /\ "notes.py" <> "" /\ "notes.py" <> "."
  /\ is_readme (Some "readme/notes.py") = false
  /\ is_license (Some "LICENSE/notes.py") = false
  /\ classify_file None (Some "readme/notes.py") = "source".
Proof.
  assert (H1 : has_char "/"%char "notes.py" = false) by reflexivity.
  assert (H2 : "notes.py" <> "") by discriminate.
  assert (H3 : "notes.py" <> ".") by discriminate.
  split; [exact H1|]. split; [exact H2|]. split; [exact H3|].
  split; [|split].
  - exact (proj1 (directory_name_is_no_readme "readme" "notes.py" H1 H2 H3)).
  - exact (proj2 (directory_name_is_no_readme "LICENSE" "notes.py" H1 H2 H3)).
  - reflexivity.
Defined.

Section BoundFacts.

Variable subprocess_run : list string -> option string -> CompletedProcess.
Variable checkout : string -> list Commit.
Variable set_order : string -> string -> bool.

(** X11.  A negative [max_commits] is no "no limit": [analyze_repo]
    walks no commit, runs no command and returns the frame without
    columns, so that [build_and_save] ends in the errors of the empty
    dataset. *)
Theorem negative_max_commits_walks_nothing :
  forall specs max_commits out_csv include_merges,
    (max_commits < 0)%Z ->
    (forall spec,
        analyze_repo subprocess_run checkout set_order spec max_commits include_merges
        = ([], inr (of_rows [])))
    /\ build_and_save subprocess_run checkout set_order
         specs max_commits out_csv include_merges
       = match specs with
         | [] => ([], inl (ValueError "No objects to concatenate"))
         | _ :: _ => ([WriteDataset out_csv [] []], inl (KeyError "file_type"))
         end.
Proof.
  intros specs max_commits out_csv include_merges Hneg.
  assert (Hrepo : forall spec,
             analyze_repo subprocess_run checkout set_order spec max_commits include_merges
             = ([], inr (of_rows []))).
  { intros spec. rewrite analyze_repo_eq, processed_firstn.
    destruct (Z.eqb_spec max_commits 0) as [E|_]; [lia|].
    replace (Z.to_nat (max_commits - 0)) with 0%nat by lia. reflexivity. }
  split; [exact Hrepo|].
  unfold build_and_save.
  rewrite (analyze_all_no_rows subprocess_run checkout set_order specs max_commits
             include_merges []).
  - cbn [app].
    change (@pair (list Event) (PyExc + list DataFrame) []
              (inr (map (fun _ => of_rows []) specs)))
      with (ret (map (fun _ : RepoSpec => of_rows []) specs)).
    rewrite bind_ret_l, map_const_repeat.
    destruct specs as [|spec specs]; [reflexivity|].
    cbn [length]. rewrite concat_empty_frames, bind_ret_l. reflexivity.
  - intros spec _. exists (of_rows []). rewrite Hrepo. split; reflexivity.
Qed.

End BoundFacts.

Lemma negative_max_commits_walks_nothing_witness :
  (-1 < 0)%Z
  /\ analyze_repo Demo.tool Demo.checkout Demo.set_order Demo.spec (-1) true
     = ([], inr (of_rows []))
  /\ build_and_save Demo.tool Demo.checkout Demo.set_order [Demo.spec] (-1) "out.csv" true
     = ([WriteDataset "out.csv" [] []], inl (KeyError "file_type")).
Proof.
  assert (H : (-1 < 0)%Z) by lia.
  split; [exact H|].
  destruct (negative_max_commits_walks_nothing Demo.tool Demo.checkout Demo.set_order
              [Demo.spec] (-1)%Z "out.csv" true H) as [H1 H2].
  split; [apply H1|exact H2].
Defined.

Lemma classifier_ignores_case_witness :
  PyStr.lower "Docs/ReadMe.MD" = PyStr.lower "docs/README.md"
  /\ is_readme (Some "Docs/ReadMe.MD") = is_readme (Some "docs/README.md")
  /\ classify_file None (Some "Docs/ReadMe.MD") = classify_file None (Some "docs/README.md").
Proof.
  assert (H : PyStr.lower "Docs/ReadMe.MD" = PyStr.lower "docs/README.md") by reflexivity.
  split; [exact H|].
  destruct (classifier_ignores_case _ _ H) as (_ & _ & H3 & _ & H5 & _).
  split; [exact H3|apply H5].
Defined.

Lemma source_extension_recognised_witness :
  has_char "/"%char "Main" = false /\ "Main" <> ""
  /\ In (PyStr.lower ".JAVA") SOURCE_EXTS
  /\ is_source_code (Some "src/app/Main.JAVA") = true
  /\ is_source_code (Some "Main.JAVA") = true.
Proof.
  assert (H1 : has_char "/"%char "Main" = false) by reflexivity.
  assert (H2 : "Main" <> "") by discriminate.
  assert (H3 : In (PyStr.lower ".JAVA") SOURCE_EXTS) by (vm_compute; tauto).
  split; [exact H1|]. split; [exact H2|]. split; [exact H3|].
  exact (source_extension_recognised "src/app" "Main" ".JAVA" H1 H2 H3).
Defined.

Lemma no_suffix_no_source_witness :
  has_char "/"%char ".sh" = false /\ ".sh" <> "" /\ ".sh" <> "."
  /\ has_char "."%char (PyStr.drop 1 ".sh") = false
  /\ is_source_code (Some "home/.sh") = false
  /\ is_source_code (Some ".sh") = false.
Proof.
  assert (H1 : has_char "/"%char ".sh" = false) by reflexivity.
  assert (H2 : ".sh" <> "") by discriminate.
  assert (H3 : ".sh" <> ".") by discriminate.
  assert (H4 : has_char "."%char (PyStr.drop 1 ".sh") = false) by reflexivity.
  split; [exact H1|]. split; [exact H2|]. split; [exact H3|]. split; [exact H4|].
  exact (no_suffix_no_source "home" ".sh" H1 H2 H3 H4).
Defined.

Lemma repo_name_drops_dot_git_witness :
  has_char "/"%char "my" = false /\ has_char "."%char "my" = false
  /\ has_char "/"%char "hub" = false /\ has_char "."%char "hub" = false
  /\ "my" <> ""
  /\ repo_name "https://example.org/team/my" = "my"
  /\ repo_name "https://example.org/team/my.git" = "my"
  /\ repo_name "https://example.org/team/my.github" = "myhub".
Proof.
  assert (H5 : "my" <> "") by discriminate.
  split; [reflexivity|]. split; [reflexivity|]. split; [reflexivity|].
  split; [reflexivity|]. split; [exact H5|].
  exact (repo_name_drops_dot_git "https://example.org/team" "my" "hub"
           eq_refl eq_refl eq_refl eq_refl H5).
Defined.

Lemma stats_file_beside_dataset_witness :
  PathLib.with_name "/data/run/out.csv" (String.append (PathLib.stem "/data/run/out.csv") "_stats.csv")
  = Some "/data/run/out_stats.csv"
  /\ PathLib.name "/data/run/out_stats.csv" = "out_stats.csv"
  /\ PathLib.name "/data/run/out_stats.csv" <> PathLib.name "/data/run/out.csv"
  /\ removelast (PathLib.parts "/data/run/out_stats.csv")
     = removelast (PathLib.parts "/data/run/out.csv").
Proof.
  assert (H : PathLib.with_name "/data/run/out.csv"
                (String.append (PathLib.stem "/data/run/out.csv") "_stats.csv")
              = Some "/data/run/out_stats.csv") by reflexivity.
  split; [exact H|].
  destruct (stats_file_beside_dataset _ _ H) as (H1 & H2 & H3 & _).
  split; [exact H1|]. split; [exact H2|exact H3].
Defined.

(** The sample world keeps what exists, and a clone creates the checkout. *)
Lemma demo_world_clone (w0 : DemoWorld.World) (u p : string) :
  returncode (fst (DemoWorld.exec w0 (clone_cmd u p) None)) = 0%Z ->
  DemoWorld.path_exists (snd (DemoWorld.exec w0 (clone_cmd u p) None)) p = true
  /\ DemoWorld.path_exists (snd (DemoWorld.exec w0 (clone_cmd u p) None))
       (PathLib.joinpath p ".git") = true.
Proof.
  intros _. unfold DemoWorld.exec.
  change (DemoWorld.is_clone (clone_cmd u p)) with true.
  cbn [snd nth clone_cmd]. unfold DemoWorld.path_exists, PyStr.mem. cbn [existsb].
  rewrite !String.eqb_refl. cbn [orb]. split; [reflexivity|apply orb_true_r].
Qed.

Lemma demo_world_keeps (w0 : DemoWorld.World) (cmd : list string) (dir p : string) :
  DemoWorld.path_exists w0 p = true ->
  DemoWorld.path_exists (snd (DemoWorld.exec w0 cmd (Some dir))) p = true.
Proof.
  intros H. unfold DemoWorld.exec. destruct (DemoWorld.is_clone cmd); cbn [snd]; [|exact H].
  unfold DemoWorld.path_exists, PyStr.mem in *. cbn [existsb]. rewrite H.
  now rewrite !orb_true_r.
Qed.

(** A directory that is there without a [.git]: the error, nothing run;
    and a first call in an empty world: the clone and the fetch. *)
Lemma ensure_cloned_outcomes_witness :
  ensure_cloned DemoWorld.World DemoWorld.path_exists DemoWorld.exec DemoWorld.mkdir
    "https://example.org/team/demo.git" "repos" ["repos/demo"]
  = ([], ["repos/demo"], inl (RuntimeError "Not a git repository: repos/demo"))
  /\ exists actions w1 spec,
       ensure_cloned DemoWorld.World DemoWorld.path_exists DemoWorld.exec DemoWorld.mkdir
         "https://example.org/team/demo.git" "repos" []
       = (actions, w1, inr spec)
       /\ spec = {| url := "https://example.org/team/demo.git"; name := "demo";
                    path := "repos/demo" |}
       /\ actions
          = [Printed "[clone] https://example.org/team/demo.git -> repos/demo";
             MadeDirs "repos";
             Ran (clone_cmd "https://example.org/team/demo.git" "repos/demo") None;
             Ran ["git"; "fetch"; "--unshallow"] (Some "repos/demo")].
Proof.
  split.
  - destruct (ensure_cloned_outcomes DemoWorld.World DemoWorld.path_exists DemoWorld.exec
                DemoWorld.mkdir "https://example.org/team/demo.git" "repos" ["repos/demo"])
      as (_ & _ & H).
    exact (H eq_refl eq_refl).
  - destruct (ensure_cloned DemoWorld.World DemoWorld.path_exists DemoWorld.exec
                DemoWorld.mkdir "https://example.org/team/demo.git" "repos" [])
      as [[actions w1] [e|spec]] eqn:E; [vm_compute in E; discriminate E|].
    destruct (ensure_cloned_outcomes DemoWorld.World DemoWorld.path_exists DemoWorld.exec
                DemoWorld.mkdir "https://example.org/team/demo.git" "repos" [])
      as (H & _ & _).
    rewrite E in H. destruct (H spec eq_refl) as [Hs [(_ & _ & Ha)|(Hex & _)]];
      [|vm_compute in Hex; discriminate Hex].
    exists actions, w1, spec. split; [reflexivity|]. split; [exact Hs|exact Ha].
Defined.

Lemma ensure_cloned_again_witness :
  exists w1 w2 actions spec,
    ensure_cloned DemoWorld.World DemoWorld.path_exists DemoWorld.exec DemoWorld.mkdir
      "https://example.org/team/demo.git" "repos" []
    = (actions, w1, inr spec)
    /\ In (Ran (clone_cmd "https://example.org/team/demo.git" "repos/demo") None) actions
    /\ ensure_cloned DemoWorld.World DemoWorld.path_exists DemoWorld.exec DemoWorld.mkdir
         "https://example.org/team/demo.git" "repos" w1
       = ([Ran ["git"; "remote"; "set-url"; "origin"; "https://example.org/team/demo.git"]
               (Some "repos/demo");
           Ran ["git"; "fetch"; "--all"] (Some "repos/demo")],
          w2, inr spec).
Proof.
  destruct (ensure_cloned DemoWorld.World DemoWorld.path_exists DemoWorld.exec DemoWorld.mkdir
              "https://example.org/team/demo.git" "repos" []) as [[actions w1] r] eqn:E.
  vm_compute in E. injection E as <- <- <-.
  destruct (ensure_cloned_again DemoWorld.World DemoWorld.path_exists DemoWorld.exec
              DemoWorld.mkdir "https://example.org/team/demo.git" "repos" []
              _ _ _ demo_world_clone demo_world_keeps eq_refl) as [w2 H2].
  do 4 eexists. split; [reflexivity|]. split; [|exact H2].
  cbn. tauto.
Defined.

(** A directory test-utils makes a test path, a directory testing does
    not. *)
Lemma is_test_file_by_segments_witness :
  ascii_only "Src/Test-utils/a.py" = true
  /\ is_test_file (Some "Src/Test-utils/a.py") = true
  /\ ascii_only "src/testing/a.py" = true
  /\ is_test_file (Some "src/testing/a.py") = false.
Proof.
  split; [reflexivity|]. split.
  { apply (proj2 (is_test_file_by_segments "Src/Test-utils/a.py" eq_refl)).
    left. exists "test-utils", "test", "-utils".
    split; [vm_compute; tauto|]. split; [reflexivity|]. split; [now left|reflexivity]. }
  split; [reflexivity|].
  destruct (is_test_file (Some "src/testing/a.py")) eqn:E; [|reflexivity].
  apply (proj1 (is_test_file_by_segments "src/testing/a.py" eq_refl)) in E.
  destruct E as [(seg & pre & rest & Hin & Heq & Hpre & Hw)|[H|H]];
    [|vm_compute in H; discriminate H|vm_compute in H; discriminate H].
  vm_compute in Hin.
  destruct Hin as [<-|[<-|[<-|[]]]]; destruct Hpre as [->|[->| ->]];
    cbn in Heq; try discriminate Heq.
  injection Heq as <-. vm_compute in Hw. discriminate Hw.
Defined.

(** The first record of the sample run, that of the rename in [b2]. *)
Lemma record_schema_witness :
  exists row,
    In row (run_rows Demo.tool Demo.checkout Demo.set_order Demo.spec 0 false)
    /\ map fst row = ROW_KEYS
    /\ row_get "file_type" row = Some (VStr "source")
    /\ row_get "Discrepancy" row = Some (VStr "Yes").
Proof.
  set (rows := run_rows Demo.tool Demo.checkout Demo.set_order Demo.spec 0 false).
  assert (Hin : In (hd [] rows) rows) by (vm_compute; left; reflexivity).
  exists (hd [] rows). split; [exact Hin|].
  destruct (record_schema Demo.tool Demo.checkout Demo.set_order
              Demo.spec 0%Z false (hd [] rows) Hin) as [Hkeys _].
  split; [exact Hkeys|]. split; reflexivity.
Defined.

(** The message of [f1] has three line feeds and that of [r0] begins
    with blanks and ends with a line feed; their records hold one line
    each, without the blanks around it. *)
Lemma commit_message_single_line_witness :
  has_char "010"%char (msg DemoMerge.fix_) = true
  /\ msg DemoMerge.root = String.append "  initial import" DemoMerge.nl
  /\ exists row1 text1 row2 text2,
       In row1 (run_rows Demo.tool DemoMerge.checkout Demo.set_order DemoMerge.spec 0 false)
       /\ row_get "commit_sha" row1 = Some (VStr (hash DemoMerge.fix_))
       /\ row_get "commit_message" row1 = Some (VStr text1)
       /\ text1 = "fix parser  handles tabs"
       /\ has_char "010"%char text1 = false
       /\ In row2 (run_rows Demo.tool DemoMerge.checkout Demo.set_order DemoMerge.spec 0 false)
       /\ row_get "commit_sha" row2 = Some (VStr (hash DemoMerge.root))
       /\ row_get "commit_message" row2 = Some (VStr text2)
       /\ text2 = "initial import"
       /\ has_char "010"%char text2 = false
       /\ (String.length text2 < String.length (msg DemoMerge.root))%nat.
Proof.
  split; [reflexivity|]. split; [reflexivity|].
  set (rows := run_rows Demo.tool DemoMerge.checkout Demo.set_order DemoMerge.spec 0 false).
  assert (Hin1 : In (nth 1 rows []) rows) by (vm_compute; tauto).
  assert (Hin2 : In (nth 2 rows []) rows) by (vm_compute; tauto).
  destruct (commit_message_single_line Demo.tool DemoMerge.checkout Demo.set_order
              DemoMerge.spec 0%Z false (nth 1 rows []) Hin1)
    as (c1 & text1 & _ & _ & Hcell1 & Hnl1 & _).
  destruct (commit_message_single_line Demo.tool DemoMerge.checkout Demo.set_order
              DemoMerge.spec 0%Z false (nth 2 rows []) Hin2)
    as (c2 & text2 & _ & _ & Hcell2 & Hnl2 & _).
  assert (Ht1 : text1 = "fix parser  handles tabs")
    by (vm_compute in Hcell1; injection Hcell1 as <-; reflexivity).
  assert (Ht2 : text2 = "initial import")
    by (vm_compute in Hcell2; injection Hcell2 as <-; reflexivity).
  exists (nth 1 rows []), text1, (nth 2 rows []), text2.
  split; [exact Hin1|]. split; [reflexivity|]. split; [exact Hcell1|].
  split; [exact Ht1|]. split; [exact Hnl1|].
  split; [exact Hin2|]. split; [reflexivity|]. split; [exact Hcell2|].
  split; [exact Ht2|]. split; [exact Hnl2|].
  rewrite Ht2. vm_compute. lia.
Defined.

(** The commit [m3] of the sample history has two parents and changes a
    file: with merges included a record carries its hash, without them
    none does. *)
Lemma merge_commits_left_out_witness :
  In DemoMerge.merge (DemoMerge.checkout (path DemoMerge.spec))
  /\ length (parents DemoMerge.merge) = 2%nat
  /\ (exists row,
        In row (run_rows Demo.tool DemoMerge.checkout Demo.set_order DemoMerge.spec 0 true)
        /\ row_get "commit_sha" row = Some (VStr (hash DemoMerge.merge)))
  /\ length (run_rows Demo.tool DemoMerge.checkout Demo.set_order DemoMerge.spec 0 false)
     = 3%nat
  /\ (forall row,
        In row (run_rows Demo.tool DemoMerge.checkout Demo.set_order DemoMerge.spec 0 false) ->
        row_get "commit_sha" row <> Some (VStr (hash DemoMerge.merge))).
Proof.
  split; [vm_compute; tauto|]. split; [reflexivity|]. split.
  { eexists. split; [left; reflexivity|reflexivity]. }
  split; [reflexivity|].
  intros row Hin.
  destruct (merge_commits_left_out Demo.tool DemoMerge.checkout Demo.set_order
              DemoMerge.spec 0%Z row Hin) as (c & Hc & Hp & Hsha & _).
  rewrite Hsha.
  change (DemoMerge.checkout (path DemoMerge.spec))
    with [DemoMerge.root; DemoMerge.fix_; DemoMerge.docs; DemoMerge.merge] in Hc.
  destruct Hc as [<-|[<-|[<-|[<-|[]]]]]; try discriminate.
  cbn in Hp. lia.
Defined.

(** The dataset of a run over two repositories: the records of the one
    given first come first, whichever it is. *)
Lemma dataset_file_layout_witness :
  run_dataset Demo.tool DemoMerge.checkout Demo.set_order
    [DemoMerge.spec; Demo.spec] 0 false <> []
  /\ run_dataset Demo.tool DemoMerge.checkout Demo.set_order
       [Demo.spec; DemoMerge.spec] 0 false <> []
  /\ (exists lines,
        dataset_writes
          (events (build_and_save Demo.tool DemoMerge.checkout Demo.set_order
                     [DemoMerge.spec; Demo.spec] 0 "data/out.csv" false))
        = [("data/out.csv", ROW_KEYS, lines)]
        /\ map (fun line => (nth 0 line "", nth 3 line "")) lines
           = [("merged", "d2"); ("merged", "f1"); ("merged", "r0");
              ("demo", "b2"); ("demo", "a1"); ("demo", "a1"); ("demo", "a1")])
  /\ (exists lines,
        dataset_writes
          (events (build_and_save Demo.tool DemoMerge.checkout Demo.set_order
                     [Demo.spec; DemoMerge.spec] 0 "data/out.csv" false))
        = [("data/out.csv", ROW_KEYS, lines)]
        /\ map (fun line => (nth 0 line "", nth 3 line "")) lines
           = [("demo", "b2"); ("demo", "a1"); ("demo", "a1"); ("demo", "a1");
              ("merged", "d2"); ("merged", "f1"); ("merged", "r0")]).
Proof.
  assert (H1 : run_dataset Demo.tool DemoMerge.checkout Demo.set_order
                 [DemoMerge.spec; Demo.spec] 0 false <> [])
    by (vm_compute; discriminate).
  assert (H2 : run_dataset Demo.tool DemoMerge.checkout Demo.set_order
                 [Demo.spec; DemoMerge.spec] 0 false <> [])
    by (vm_compute; discriminate).
  split; [exact H1|]. split; [exact H2|]. split.
  - destruct (dataset_file_layout Demo.tool DemoMerge.checkout Demo.set_order
                [DemoMerge.spec; Demo.spec] 0%Z "data/out.csv" false H1) as [Hw _].
    eexists. split; [exact Hw|]. reflexivity.
  - destruct (dataset_file_layout Demo.tool DemoMerge.checkout Demo.set_order
                [Demo.spec; DemoMerge.spec] 0%Z "data/out.csv" false H2) as [Hw _].
    eexists. split; [exact Hw|]. reflexivity.
Defined.

Lemma summary_accounts_for_every_record_witness :
  run_dataset Demo.tool Demo.checkout Demo.set_order [Demo.spec] 0 false <> []
  /\ PathLib.with_name "data/out.csv" (String.append (PathLib.stem "data/out.csv") "_stats.csv")
     = Some "data/out_stats.csv"
  /\ exists events_before table,
       build_and_save Demo.tool Demo.checkout Demo.set_order [Demo.spec] 0 "data/out.csv" false
       = ((events_before ++ [WriteStats "data/out_stats.csv" table])%list, inr tt)
       /\ table_total table = 4%Z.
Proof.
  assert (H1 : run_dataset Demo.tool Demo.checkout Demo.set_order [Demo.spec] 0 false <> [])
    by (vm_compute; discriminate).
  split; [exact H1|]. split; [reflexivity|].
  destruct (summary_accounts_for_every_record Demo.tool Demo.checkout Demo.set_order
              [Demo.spec] 0%Z "data/out.csv" false "data/out_stats.csv" H1 eq_refl)
    as (evs & table & Hrun & Htotal & _).
  exists evs, table. split; [exact Hrun|]. rewrite Htotal. reflexivity.
Defined.
